(** * ops-sim: message envelopes, duplicate detection and the chaos proxy

    A shallow embedding of the TypeScript sources
      - message-utils.ts   (class MessageUtils)
      - chaos-proxy.ts     (class ChaosProxy)
      - kafka-consumer.ts  (KafkaConsumer.handleMessage)
      - kafka-producer.ts  (KafkaProducer.sendMessage, sendBatch)
      - examples/consumer.ts (the telemetry handler)
    and the properties of the specification that concern them.

    Number model.  Integer-valued quantities (sequence numbers, counters,
    the generator state, seeds, window sizes, delays after Math.floor) are
    [Z], fractional quantities (rates, draws, maxDelayMs) are [Q].  A
    fraction stands for the real number an expression denotes; the number
    JavaScript holds for it is the nearest binary64 value, [round64] of it.
    The rounding is written out where the code's result depends on it: in
    the generator's update [state * 9301 + 49297], which is rounded above
    2^53 ([next_state]), and in the products [random() * (i + 1)] and
    [random() * maxDelayMs] that are floored ([js_mul]).  The tests
    [random() < rate] and [maxDelayMs <= 0] are made on the fractions:
    rounding is monotone, so the numbers compare differently only where
    two different fractions round to the same number.  The duplicate delay
    [50 + Math.random() * 200] is kept as a fraction.  Infinity and NaN, and
    with them magnitudes of 2^1024 and above, are not modelled.  32-bit
    operators ([<<], [&]) are written out with their wrap-around.

    Strings are sequences of code units below 256 (Rocq's [string]);
    [charCodeAt] is the code of the character.

    Objects.  A property that may be missing is an [option]; [None] is the
    value [undefined] that reading it gives.  Where the code tells an absent
    property from one that holds [undefined] ([updateConfig]) the objects
    are modelled a second time with that difference ([Raw]).  An array is
    its elements together with the properties stored under negative
    indices ([JsArray]).  The [Map] of sequence counters
    and of handlers is a [gmap]; the [Set] of seen ids is a list without
    duplicates, in insertion order, which is the order JavaScript iterates a
    [Set] in.

    Effects.  The chaos proxy is a state-and-exception monad over a world
    that holds the proxy's fields, the state of the collaborators and the
    trace of what the proxy did to them.  An [await] is modelled as a call
    that has returned: calls run to completion, one after the other. *)

From Stdlib Require Import ZArith QArith Qround Qabs Qpower Lia Lqa Bool.
From Stdlib Require Import Ascii String Strings.HexString.
From stdpp Require Import gmap strings list pretty.

Local Open Scope string_scope.
Local Open Scope list_scope.
Local Open Scope Z_scope.

(** ** JavaScript preliminaries *)

(** Exceptions.  The only exception the modelled code raises itself is the
    TypeError of a property read on [undefined]; collaborators (the send
    function, a message handler) may raise anything. *)
Inductive JsError :=
| TypeError (reading : string)
| SyntaxError
| ExternalError (message : string).

Inductive Result (A : Type) :=
| Ok (a : A)
| Throw (e : JsError).
Arguments Ok {A} a.
Arguments Throw {A} e.

(** ToInt32: the value modulo 2^32, read as a signed 32-bit integer. *)
Definition ToInt32 (z : Z) : Z :=
  let m := z mod 2 ^ 32 in
  if 2 ^ 31 <=? m then m - 2 ^ 32 else m.

(** [a << n] and [a & b] on numbers. *)
Definition js_shl (a n : Z) : Z := ToInt32 (Z.shiftl (ToInt32 a) (n mod 32)).
Definition js_and (a b : Z) : Z := Z.land (ToInt32 a) (ToInt32 b).

(** [a % b] keeps the sign of the dividend. *)
Definition js_rem (a b : Z) : Z := Z.rem a b.

(** [n.toString(16)] for an integer [n]. *)
Definition toString16 (n : Z) : string :=
  match n with
  | Z0 => "0"
  | Zpos p => HexString.Raw.of_pos p ""
  | Zneg p => "-" +:+ HexString.Raw.of_pos p ""
  end.

(** [x < y] on fractional numbers. *)
Definition Qltb (x y : Q) : bool := negb (Qle_bool y x).

(** Binary64.  A fraction stands for the real number an expression
    denotes; the number JavaScript holds for it is the nearest binary64
    value, ties to the even significand: 53 bits, least exponent -1074.
    Values of magnitude 2^1024 and above (which overflow) are not
    modelled. *)
Definition round_half_even (q : Q) : Z :=
  let f := Qfloor q in
  match (q - inject_Z f ?= 1 # 2)%Q with
  | Lt => f
  | Gt => f + 1
  | Eq => if Z.even f then f else f + 1
  end.

(** The integer [k] with [2^k <= q < 2^(k+1)], for [q > 0]. *)
Definition ilog2 (q : Q) : Z :=
  let k := Z.log2 (Qnum q) - Z.log2 (Zpos (Qden q)) in
  if Qle_bool (2 ^ k)%Q q then k else k - 1.

Definition round64 (q : Q) : Q :=
  if Qeq_bool q 0 then 0%Q
  else
    let a := Qabs q in
    let e := Z.max (ilog2 a - 52) (-1074) in
    let m := round_half_even (a / 2 ^ e)%Q in
    let r := (inject_Z m * 2 ^ e)%Q in
    if Qle_bool 0 q then r else (- r)%Q.

(** [x * y] on numbers: the operands as binary64 values, and their product
    rounded. *)
Definition js_mul (x y : Q) : Q := round64 (round64 x * round64 y).

(** The number held for an integer: integers of magnitude up to 2^53 are
    binary64 values; a larger one is rounded (to an integer again). *)
Definition number_of_Z (z : Z) : Z :=
  if Z.abs z <=? 2 ^ 53 then z else Qfloor (round64 (inject_Z z)).

(** ** JSON values and [JSON.stringify]

    The values a payload can hold once it has been through [JSON.parse],
    together with [undefined] (an absent payload).  Numbers are the
    integer-valued ones of magnitude below 10^21, which [JSON.stringify]
    prints with all their digits (from 10^21 on it prints an exponent);
    strings hold code units below 256; object fields are listed in
    enumeration order. *)
#[warnings="-register-all"] Inductive Json :=
| JUndefined
| JNull
| JBool (b : bool)
| JInt (n : Z)
| JString (s : string)
| JArray (items : list Json)
| JObject (fields : list (string * Json)).

Definition hex_digit (n : N) : ascii :=
  match n with
  | 0 => "0" | 1 => "1" | 2 => "2" | 3 => "3" | 4 => "4" | 5 => "5"
  | 6 => "6" | 7 => "7" | 8 => "8" | 9 => "9" | 10 => "a" | 11 => "b"
  | 12 => "c" | 13 => "d" | 14 => "e" | _ => "f"
  end%N%char.

(** QuoteJSONString, one code unit at a time. *)
Definition quote_char (c : ascii) : string :=
  let n := N_of_ascii c in
  if (n =? 8)%N then "\b"
  else if (n =? 9)%N then "\t"
  else if (n =? 10)%N then "\n"
  else if (n =? 12)%N then "\f"
  else if (n =? 13)%N then "\r"
  else if (n =? 34)%N then String "\" (String "034" EmptyString)
  else if (n =? 92)%N then "\\"
  else if (n <? 32)%N then
    "\u00" +:+ String (hex_digit (n / 16)) (String (hex_digit (n mod 16)) EmptyString)
  else String c EmptyString.

Fixpoint quote_chars (s : string) : string :=
  match s with
  | EmptyString => EmptyString
  | String c rest => quote_char c +:+ quote_chars rest
  end.

Definition QuoteJSONString (s : string) : string :=
  String "034" (quote_chars s +:+ String "034" EmptyString).

Fixpoint join_comma (parts : list string) : string :=
  match parts with
  | [] => ""
  | [p] => p
  | p :: rest => p +:+ "," +:+ join_comma rest
  end.

(** [JSON.stringify(v)]: [None] is the result [undefined].  Inside an array
    [undefined] is written [null]; inside an object the field is left out. *)
Fixpoint JSON_stringify (v : Json) : option string :=
  match v with
  | JUndefined => None
  | JNull => Some "null"
  | JBool b => Some (if b then "true" else "false")
  | JInt n => Some (pretty n)
  | JString s => Some (QuoteJSONString s)
  | JArray items =>
      Some ("[" +:+ join_comma (map (fun x => default "null" (JSON_stringify x)) items) +:+ "]")
  | JObject fields =>
      Some ("{" +:+ join_comma
              (omap (fun kv => (fun s => QuoteJSONString (fst kv) +:+ ":" +:+ s)
                                 <$> JSON_stringify (snd kv)) fields) +:+ "}")
  end.

(** ** message-utils.ts *)

Inductive MessageType := TELEMETRY | COMMAND | COMMAND_ACK | TRACK_OBSERVATION | HEARTBEAT.

Definition MessageType_value (t : MessageType) : string :=
  match t with
  | TELEMETRY => "TELEMETRY"
  | COMMAND => "COMMAND"
  | COMMAND_ACK => "COMMAND_ACK"
  | TRACK_OBSERVATION => "TRACK_OBSERVATION"
  | HEARTBEAT => "HEARTBEAT"
  end.

(** A message envelope as an object: a field is [None] when the object has
    no such property (reading it gives [undefined]), which happens for
    envelopes decoded from the wire.  The payload is any JSON value. *)
Record MessageEnvelope := {
  messageId : option string;
  sequenceNumber : option Z;
  sourceNode : option string;
  destinationNode : option string;
  messageType : option string;
  timestamp : option Z;
  payload : Json;
  checksum : option string
}.

(** [!s] for a string-or-undefined [s]. *)
Definition falsy (s : option string) : bool :=
  match s with
  | None => true
  | Some s => String.eqb s ""
  end.

(** [a !== b] where [a] is a string or undefined and [b] a string. *)
Definition strict_ne (a : option string) (b : string) : bool :=
  match a with
  | None => true
  | Some a => negb (String.eqb a b)
  end.

Module MessageUtils.

(** One round of the checksum loop:
    [hash = ((hash << 5) - hash) + char; hash = hash & hash]. *)
Definition hash_step (hash char : Z) : Z :=
  let hash := (js_shl hash 5 - hash) + char in
  js_and hash hash.

Definition charCodes (s : string) : list Z :=
  map (fun c => Z.of_N (N_of_ascii c)) (list_ascii_of_string s).

Definition hash_string (payloadStr : string) : Z :=
  fold_left hash_step (charCodes payloadStr) 0.

Definition calculateChecksum (payload : Json) : Result string :=
  match JSON_stringify payload with
  | None => Throw (TypeError "length")
  | Some payloadStr => Ok (toString16 (hash_string payloadStr))
  end.

(** [this.sequenceCounters.get(sourceNode) || 0] *)
Definition getSequenceCounter (sequenceCounters : gmap string Z) (sourceNode : string) : Z :=
  match sequenceCounters !! sourceNode with
  | Some n => n
  | None => 0
  end.

Definition resetSequenceCounter (sequenceCounters : gmap string Z) (sourceNode : string)
  : gmap string Z :=
  delete sourceNode sequenceCounters.

(** [createMessage]; [uuid] and [now] are the values [uuidv4()] and
    [Date.now()] return.  The counter is stored before the checksum is
    computed, so it is advanced also when the call raises. *)
Definition createMessage (sequenceCounters : gmap string Z) (uuid : string) (now : Z)
    (sourceNode : string) (messageType : MessageType) (payload : Json)
    (destinationNode : option string)
  : Result MessageEnvelope * gmap string Z :=
  let currentSeq := getSequenceCounter sequenceCounters sourceNode in
  let sequenceNumber := currentSeq + 1 in
  let sequenceCounters := <[sourceNode := sequenceNumber]> sequenceCounters in
  match calculateChecksum payload with
  | Throw e => (Throw e, sequenceCounters)
  | Ok sum =>
      (Ok {| messageId := Some uuid;
             sequenceNumber := Some sequenceNumber;
             sourceNode := Some sourceNode;
             destinationNode := Some (if falsy destinationNode then "" else default "" destinationNode);
             messageType := Some (MessageType_value messageType);
             timestamp := Some now;
             payload := payload;
             checksum := Some sum |},
       sequenceCounters)
  end.

Definition validateMessage (envelope : MessageEnvelope) : Result bool :=
  if falsy (messageId envelope) || falsy (sourceNode envelope) || falsy (messageType envelope)
  then Ok false
  else if match sequenceNumber envelope with Some n => n <=? 0 | None => false end
  then Ok false
  else
    match calculateChecksum (payload envelope) with
    | Throw e => Throw e
    | Ok expectedChecksum =>
        if strict_ne (checksum envelope) expectedChecksum then Ok false else Ok true
    end.

Definition isDuplicateMessage (messageId : option string) (seenMessageIds : list (option string))
  : bool :=
  bool_decide (messageId ∈ seenMessageIds).

(** A caller's view of the allocator: a sequence of [createMessage] and
    [resetSequenceCounter] calls, and what the [createMessage] calls gave. *)
Inductive Call :=
| Create (uuid : string) (now : Z) (sourceNode : string) (messageType : MessageType)
    (payload : Json) (destinationNode : option string)
| Reset (sourceNode : string).

Fixpoint run (calls : list Call) (sequenceCounters : gmap string Z)
  : list (Result MessageEnvelope) :=
  match calls with
  | [] => []
  | Create uuid now sourceNode messageType payload destinationNode :: rest =>
      let r := createMessage sequenceCounters uuid now sourceNode messageType payload
                 destinationNode in
      fst r :: run rest (snd r)
  | Reset sourceNode :: rest => run rest (resetSequenceCounter sequenceCounters sourceNode)
  end.

Definition is_create_for (s : string) (c : Call) : bool :=
  match c with
  | Create _ _ sourceNode _ _ _ => bool_decide (sourceNode = s)
  | Reset _ => false
  end.

(** The envelopes among [results] whose source node is [s], in order. *)
Definition envelopes_from (s : string) (results : list (Result MessageEnvelope))
  : list MessageEnvelope :=
  omap (fun r => match r with
                 | Ok envelope =>
                     if bool_decide (sourceNode envelope = Some s) then Some envelope else None
                 | Throw _ => None
                 end) results.

End MessageUtils.

(** ** chaos-proxy.ts: data *)

Record ChaosConfig := {
  dropRate : Q;
  duplicateRate : Q;
  maxDelayMs : Q;
  reorderWindow : Z;
  seed : Z;
  enabled : bool
}.

(** [Partial<ChaosConfig>]: a field is [None] when the object does not
    have the property. *)
Module Partial.
Record ChaosConfig := {
  dropRate : option Q;
  duplicateRate : option Q;
  maxDelayMs : option Q;
  reorderWindow : option Z;
  seed : option Z;
  enabled : option bool
}.

(** [{}] *)
Definition empty : ChaosConfig :=
  {| dropRate := None; duplicateRate := None; maxDelayMs := None;
     reorderWindow := None; seed := None; enabled := None |}.
End Partial.

(** [{ ...base, ...over }] *)
Definition spread (base : ChaosConfig) (over : Partial.ChaosConfig) : ChaosConfig :=
  {| dropRate := default (dropRate base) (Partial.dropRate over);
     duplicateRate := default (duplicateRate base) (Partial.duplicateRate over);
     maxDelayMs := default (maxDelayMs base) (Partial.maxDelayMs over);
     reorderWindow := default (reorderWindow base) (Partial.reorderWindow over);
     seed := default (seed base) (Partial.seed over);
     enabled := default (enabled base) (Partial.enabled over) |}.

Record MessageStats := {
  sent : Z;
  received : Z;
  dropped : Z;
  duplicated : Z;
  delayed : Z;
  reordered : Z
}.

(** The object [processSendMessage] receives as [tempEnvelope]. *)
Record TempEnvelope := {
  temp_messageType : MessageType;
  temp_payload : Json;
  temp_messageId : option string
}.

(** The fields of a [ChaosProxy].  [random] is the variable [state] that the
    closure returned by [createSeededRandom] has captured. *)
Record ChaosProxy := {
  config : ChaosConfig;
  stats : MessageStats;
  random : Z;
  messageBuffer : list MessageEnvelope
}.

(** An array element: an envelope or [undefined]. *)
Definition Slot := option MessageEnvelope.

(** An array of envelopes: its elements, and the properties stored under
    negative indices.  A negative index names an ordinary property of the
    array object, not an element: writing it leaves the elements and the
    length as they are, and reading it gives what was last written there, or
    [undefined].  (The shuffle never writes at or beyond the length, see
    [shuffle_index_le].) *)
Record JsArray := {
  elements : list Slot;
  properties : gmap Z Slot
}.

(** [[...buffer]] *)
Definition array_of (buffer : list MessageEnvelope) : JsArray :=
  {| elements := map Some buffer; properties := ∅ |}.

(** [a[i]] and [a[i] = v] for an integer-valued index. *)
Definition array_get (a : JsArray) (i : Z) : Slot :=
  if i <? 0 then mjoin (properties a !! i) else mjoin (elements a !! Z.to_nat i).

Definition array_set (a : JsArray) (i : Z) (v : Slot) : JsArray :=
  if i <? 0 then {| elements := elements a; properties := <[i := v]> (properties a) |}
  else {| elements := <[Z.to_nat i := v]> (elements a); properties := properties a |}.

(** ** chaos-proxy.ts: the engine

    The engine runs against collaborators it does not own: the send
    function and the message handlers (state of type [T]), the timer queue,
    the console and [Math.random].  Calls are modelled as run to completion,
    one after the other; a timer callback is recorded when it is set and
    runs only when [fire] is applied to it. *)

Section Engine.

Context {T : Type}.

(** [sendFn : () => Promise<MessageEnvelope>] and
    [MessageHandler = (envelope) => Promise<void> | void]. *)
Definition SendFn := T -> Result MessageEnvelope * T.
Definition MessageHandler := Slot -> T -> Result unit * T.

(** The two arrow functions handed to [setTimeout]. *)
Inductive Callback :=
| DuplicateSend (sendFn : SendFn) (messageId : option string)
| Deliver (handler : MessageHandler) (envelope : Slot).

Inductive LogLine :=
| Dropped_message (messageType : MessageType)
| Duplicating_message (messageId : option string)
| Duplicate_sent (messageId : option string)
| Failed_to_send_duplicate (error : JsError)
| Delaying_message (messageId : option string) (delay : Z)
| Reordering_messages (count : Z).

(** What the engine does to the outside, in the order it does it. *)
Inductive Event :=
| ConsoleLog (line : LogLine)
| ConsoleError (line : LogLine)
| SendFnCalled
| HandlerCalled (envelope : Slot)
| SetTimeout (callback : Callback) (ms : Q).

Record World := {
  this : ChaosProxy;
  outside : T;
  Math_random : nat -> Q;   (* the values Math.random() returns, in order *)
  Math_random_calls : nat;
  trace : list Event
}.

Definition M (A : Type) : Type := World -> Result A * World.

Definition ret {A} (a : A) : M A := fun w => (Ok a, w).

Definition bind {A B} (m : M A) (k : A -> M B) : M B :=
  fun w =>
    match m w with
    | (Ok a, w') => k a w'
    | (Throw e, w') => (Throw e, w')
    end.

Notation "x <- m ;; k" := (bind m (fun x => k))
  (at level 100, m at next level, right associativity).
Notation "m ;;; k" := (bind m (fun _ => k))
  (at level 100, right associativity).

(** [try { body } catch (error) { handler(error) }] *)
Definition try_catch {A} (body : M A) (handler : JsError -> M A) : M A :=
  fun w =>
    match body w with
    | (Ok a, w') => (Ok a, w')
    | (Throw e, w') => handler e w'
    end.

Definition with_this (f : ChaosProxy -> ChaosProxy) (w : World) : World :=
  {| this := f (this w); outside := outside w; Math_random := Math_random w;
     Math_random_calls := Math_random_calls w; trace := trace w |}.

Definition with_outside (t : T) (w : World) : World :=
  {| this := this w; outside := t; Math_random := Math_random w;
     Math_random_calls := Math_random_calls w; trace := trace w |}.

Definition with_event (ev : Event) (w : World) : World :=
  {| this := this w; outside := outside w; Math_random := Math_random w;
     Math_random_calls := Math_random_calls w; trace := trace w ++ [ev] |}.

Definition get_this : M ChaosProxy := fun w => (Ok (this w), w).

Definition modify_this (f : ChaosProxy -> ChaosProxy) : M unit :=
  fun w => (Ok tt, with_this f w).

Definition emit (ev : Event) : M unit :=
  fun w => (Ok tt, with_event ev w).

Definition on_outside {A} (f : T -> Result A * T) : M A :=
  fun w => (fst (f (outside w)), with_outside (snd (f (outside w))) w).

(** [Math.random()] *)
Definition next_Math_random (w : World) : Q := Math_random w (Math_random_calls w).

Definition with_Math_random_called (w : World) : World :=
  {| this := this w; outside := outside w; Math_random := Math_random w;
     Math_random_calls := S (Math_random_calls w); trace := trace w |}.

Definition call_Math_random : M Q :=
  fun w => (Ok (next_Math_random w), with_Math_random_called w).

Definition set_stats (f : MessageStats -> MessageStats) (p : ChaosProxy) : ChaosProxy :=
  {| config := config p; stats := f (stats p); random := random p;
     messageBuffer := messageBuffer p |}.

Definition set_random (state : Z) (p : ChaosProxy) : ChaosProxy :=
  {| config := config p; stats := stats p; random := state;
     messageBuffer := messageBuffer p |}.

Definition set_messageBuffer (b : list MessageEnvelope) (p : ChaosProxy) : ChaosProxy :=
  {| config := config p; stats := stats p; random := random p; messageBuffer := b |}.

Definition set_config (c : ChaosConfig) (p : ChaosProxy) : ChaosProxy :=
  {| config := c; stats := stats p; random := random p;
     messageBuffer := messageBuffer p |}.

Definition incr_sent (s : MessageStats) : MessageStats :=
  {| sent := sent s + 1; received := received s; dropped := dropped s;
     duplicated := duplicated s; delayed := delayed s; reordered := reordered s |}.
Definition incr_received (s : MessageStats) : MessageStats :=
  {| sent := sent s; received := received s + 1; dropped := dropped s;
     duplicated := duplicated s; delayed := delayed s; reordered := reordered s |}.
Definition incr_dropped (s : MessageStats) : MessageStats :=
  {| sent := sent s; received := received s; dropped := dropped s + 1;
     duplicated := duplicated s; delayed := delayed s; reordered := reordered s |}.
Definition incr_duplicated (s : MessageStats) : MessageStats :=
  {| sent := sent s; received := received s; dropped := dropped s;
     duplicated := duplicated s + 1; delayed := delayed s; reordered := reordered s |}.
Definition incr_delayed (s : MessageStats) : MessageStats :=
  {| sent := sent s; received := received s; dropped := dropped s;
     duplicated := duplicated s; delayed := delayed s + 1; reordered := reordered s |}.
Definition add_reordered (n : Z) (s : MessageStats) : MessageStats :=
  {| sent := sent s; received := received s; dropped := dropped s;
     duplicated := duplicated s; delayed := delayed s; reordered := reordered s + n |}.

(** [createSeededRandom(seed)] returns a closure over [let state = seed];
    the closure is represented by the value of [state].  One call of the
    closure sets [state] to [next_state state] and returns [draw_of] of the
    new state.  The product and the sum in [state * 9301 + 49297] are
    rounded to binary64, which changes them above 2^53; the remainder is
    exact.  [draw_of] is the quotient as a fraction: the number returned is
    [round64] of it, and it is rounded where it enters a product
    ([js_mul]). *)
Definition createSeededRandom (seed : Z) : Z := seed.
Definition next_state (state : Z) : Z :=
  js_rem (number_of_Z (number_of_Z (number_of_Z state * 9301) + 49297)) 233280.
Definition draw_of (state : Z) : Q := state # 233280.

(** [this.random()] *)
Definition this_random : M Q :=
  p <- get_this ;;
  let state := next_state (random p) in
  modify_this (set_random state) ;;;
  ret (draw_of state).

(** The world after one call of [this.random()]. *)
Definition after_draw (w : World) : World :=
  with_this (set_random (next_state (random (this w)))) w.

(** [await sendFn()] and [await handler(envelope)] *)
Definition call_sendFn (sendFn : SendFn) : M MessageEnvelope :=
  emit SendFnCalled ;;; on_outside sendFn.

Definition call_handler (handler : MessageHandler) (envelope : Slot) : M unit :=
  emit (HandlerCalled envelope) ;;; on_outside (handler envelope).

Definition Qmax (a b : Q) : Q := if Qltb a b then b else a.

Definition calculateDelay : M Z :=
  p <- get_this ;;
  if Qle_bool (maxDelayMs (config p)) 0 then ret 0
  else
    d <- this_random ;;
    if Qltb d (3 # 10) then
      d2 <- this_random ;;
      let delay := Qfloor (js_mul d2 (maxDelayMs (config p))) in
      ret (Z.max 0 delay)
    else ret 0.

Definition processSendMessage (tempEnvelope : TempEnvelope) (sendFn : SendFn)
  : M (option MessageEnvelope) :=
  modify_this (set_stats incr_sent) ;;;
  p <- get_this ;;
  if negb (enabled (config p)) then
    result <- call_sendFn sendFn ;; ret (Some result)
  else
    d1 <- this_random ;;
    if Qltb d1 (dropRate (config p)) then
      modify_this (set_stats incr_dropped) ;;;
      emit (ConsoleLog (Dropped_message (temp_messageType tempEnvelope))) ;;;
      ret None
    else
      result <- call_sendFn sendFn ;;
      d2 <- this_random ;;
      (if Qltb d2 (duplicateRate (config p)) then
         modify_this (set_stats incr_duplicated) ;;;
         emit (ConsoleLog (Duplicating_message (messageId result))) ;;;
         u <- call_Math_random ;;
         let duplicateDelay := Qmax 1 (50 + u * 200) in
         emit (SetTimeout (DuplicateSend sendFn (messageId result)) duplicateDelay)
       else ret tt) ;;;
      ret (Some result).

(** The world after [sendFn] has been awaited. *)
Definition after_send (sendFn : SendFn) (w : World) : World :=
  with_outside (snd (sendFn (outside w))) (with_event SendFnCalled w).

(** The world after the duplicate of [result] has been scheduled. *)
Definition after_duplicate (sendFn : SendFn) (result : MessageEnvelope) (w : World)
  : World :=
  with_event
    (SetTimeout (DuplicateSend sendFn (messageId result))
       (Qmax 1 (50 + next_Math_random w * 200)))
    (with_Math_random_called
       (with_event (ConsoleLog (Duplicating_message (messageId result)))
          (with_this (set_stats incr_duplicated) w))).

(** The Fisher-Yates loop [for (i = ...; i > 0; i--)], from [i] down to 1. *)
Definition shuffle_index (d : Q) (i : nat) : Z :=
  Qfloor (js_mul d (inject_Z (Z.of_nat i + 1))).

Definition swap (shuffled : JsArray) (i : nat) (j : Z) : JsArray :=
  let temp := array_get shuffled (Z.of_nat i) in
  let shuffled := array_set shuffled (Z.of_nat i) (array_get shuffled j) in
  array_set shuffled j temp.

Fixpoint shuffle_loop (i : nat) (shuffled : JsArray) : M JsArray :=
  match i with
  | O => ret shuffled
  | S i' =>
      d <- this_random ;;
      shuffle_loop i' (swap shuffled i (shuffle_index d i))
  end.

(** [shuffled.some((msg, idx) => msg.messageId !== buffer[idx]?.messageId)],
    from index [idx] on.  Reading [messageId] of [undefined] raises. *)
Fixpoint some_changed (shuffled : list Slot) (buffer : list MessageEnvelope) (idx : nat)
  : Result bool :=
  match shuffled with
  | [] => Ok false
  | None :: _ => Throw (TypeError "messageId")
  | Some msg :: rest =>
      if bool_decide (messageId msg ≠ (buffer !! idx) ≫= messageId) then Ok true
      else some_changed rest buffer (S idx)
  end.

Definition lift_result {A} (r : Result A) : M A := fun w => (r, w).

(** [for (const envelope of shuffled) { ... }] *)
Fixpoint deliver_each (handler : MessageHandler) (shuffled : list Slot) : M unit :=
  match shuffled with
  | [] => ret tt
  | envelope :: rest =>
      delay <- calculateDelay ;;
      (if 0 <? delay then
         modify_this (set_stats incr_delayed) ;;;
         emit (SetTimeout (Deliver handler envelope) (inject_Z (Z.max 1 delay)))
       else call_handler handler envelope) ;;;
      deliver_each handler rest
  end.

Definition flushReorderBuffer (handler : MessageHandler) : M unit :=
  p <- get_this ;;
  let buffer := messageBuffer p in
  if (length buffer =? 0)%nat then ret tt
  else
    array <- shuffle_loop (length buffer - 1) (array_of buffer) ;;
    let shuffled := elements array in
    reordered <- lift_result (some_changed shuffled buffer 0) ;;
    (if reordered : bool then
       modify_this (set_stats (add_reordered (Z.of_nat (length shuffled)))) ;;;
       emit (ConsoleLog (Reordering_messages (Z.of_nat (length shuffled))))
     else ret tt) ;;;
    deliver_each handler shuffled ;;;
    modify_this (set_messageBuffer []).

Definition processReceiveMessage (envelope : MessageEnvelope) (handler : MessageHandler)
  : M unit :=
  modify_this (set_stats incr_received) ;;;
  p <- get_this ;;
  if negb (enabled (config p)) then call_handler handler (Some envelope)
  else if 0 <? reorderWindow (config p) then
    modify_this (fun p => set_messageBuffer (messageBuffer p ++ [envelope]) p) ;;;
    p <- get_this ;;
    if reorderWindow (config p) <=? Z.of_nat (length (messageBuffer p))
    then flushReorderBuffer handler
    else ret tt
  else
    delay <- calculateDelay ;;
    if 0 <? delay then
      modify_this (set_stats incr_delayed) ;;;
      emit (ConsoleLog (Delaying_message (messageId envelope) delay)) ;;;
      emit (SetTimeout (Deliver handler (Some envelope)) (inject_Z (Z.max 1 delay)))
    else call_handler handler (Some envelope).

(** What a timer callback does when the timer fires. *)
Definition fire (callback : Callback) : M unit :=
  match callback with
  | DuplicateSend sendFn messageId =>
      try_catch
        (call_sendFn sendFn ;;; emit (ConsoleLog (Duplicate_sent messageId)))
        (fun error => emit (ConsoleError (Failed_to_send_duplicate error)))
  | Deliver handler envelope => call_handler handler envelope
  end.

(** A run of the proxy: the calls made on it, each awaited before the
    next, with the timers that fire in between, and what each gave back. *)
Inductive Call :=
| Send (tempEnvelope : TempEnvelope) (sendFn : SendFn)
| Receive (envelope : MessageEnvelope) (handler : MessageHandler)
| Fire (callback : Callback).

Inductive Outcome :=
| Sent (result : option MessageEnvelope)
| Received
| Fired
| Rejected (error : JsError).

Definition run_call (c : Call) (w : World) : Outcome * World :=
  match c with
  | Send tempEnvelope sendFn =>
      match processSendMessage tempEnvelope sendFn w with
      | (Ok result, w') => (Sent result, w')
      | (Throw e, w') => (Rejected e, w')
      end
  | Receive envelope handler =>
      match processReceiveMessage envelope handler w with
      | (Ok _, w') => (Received, w')
      | (Throw e, w') => (Rejected e, w')
      end
  | Fire callback =>
      match fire callback w with
      | (Ok _, w') => (Fired, w')
      | (Throw e, w') => (Rejected e, w')
      end
  end.

Fixpoint run (calls : list Call) (w : World) : list Outcome * World :=
  match calls with
  | [] => ([], w)
  | c :: rest =>
      let '(o, w') := run_call c w in
      let '(os, w'') := run rest w' in
      (o :: os, w'')
  end.

(** A sequence of [processSendMessage] calls. *)
Definition send_calls (l : list (TempEnvelope * SendFn)) : list Call :=
  map (fun c => Send (fst c) (snd c)) l.

(** Reading a trace. *)
Definition is_send (ev : Event) : bool :=
  match ev with SendFnCalled => true | _ => false end.

(** A send that was answered with null, and the error a duplicate timer
    has put on [console.error]. *)
Definition is_dropped (o : Outcome) : bool :=
  match o with Sent None => true | _ => false end.

Definition swallowed (ev : Event) : option JsError :=
  match ev with
  | ConsoleError (Failed_to_send_duplicate error) => Some error
  | _ => None
  end.

(** The envelope an event hands to a handler, at once or by a timer. *)
Definition dispatched (ev : Event) : option Slot :=
  match ev with
  | HandlerCalled envelope => Some envelope
  | SetTimeout (Deliver _ envelope) _ => Some envelope
  | _ => None
  end.

(** An event by which the flush passes an envelope to [handler]: a call,
    or a timer of at least 1 ms whose callback calls it. *)
Definition delivery_by (handler : MessageHandler) (ev : Event) : Prop :=
  match ev with
  | HandlerCalled _ => True
  | SetTimeout (Deliver h _) ms => h = handler /\ (1 <= ms)%Q
  | _ => False
  end.

(** The envelope of a handler call that is made at once, and the state of
    the collaborators after [handler] has been called on each of [slots]. *)
Definition called (ev : Event) : option Slot :=
  match ev with
  | HandlerCalled envelope => Some envelope
  | _ => None
  end.

Definition handler_calls (handler : MessageHandler) (slots : list Slot) (t : T) : T :=
  fold_left (fun t slot => snd (handler slot t)) slots t.

(** A sequence of [processReceiveMessage] calls. *)
Definition receive_calls (l : list (MessageEnvelope * MessageHandler)) : list Call :=
  map (fun c => Receive (fst c) (snd c)) l.

(** The world after [processReceiveMessage] has counted [envelope] and
    pushed it on the reorder buffer. *)
Definition after_push (envelope : MessageEnvelope) (w : World) : World :=
  with_this (fun p => set_messageBuffer (messageBuffer p ++ [envelope]) p)
    (with_this (set_stats incr_received) w).

(** A trace with the delays of the duplicate timers blanked out, and a
    world with blanked trace and without its [Math.random]. *)
Definition blank_delay (ev : Event) : Event :=
  match ev with
  | SetTimeout (DuplicateSend sendFn messageId) _ =>
      SetTimeout (DuplicateSend sendFn messageId) 0
  | _ => ev
  end.

Definition seeded_part (w : World) : World :=
  {| this := this w; outside := outside w; Math_random := fun _ => 0%Q;
     Math_random_calls := O; trace := map blank_delay (trace w) |}.

(** A computation whose result and effects, the delays of the duplicate
    timers apart, do not depend on what [Math.random] returns. *)
Definition seeded {A} (m : M A) : Prop :=
  forall w1 w2,
    seeded_part w1 = seeded_part w2 ->
    fst (m w1) = fst (m w2) /\ seeded_part (snd (m w1)) = seeded_part (snd (m w2)).

(** The delays of the timers a trace has set for duplicate sends. *)
Definition duplicate_delays (tr : list Event) : list Q :=
  omap (fun ev => match ev with
                  | SetTimeout (DuplicateSend _ _) ms => Some (Qred ms)
                  | _ => None
                  end) tr.

End Engine.

Arguments World T : clear implicits.
Arguments M T A : clear implicits.
Arguments Event T : clear implicits.
Arguments Callback T : clear implicits.
Arguments SendFn T : clear implicits.
Arguments MessageHandler T : clear implicits.
Arguments Call T : clear implicits.

(** The constructor, [resetStats] and [updateConfig] touch the object only. *)
Definition zero_stats : MessageStats :=
  {| sent := 0; received := 0; dropped := 0; duplicated := 0; delayed := 0; reordered := 0 |}.

Definition default_config : ChaosConfig :=
  {| dropRate := 1 # 10; duplicateRate := 5 # 100; maxDelayMs := 1000;
     reorderWindow := 5; seed := 12345; enabled := true |}.

Definition new_ChaosProxy (config : Partial.ChaosConfig) : ChaosProxy :=
  let config := spread default_config config in
  {| config := config; stats := zero_stats; random := createSeededRandom (seed config);
     messageBuffer := [] |}.

Definition resetStats (p : ChaosProxy) : ChaosProxy := set_stats (fun _ => zero_stats) p.

Definition updateConfig (newConfig : Partial.ChaosConfig) (p : ChaosProxy) : ChaosProxy :=
  let p := set_config (spread (config p) newConfig) p in
  match Partial.seed newConfig with
  | Some seed => set_random (createSeededRandom seed) p
  | None => p
  end.

(** [updateConfig] on objects as JavaScript has them.  [Partial<ChaosConfig>]
    admits an object that has a property whose value is [undefined], as in
    [updateConfig({ seed: undefined })]; the spread copies such a property
    like any other, and the configuration field is [undefined] afterwards.
    Here a property of the partial object is absent, or present with a value
    that may be [undefined], and a configuration field holds a value or
    [undefined] ([None]). *)
Module Raw.

Inductive Property (A : Type) :=
| Absent
| Present (value : option A).
Arguments Absent {A}.
Arguments Present {A} value.

(** [object.property]: reading an absent property gives [undefined]. *)
Definition read {A} (property : Property A) : option A :=
  match property with
  | Absent => None
  | Present value => value
  end.

Record PartialChaosConfig := {
  partial_dropRate : Property Q;
  partial_duplicateRate : Property Q;
  partial_maxDelayMs : Property Q;
  partial_reorderWindow : Property Z;
  partial_seed : Property Z;
  partial_enabled : Property bool
}.

Record ChaosConfig := {
  dropRate : option Q;
  duplicateRate : option Q;
  maxDelayMs : option Q;
  reorderWindow : option Z;
  seed : option Z;
  enabled : option bool
}.

(** One field of [{ ...base, ...over }]. *)
Definition spread_field {A} (base : option A) (over : Property A) : option A :=
  match over with
  | Absent => base
  | Present value => value
  end.

Definition spread (base : ChaosConfig) (over : PartialChaosConfig) : ChaosConfig :=
  {| dropRate := spread_field (dropRate base) (partial_dropRate over);
     duplicateRate := spread_field (duplicateRate base) (partial_duplicateRate over);
     maxDelayMs := spread_field (maxDelayMs base) (partial_maxDelayMs over);
     reorderWindow := spread_field (reorderWindow base) (partial_reorderWindow over);
     seed := spread_field (seed base) (partial_seed over);
     enabled := spread_field (enabled base) (partial_enabled over) |}.

Record ChaosProxy := {
  config : ChaosConfig;
  stats : MessageStats;
  random : Z;
  messageBuffer : list MessageEnvelope
}.

Definition updateConfig (newConfig : PartialChaosConfig) (p : ChaosProxy) : ChaosProxy :=
  let config := spread (config p) newConfig in
  match read (partial_seed newConfig) with
  | Some seed =>
      {| config := config; stats := stats p; random := createSeededRandom seed;
         messageBuffer := messageBuffer p |}
  | None =>
      {| config := config; stats := stats p; random := random p;
         messageBuffer := messageBuffer p |}
  end.

End Raw.

(** Objects without [undefined] values, as the rest of the development
    has them, among the objects of [Raw]. *)
Definition raw_of_option {A} (o : option A) : Raw.Property A :=
  match o with
  | Some value => Raw.Present (Some value)
  | None => Raw.Absent
  end.

Definition raw_of_partial (c : Partial.ChaosConfig) : Raw.PartialChaosConfig :=
  {| Raw.partial_dropRate := raw_of_option (Partial.dropRate c);
     Raw.partial_duplicateRate := raw_of_option (Partial.duplicateRate c);
     Raw.partial_maxDelayMs := raw_of_option (Partial.maxDelayMs c);
     Raw.partial_reorderWindow := raw_of_option (Partial.reorderWindow c);
     Raw.partial_seed := raw_of_option (Partial.seed c);
     Raw.partial_enabled := raw_of_option (Partial.enabled c) |}.

Definition raw_of_config (c : ChaosConfig) : Raw.ChaosConfig :=
  {| Raw.dropRate := Some (dropRate c);
     Raw.duplicateRate := Some (duplicateRate c);
     Raw.maxDelayMs := Some (maxDelayMs c);
     Raw.reorderWindow := Some (reorderWindow c);
     Raw.seed := Some (seed c);
     Raw.enabled := Some (enabled c) |}.

Definition raw_of_proxy (p : ChaosProxy) : Raw.ChaosProxy :=
  {| Raw.config := raw_of_config (config p); Raw.stats := stats p;
     Raw.random := random p; Raw.messageBuffer := messageBuffer p |}.

(** ** kafka-consumer.ts: [KafkaConsumer.handleMessage] *)

(** A [Set<string>] in insertion order. *)
Definition Set_add (x : option string) (s : list (option string)) : list (option string) :=
  if bool_decide (x ∈ s) then s else s ++ [x].

Definition Set_delete (x : option string) (s : list (option string)) : list (option string) :=
  filter (fun y => y ≠ x) s.

(** [payload.message.value], as far as [handleMessage] looks at it: absent
    or empty, text on which [JSON.parse] raises (or gives [null], on which
    the first property read raises), or a decoded object. *)
Inductive RecordValue :=
| NoValue
| Unparsable (error : JsError)
| Parsed (envelope : MessageEnvelope).

Module KafkaConsumer.
Section Consumer.

Context {T : Type}.

Record State := {
  nodeId : string;
  messageHandlers : gmap string (MessageHandler T);
  seenMessageIds : list (option string)
}.

(** [private maxSeenIds = 10000], never assigned again. *)
Definition maxSeenIds : Z := 10000.

Inductive Console :=
| Invalid_message_received
| Duplicate_message (messageId : option string)
| Received (envelope : MessageEnvelope)
| No_handler_for (messageType : option string)
| Error_processing_message (error : JsError).

Definition set_seen (seen : list (option string)) (c : State) : State :=
  {| nodeId := nodeId c; messageHandlers := messageHandlers c; seenMessageIds := seen |}.

(** [add], then the cleanup under [if (size > maxSeenIds)]. *)
Definition record_seen (id : option string) (seen : list (option string))
  : list (option string) :=
  let seen := Set_add id seen in
  if maxSeenIds <? Z.of_nat (length seen) then
    let toDelete := take 1000 seen in
    fold_left (fun seen id => Set_delete id seen) toDelete seen
  else seen.

(** The whole body runs under [try { ... } catch (error) { console.error }]. *)
Definition handleMessage (value : RecordValue) (c : State) (t : T)
  : State * T * list Console :=
  match value with
  | NoValue => (c, t, [])
  | Unparsable error => (c, t, [Error_processing_message error])
  | Parsed envelope =>
      match MessageUtils.validateMessage envelope with
      | Throw error => (c, t, [Error_processing_message error])
      | Ok false => (c, t, [Invalid_message_received])
      | Ok true =>
          if MessageUtils.isDuplicateMessage (messageId envelope) (seenMessageIds c)
          then (c, t, [Duplicate_message (messageId envelope)])
          else
            let c := set_seen (record_seen (messageId envelope) (seenMessageIds c)) c in
            match messageType envelope ≫= (messageHandlers c !!.) with
            | Some handler =>
                match handler (Some envelope) t with
                | (Ok _, t) => (c, t, [Received envelope])
                | (Throw error, t) =>
                    (c, t, [Received envelope; Error_processing_message error])
                end
            | None => (c, t, [Received envelope; No_handler_for (messageType envelope)])
            end
      end
  end.

(** The invariant of the seen-set: no id twice, at most [maxSeenIds] ids. *)
Definition seen_ok (seen : list (option string)) : Prop :=
  NoDup seen /\ Z.of_nat (length seen) <= maxSeenIds.

(** A consumer that handles the records of [values], oldest first. *)
Fixpoint consume (values : list RecordValue) (c : State) (t : T) : State * T :=
  match values with
  | [] => (c, t)
  | value :: rest =>
      let '(c, t, _) := handleMessage value c t in
      consume rest c t
  end.

End Consumer.
Arguments State T : clear implicits.

(** The state the constructor leaves. *)
Definition new {T} (nodeId : string) : State T :=
  {| nodeId := nodeId; messageHandlers := ∅; seenMessageIds := [] |}.

(** [onMessage] *)
Definition onMessage {T} (messageType : MessageType) (handler : MessageHandler T)
    (c : State T) : State T :=
  {| nodeId := nodeId c;
     messageHandlers := <[MessageType_value messageType := handler]> (messageHandlers c);
     seenMessageIds := seenMessageIds c |}.

End KafkaConsumer.

(** ** Concrete collaborators and inputs for the examples

    The collaborators' state is a counter of the calls they have served. *)
Module Sample.

Definition envelope (id : string) (seq : Z) : MessageEnvelope :=
  {| messageId := Some id; sequenceNumber := Some seq; sourceNode := Some "sat-1";
     destinationNode := Some ""; messageType := Some "TELEMETRY"; timestamp := Some 0;
     payload := JNull; checksum := Some "33c587" |}.

Definition tempEnvelope : TempEnvelope :=
  {| temp_messageType := TELEMETRY; temp_payload := JNull; temp_messageId := None |}.

Definition sendFn : SendFn nat := fun n => (Ok (envelope "m" (Z.of_nat n + 1)), S n).

Definition failing_sendFn : SendFn nat :=
  fun n => (Throw (ExternalError "not connected"), S n).

Definition handler : MessageHandler nat := fun _ n => (Ok tt, S n).

Definition failing_handler : MessageHandler nat :=
  fun _ n => (Throw (ExternalError "handler failed"), S n).

(** A freshly constructed proxy in a world where [Math.random()] always
    returns [u]. *)
Definition world (config : Partial.ChaosConfig) (u : Q) : World nat :=
  {| this := new_ChaosProxy config; outside := O; Math_random := fun _ => u;
     Math_random_calls := O; trace := [] |}.

Definition config (dropRate duplicateRate maxDelayMs : Q) (reorderWindow seed : Z)
  : Partial.ChaosConfig :=
  {| Partial.dropRate := Some dropRate; Partial.duplicateRate := Some duplicateRate;
     Partial.maxDelayMs := Some maxDelayMs; Partial.reorderWindow := Some reorderWindow;
     Partial.seed := Some seed; Partial.enabled := Some true |}.

End Sample.

(** ** message-utils.ts: the remaining functions *)

(** [isStaleMessage]; [windowSize] is [None] when the argument is left out
    (default 100).  A comparison with [undefined] is false. *)
Definition isStaleMessage (newMessage : MessageEnvelope) (currentMaxSeq : Z)
    (windowSize : option Z) : bool :=
  match sequenceNumber newMessage with
  | Some n => n <? currentMaxSeq - default 100 windowSize
  | None => false
  end.

(** The map of sequence counters after a sequence of calls. *)
Fixpoint counters_after (calls : list MessageUtils.Call) (sequenceCounters : gmap string Z)
  : gmap string Z :=
  match calls with
  | [] => sequenceCounters
  | MessageUtils.Create uuid now sourceNode messageType payload destinationNode :: rest =>
      counters_after rest
        (snd (MessageUtils.createMessage sequenceCounters uuid now sourceNode messageType
                payload destinationNode))
  | MessageUtils.Reset sourceNode :: rest =>
      counters_after rest (MessageUtils.resetSequenceCounter sequenceCounters sourceNode)
  end.

(** The sum the checksum loop computes, without the wrap-around:
    [hash * 31 + char] at every character. *)
Definition polynomial (codes : list Z) : Z :=
  fold_left (fun hash char => 31 * hash + char) codes 0.

(** ** Reading a run of the proxy *)

Definition add_stats (a b : MessageStats) : MessageStats :=
  {| sent := sent a + sent b; received := received a + received b;
     dropped := dropped a + dropped b; duplicated := duplicated a + duplicated b;
     delayed := delayed a + delayed b; reordered := reordered a + reordered b |}.

Section Reading.

Context {T : Type}.

(** What an event of the trace should have added to the counters: a drop
    is logged, a duplicate and a delayed delivery set a timer, a reordering
    is logged with the number of messages. *)
Definition effect (ev : Event T) : MessageStats :=
  match ev with
  | ConsoleLog (Dropped_message _) => incr_dropped zero_stats
  | ConsoleLog (Reordering_messages count) => add_reordered count zero_stats
  | SetTimeout (DuplicateSend _ _) _ => incr_duplicated zero_stats
  | SetTimeout (Deliver _ _) _ => incr_delayed zero_stats
  | _ => zero_stats
  end.

Definition tally (evs : list (Event T)) : MessageStats :=
  foldr (fun ev => add_stats (effect ev)) zero_stats evs.

(** What the calls themselves add: one [sent] for a [processSendMessage],
    one [received] for a [processReceiveMessage]. *)
Definition entry (c : Call T) : MessageStats :=
  match c with
  | Send _ _ => incr_sent zero_stats
  | Receive _ _ => incr_received zero_stats
  | Fire _ => zero_stats
  end.

Definition entries (calls : list (Call T)) : MessageStats :=
  foldr (fun c => add_stats (entry c)) zero_stats calls.

(** [w'] comes after [w], with the configuration unchanged and the
    counters moved by what the new events account for. *)
Definition accounted (w w' : World T) : Prop :=
  exists evs,
    trace w' = trace w ++ evs
    /\ config (this w') = config (this w)
    /\ stats (this w') = add_stats (stats (this w)) (tally evs).

Definition accounts {A} (m : M T A) : Prop := forall w, accounted w (snd (m w)).

(** The same calls made on the collaborators themselves, without a proxy
    in between: the send function or the handler is called once, at once. *)
Definition is_api_call (c : Call T) : bool :=
  match c with Fire _ => false | _ => true end.

Definition unwrapped (c : Call T) (t : T) : Outcome * T * list (Event T) :=
  match c with
  | Send _ sendFn =>
      (match fst (sendFn t) with
       | Ok result => Sent (Some result)
       | Throw e => Rejected e
       end, snd (sendFn t), [SendFnCalled])
  | Receive envelope handler =>
      (match fst (handler (Some envelope) t) with
       | Ok _ => Received
       | Throw e => Rejected e
       end, snd (handler (Some envelope) t), [HandlerCalled (Some envelope)])
  | Fire _ => (Fired, t, [])
  end.

Fixpoint run_unwrapped (calls : list (Call T)) (t : T) : list Outcome * T * list (Event T) :=
  match calls with
  | [] => ([], t, [])
  | c :: rest =>
      let '(o, t', evs) := unwrapped c t in
      let '(os, t'', evs') := run_unwrapped rest t' in
      (o :: os, t'', evs ++ evs')
  end.

(** A proxy that is switched off, or switched on with every kind of chaos
    set to nothing. *)
Definition chaos_free (p : ChaosProxy) : Prop :=
  enabled (config p) = false
  \/ (enabled (config p) = true
      /\ (dropRate (config p) <= 0)%Q /\ (duplicateRate (config p) <= 0)%Q
      /\ (maxDelayMs (config p) <= 0)%Q /\ reorderWindow (config p) <= 0
      /\ 0 <= random p).

End Reading.

(** The first [n] values the closure of [createSeededRandom] returns. *)
Fixpoint draws (n : nat) (state : Z) : list Q :=
  match n with
  | O => []
  | S n' => draw_of (next_state state) :: draws n' (next_state state)
  end.

(** A property of the proxy object that counting, buffering and drawing
    keep. *)
Definition kept_by_chaos (I : ChaosProxy -> Prop) : Prop :=
  (forall f p, I p -> I (set_stats f p))
  /\ (forall b p, I p -> I (set_messageBuffer b p))
  /\ (forall p, I p -> I (set_random (next_state (random p)) p)).

Definition keeps {T A} (I : ChaosProxy -> Prop) (m : M T A) : Prop :=
  forall w, I (this w) -> I (this (snd (m w))).

(** ** kafka-producer.ts *)

(** The object [JSON.stringify] sees when it is given an envelope: the
    properties in the order [createMessage] writes them. *)
Definition Json_of_envelope (envelope : MessageEnvelope) : Json :=
  JObject [("messageId", from_option JString JUndefined (messageId envelope));
           ("sequenceNumber", from_option JInt JUndefined (sequenceNumber envelope));
           ("sourceNode", from_option JString JUndefined (sourceNode envelope));
           ("destinationNode", from_option JString JUndefined (destinationNode envelope));
           ("messageType", from_option JString JUndefined (messageType envelope));
           ("timestamp", from_option JInt JUndefined (timestamp envelope));
           ("payload", payload envelope);
           ("checksum", from_option JString JUndefined (checksum envelope))].

Module KafkaProducer.

(** One message of a [ProducerRecord], with its three headers. *)
Record Message := {
  key : option string;
  value : option string;
  header_messageType : option string;
  header_sourceNode : option string;
  header_sequenceNumber : string
}.

Record ProducerRecord := {
  topic : string;
  messages : list Message
}.

Inductive Console :=
| Sent_message (messageType : MessageType) (sequenceNumber : option Z) (topic : string)
| Failed_to_send_message (error : JsError)
| Sent_batch (count : nat) (topic : string)
| Failed_to_send_batch (error : JsError).

(** A producer together with what it works on: the counters of
    [MessageUtils], the values [uuidv4()] and [Date.now()] return (one of
    each per [createMessage], in order), and the broker, which resolves
    ([None]) or rejects the k-th [producer.send] and keeps the records of
    the sends it resolved. *)
Record State := {
  nodeId : string;
  isConnected : bool;
  sequenceCounters : gmap string Z;
  uuidv4 : nat -> string;
  Date_now : nat -> Z;
  created : nat;
  broker_send : nat -> option JsError;
  send_attempts : nat;
  accepted : list ProducerRecord;
  console : list Console
}.

(** [MessageUtils.getSequenceCounter(this.nodeId)] *)
Definition counter (s : State) : Z :=
  MessageUtils.getSequenceCounter (sequenceCounters s) (nodeId s).

(** [new Error(`Producer ${nodeId} not connected`)] *)
Definition not_connected (s : State) : JsError :=
  ExternalError ("Producer " +:+ nodeId s +:+ " not connected").

(** [MessageUtils.createMessage(this.nodeId, ...)] *)
Definition createMessage (messageType : MessageType) (payload : Json)
    (destinationNode : option string) (s : State) : Result MessageEnvelope * State :=
  let r := MessageUtils.createMessage (sequenceCounters s) (uuidv4 s (created s))
             (Date_now s (created s)) (nodeId s) messageType payload destinationNode in
  (fst r,
   {| nodeId := nodeId s; isConnected := isConnected s; sequenceCounters := snd r;
      uuidv4 := uuidv4 s; Date_now := Date_now s; created := S (created s);
      broker_send := broker_send s; send_attempts := send_attempts s;
      accepted := accepted s; console := console s |}).

(** The message built from an envelope; [sequenceNumber.toString()]
    raises when there is no sequence number. *)
Definition message_of (envelope : MessageEnvelope) : Result Message :=
  match sequenceNumber envelope with
  | None => Throw (TypeError "toString")
  | Some n =>
      Ok {| key := messageId envelope;
            value := JSON_stringify (Json_of_envelope envelope);
            header_messageType := messageType envelope;
            header_sourceNode := sourceNode envelope;
            header_sequenceNumber := pretty n |}
  end.

(** [try { await this.producer.send(record); log; return result }
     catch (error) { console.error; throw error }] *)
Definition send {A} (record : ProducerRecord) (result : A) (sent : Console)
    (failed : JsError -> Console) (s : State) : Result A * State :=
  match broker_send s (send_attempts s) with
  | None =>
      (Ok result,
       {| nodeId := nodeId s; isConnected := isConnected s;
          sequenceCounters := sequenceCounters s; uuidv4 := uuidv4 s; Date_now := Date_now s;
          created := created s; broker_send := broker_send s;
          send_attempts := S (send_attempts s); accepted := accepted s ++ [record];
          console := console s ++ [sent] |})
  | Some error =>
      (Throw error,
       {| nodeId := nodeId s; isConnected := isConnected s;
          sequenceCounters := sequenceCounters s; uuidv4 := uuidv4 s; Date_now := Date_now s;
          created := created s; broker_send := broker_send s;
          send_attempts := S (send_attempts s); accepted := accepted s;
          console := console s ++ [failed error] |})
  end.

Definition sendMessage (topic : string) (messageType : MessageType) (payload : Json)
    (destinationNode : option string) (s : State) : Result MessageEnvelope * State :=
  if negb (isConnected s) then (Throw (not_connected s), s)
  else
    match createMessage messageType payload destinationNode s with
    | (Throw e, s) => (Throw e, s)
    | (Ok envelope, s) =>
        match message_of envelope with
        | Throw e => (Throw e, s)
        | Ok message =>
            send {| topic := topic; messages := [message] |} envelope
              (Sent_message messageType (sequenceNumber envelope) topic)
              Failed_to_send_message s
        end
    end.

(** An element of the array given to [sendBatch]. *)
Record BatchItem := {
  item_messageType : MessageType;
  item_payload : Json;
  item_destinationNode : option string
}.

(** [messages.map(msg => MessageUtils.createMessage(...))]: the first call
    that raises ends the map. *)
Fixpoint create_all (items : list BatchItem) (s : State)
  : Result (list MessageEnvelope) * State :=
  match items with
  | [] => (Ok [], s)
  | msg :: rest =>
      match createMessage (item_messageType msg) (item_payload msg)
              (item_destinationNode msg) s with
      | (Throw e, s) => (Throw e, s)
      | (Ok envelope, s) =>
          match create_all rest s with
          | (Throw e, s) => (Throw e, s)
          | (Ok envelopes, s) => (Ok (envelope :: envelopes), s)
          end
      end
  end.

(** [envelopes.map(envelope => ({ key, value, headers }))] *)
Fixpoint messages_of (envelopes : list MessageEnvelope) : Result (list Message) :=
  match envelopes with
  | [] => Ok []
  | envelope :: rest =>
      match message_of envelope with
      | Throw e => Throw e
      | Ok message =>
          match messages_of rest with
          | Throw e => Throw e
          | Ok messages => Ok (message :: messages)
          end
      end
  end.

Definition sendBatch (topic : string) (items : list BatchItem) (s : State)
  : Result (list MessageEnvelope) * State :=
  if negb (isConnected s) then (Throw (not_connected s), s)
  else
    match create_all items s with
    | (Throw e, s) => (Throw e, s)
    | (Ok envelopes, s) =>
        match messages_of envelopes with
        | Throw e => (Throw e, s)
        | Ok messages =>
            send {| topic := topic; messages := messages |} envelopes
              (Sent_batch (length envelopes) topic)
              Failed_to_send_batch s
        end
    end.

(** A sequence of [sendMessage] calls, each awaited before the next. *)
Record SendArgs := {
  arg_topic : string;
  arg_messageType : MessageType;
  arg_payload : Json;
  arg_destinationNode : option string
}.

Definition sendMessage_with (a : SendArgs) : State -> Result MessageEnvelope * State :=
  sendMessage (arg_topic a) (arg_messageType a) (arg_payload a) (arg_destinationNode a).

Fixpoint sendMessages (calls : list SendArgs) (s : State)
  : list (Result MessageEnvelope) * State :=
  match calls with
  | [] => ([], s)
  | a :: rest =>
      let '(r, s') := sendMessage_with a s in
      let '(rs, s'') := sendMessages rest s' in
      (r :: rs, s'')
  end.

(** The sequence-number headers and the keys of the records the broker
    has, in order. *)
Definition numbers (records : list ProducerRecord) : list string :=
  map header_sequenceNumber (concat (map messages records)).

Definition keys (records : list ProducerRecord) : list (option string) :=
  map key (concat (map messages records)).

End KafkaProducer.

(** ** chaos-proxy.ts: [ChaoticProducer] *)

Module ChaoticProducer.

(** [sendMessage] hands [processSendMessage] the message type and the
    payload, and an arrow function that calls the wrapped producer. *)
Definition sendMessage (topic : string) (messageType : MessageType) (payload : Json)
    (destinationNode : option string) : M KafkaProducer.State (option MessageEnvelope) :=
  processSendMessage
    {| temp_messageType := messageType; temp_payload := payload; temp_messageId := None |}
    (KafkaProducer.sendMessage topic messageType payload destinationNode).

(** The calls of a run that belong to a chaotic producer: its
    [sendMessage], and the timers that call set for duplicates. *)
Inductive Step :=
| SendMessage (a : KafkaProducer.SendArgs)
| FireDuplicate (a : KafkaProducer.SendArgs) (messageId : option string).

Definition call_of (st : Step) : Call KafkaProducer.State :=
  match st with
  | SendMessage a =>
      Send {| temp_messageType := KafkaProducer.arg_messageType a;
              temp_payload := KafkaProducer.arg_payload a; temp_messageId := None |}
        (KafkaProducer.sendMessage_with a)
  | FireDuplicate a messageId => Fire (DuplicateSend (KafkaProducer.sendMessage_with a) messageId)
  end.

Definition args_of (st : Step) : KafkaProducer.SendArgs :=
  match st with SendMessage a => a | FireDuplicate a _ => a end.

Definition is_timer (st : Step) : bool :=
  match st with SendMessage _ => false | FireDuplicate _ _ => true end.

End ChaoticProducer.

(** [s] is [s0] after [M] more envelopes were created and sent, the
    broker having taken each of them. *)
Definition published_in_order (s0 s : KafkaProducer.State) (M : nat) : Prop :=
  KafkaProducer.isConnected s = true
  /\ KafkaProducer.nodeId s = KafkaProducer.nodeId s0
  /\ KafkaProducer.uuidv4 s = KafkaProducer.uuidv4 s0
  /\ KafkaProducer.broker_send s = KafkaProducer.broker_send s0
  /\ KafkaProducer.created s = (KafkaProducer.created s0 + M)%nat
  /\ KafkaProducer.counter s = KafkaProducer.counter s0 + Z.of_nat M
  /\ KafkaProducer.numbers (KafkaProducer.accepted s)
     = KafkaProducer.numbers (KafkaProducer.accepted s0)
       ++ map (fun k => pretty (KafkaProducer.counter s0 + Z.of_nat k)) (seq 1 M)
  /\ KafkaProducer.keys (KafkaProducer.accepted s)
     = KafkaProducer.keys (KafkaProducer.accepted s0)
       ++ map (fun k => Some (KafkaProducer.uuidv4 s0 (KafkaProducer.created s0 + k)%nat))
            (seq 0 M).

(** ** examples/consumer.ts: the telemetry handler

    The handler registered for TELEMETRY, on envelopes of its declared
    type: a numeric sequence number and a payload with the fields of
    [TelemetryPayload].  The position, which only appears in the log line,
    is left out. *)

Module GroundControl.

Inductive SystemHealth := NOMINAL | DEGRADED | CRITICAL.

Record TelemetryPayload := {
  satelliteId : string;
  batteryLevel : Z;
  systemHealth : SystemHealth
}.

Record TelemetryState := {
  lastSequence : Z;
  messageCount : Z;
  lastUpdate : Z
}.

(** The three values of [statusIcon] and of [orderIcon]. *)
Inductive StatusIcon := Check_mark | Warning_sign | Siren.
Inductive OrderIcon := Wastebasket | Arrows | Inbox.

Inductive Line :=
| Telemetry_received (order : OrderIcon) (satelliteId : string) (status : StatusIcon)
    (sequenceNumber batteryLevel : Z)
| Detected_gap (satelliteId : string) (missing lastSequence sequenceNumber : Z).

(** The map the handler closes over, the clock and the console. *)
Record State := {
  satelliteStates : gmap string TelemetryState;
  Date_now : nat -> Z;
  Date_now_calls : nat;
  console : list Line
}.

Definition statusIcon (health : SystemHealth) : StatusIcon :=
  match health with
  | NOMINAL => Check_mark
  | DEGRADED => Warning_sign
  | CRITICAL => Siren
  end.

Definition orderIcon (isStale isOutOfOrder : bool) : OrderIcon :=
  if isStale then Wastebasket else if isOutOfOrder then Arrows else Inbox.

(** The handler.  [state] is the object held in the map, so what is
    written to it is written to the map. *)
Definition handler (payload : TelemetryPayload) (sequenceNumber : Z) (s : State) : State :=
  let id := satelliteId payload in
  let found := satelliteStates s !! id in
  let state :=
    match found with
    | Some state => state
    | None => {| lastSequence := 0; messageCount := 0;
                 lastUpdate := Date_now s (Date_now_calls s) |}
    end in
  let calls := match found with
               | Some _ => Date_now_calls s
               | None => S (Date_now_calls s)
               end in
  let isOutOfOrder := sequenceNumber <=? lastSequence state in
  let isStale := sequenceNumber <? lastSequence state - 5 in
  let state' :=
    if negb isStale then
      {| lastSequence := if lastSequence state <? sequenceNumber then sequenceNumber
                         else lastSequence state;
         messageCount := messageCount state + 1;
         lastUpdate := Date_now s calls |}
    else state in
  let calls' := if negb isStale then S calls else calls in
  let line := Telemetry_received (orderIcon isStale isOutOfOrder) id
                (statusIcon (systemHealth payload)) sequenceNumber (batteryLevel payload) in
  let gap :=
    if (lastSequence state' + 1 <? sequenceNumber) && (1 <? messageCount state')
    then [Detected_gap id (sequenceNumber - lastSequence state' - 1)
            (lastSequence state') sequenceNumber]
    else [] in
  {| satelliteStates := <[id := state']> (satelliteStates s);
     Date_now := Date_now s;
     Date_now_calls := calls';
     console := console s ++ line :: gap |}.

(** The handler on a sequence of envelopes. *)
Definition handle_all (envelopes : list (TelemetryPayload * Z)) (s : State) : State :=
  fold_left (fun s e => handler (fst e) (snd e) s) envelopes s.

Definition is_gap (line : Line) : bool :=
  match line with Detected_gap _ _ _ _ => true | _ => false end.

(** [lastSequence] of a satellite, 0 when it has no state yet. *)
Definition lastSequence_of (id : string) (s : State) : Z :=
  from_option lastSequence 0 (satelliteStates s !! id).

End GroundControl.

(** ** A producer for the examples *)

Module SampleProducer.

Definition state (connected : bool) (broker_send : nat -> option JsError)
  : KafkaProducer.State :=
  {| KafkaProducer.nodeId := "satellite-001";
     KafkaProducer.isConnected := connected;
     KafkaProducer.sequenceCounters := ∅;
     KafkaProducer.uuidv4 := fun k => "uuid-" +:+ pretty k;
     KafkaProducer.Date_now := fun k => 1700000000000 + Z.of_nat k;
     KafkaProducer.created := O;
     KafkaProducer.broker_send := broker_send;
     KafkaProducer.send_attempts := O;
     KafkaProducer.accepted := [];
     KafkaProducer.console := [] |}.

Definition telemetry (battery : Z) : KafkaProducer.SendArgs :=
  {| KafkaProducer.arg_topic := "telemetry";
     KafkaProducer.arg_messageType := TELEMETRY;
     KafkaProducer.arg_payload :=
       JObject [("satelliteId", JString "SAT-001"); ("batteryLevel", JInt battery)];
     KafkaProducer.arg_destinationNode := Some "ground-control" |}.

Definition item (payload : Json) : KafkaProducer.BatchItem :=
  {| KafkaProducer.item_messageType := HEARTBEAT;
     KafkaProducer.item_payload := payload;
     KafkaProducer.item_destinationNode := None |}.

Definition world (config : Partial.ChaosConfig) (s : KafkaProducer.State)
  : World KafkaProducer.State :=
  {| this := new_ChaosProxy config; outside := s; Math_random := fun _ => 0%Q;
     Math_random_calls := O; trace := [] |}.

End SampleProducer.

(** * Properties *)

(** Closed comparisons of fractions, by computation. *)
Ltac Qcompute := vm_compute; first [reflexivity | discriminate | intro; discriminate].

Lemma Qltb_lt x y : Qltb x y = true <-> (x < y)%Q.
Proof.
  unfold Qltb. rewrite negb_true_iff, <- not_true_iff_false, Qle_bool_iff.
  split; [apply Qnot_le_lt | apply Qlt_not_le].
Qed.

Lemma Qltb_ge x y : Qltb x y = false <-> (y <= x)%Q.
Proof.
  unfold Qltb. rewrite negb_false_iff. apply Qle_bool_iff.
Qed.

(** ** Binary64 rounding *)

(** 0.1 is held as 3602879701896397 / 2^55; 2^53 + 1 lies halfway between
    two binary64 values and goes to the even one, 2^53, as 2^53 + 3 goes to
    2^53 + 4; 2^-1075 is halfway between 0 and the least positive value and
    goes to 0.  The number held for 31520/233280 is below the fraction, and
    its product with 5832 below 788. *)
Example round64_values :
  (round64 (1 # 10) == 3602879701896397 # 36028797018963968)%Q
  /\ (round64 (inject_Z (2 ^ 53 + 1)) == inject_Z (2 ^ 53))%Q
  /\ (round64 (inject_Z (2 ^ 53 + 3)) == inject_Z (2 ^ 53 + 4))%Q
  /\ (round64 (2 ^ (-1075)) == 0)%Q
  /\ (round64 (3 * 2 ^ (-1075)) == 2 ^ (-1073))%Q
  /\ (round64 (31520 # 233280) < 31520 # 233280)%Q
  /\ (js_mul (31520 # 233280) 5832 < 788)%Q
  /\ ((31520 # 233280) * 5832 == 788)%Q.
Proof. repeat split; vm_compute; reflexivity. Qed.

Lemma round_half_even_upper (v : Q) : (inject_Z (round_half_even v) <= v + (1 # 2))%Q.
Proof.
  unfold round_half_even.
  pose proof (Qfloor_le v) as Hfloor.
  assert (Hup : forall f, (1 # 2 <= v - inject_Z f)%Q ->
                          (inject_Z (f + 1) <= v + (1 # 2))%Q).
  { intros f Hf. rewrite inject_Z_plus. change (inject_Z 1) with 1%Q. lra. }
  destruct (Qcompare_spec (v - inject_Z (Qfloor v)) (1 # 2)) as [Heq | Hlt | Hgt].
  - destruct (Z.even (Qfloor v)); [lra|]. apply Hup. rewrite Heq. apply Qle_refl.
  - lra.
  - apply Hup. apply Qlt_le_weak, Hgt.
Qed.

Lemma round_half_even_nonneg (v : Q) : (0 <= v)%Q -> 0 <= round_half_even v.
Proof.
  intros Hv. unfold round_half_even.
  assert (Hf : 0 <= Qfloor v) by (apply (Qfloor_resp_le 0 v), Hv).
  destruct (_ ?= _)%Q; [destruct (Z.even _)| |]; lia.
Qed.

Lemma two_power_pos (e : Z) : (0 < 2 ^ e)%Q.
Proof. apply Qpower_0_lt. reflexivity. Qed.

Lemma ilog2_le (a : Q) : (0 < a)%Q -> (2 ^ ilog2 a <= a)%Q.
Proof.
  intros Ha. unfold ilog2.
  destruct (Qle_bool _ a) eqn:Htest; [apply Qle_bool_iff, Htest|].
  destruct a as [n d]. cbn [Qnum Qden].
  assert (Hn : 0 < n) by (unfold Qlt in Ha; cbn in Ha; lia).
  pose proof (Z.log2_spec n Hn) as [Hln _].
  pose proof (Z.log2_spec (Zpos d) eq_refl) as [_ Hld].
  pose proof (Z.log2_nonneg n) as Hln0.
  pose proof (Z.log2_nonneg (Zpos d)) as Hld0.
  replace (Z.log2 n - Z.log2 (Zpos d) - 1) with (Z.log2 n - Z.succ (Z.log2 (Zpos d))) by lia.
  rewrite Qpower_minus by discriminate.
  change 2%Q with (inject_Z 2).
  rewrite <- !Zpower_Qpower by lia.
  set (A := 2 ^ Z.log2 n) in *. set (B := 2 ^ Z.succ (Z.log2 (Zpos d))) in *.
  apply Qle_shift_div_r.
  - change 0%Q with (inject_Z 0). rewrite <- Zlt_Qlt. lia.
  - unfold Qle, Qmult, inject_Z. cbn [Qnum Qden]. nia.
Qed.

Lemma round64_zero (q : Q) : (q == 0)%Q -> round64 q = 0%Q.
Proof. intros Hq. unfold round64. apply Qeq_bool_iff in Hq. rewrite Hq. reflexivity. Qed.

(** The magnitude is rounded and the sign is put back. *)
Lemma round64_magnitude (q : Q) :
  exists r : Q,
    (0 <= r)%Q
    /\ (r <= Qabs q + Qabs q * 2 ^ (-53) + 2 ^ (-1075))%Q
    /\ round64 q = if Qeq_bool q 0 then 0%Q else if Qle_bool 0 q then r else (- r)%Q.
Proof.
  unfold round64.
  destruct (Qeq_bool q 0) eqn:Hzero.
  { exists 0%Q. split; [apply Qle_refl|]. split; [|reflexivity].
    pose proof (Qabs_nonneg q). pose proof (two_power_pos (-53)).
    pose proof (two_power_pos (-1075)).
    assert (0 <= Qabs q * 2 ^ (-53))%Q by (apply Qmult_le_0_compat; lra). lra. }
  apply Qeq_bool_neq in Hzero.
  set (a := Qabs q).
  assert (Ha : (0 < a)%Q).
  { unfold a. destruct (Qlt_le_dec 0 q) as [Hpos | Hneg].
    - rewrite Qabs_pos by lra. exact Hpos.
    - rewrite Qabs_neg by exact Hneg.
      apply Qle_lteq in Hneg as [Hlt | Heq]; [lra | contradiction]. }
  set (e := Z.max (ilog2 a - 52) (-1074)).
  set (v := (a / 2 ^ e)%Q).
  pose proof (two_power_pos e) as He.
  assert (Hv : (0 <= v)%Q).
  { unfold v. apply Qle_shift_div_l; [exact He|]. lra. }
  exists (inject_Z (round_half_even v) * 2 ^ e)%Q.
  split; [|split; [|reflexivity]].
  - apply Qmult_le_0_compat; [|lra].
    change 0%Q with (inject_Z 0). rewrite <- Zle_Qle. apply round_half_even_nonneg, Hv.
  - assert (Hr : (inject_Z (round_half_even v) * 2 ^ e <= a + 2 ^ e * (1 # 2))%Q).
    { assert (Hve : (v * 2 ^ e == a)%Q).
      { unfold v. field. intros H0. rewrite H0 in He. apply (Qlt_irrefl 0), He. }
      pose proof (round_half_even_upper v) as Hup.
      assert (Hm : (inject_Z (round_half_even v) * 2 ^ e <= (v + (1 # 2)) * 2 ^ e)%Q).
      { apply Qmult_le_compat_r; [exact Hup | lra]. }
      rewrite Qmult_plus_distr_l, Hve in Hm.
      rewrite (Qmult_comm (2 ^ e)). exact Hm. }
    assert (Herr : (2 ^ e * (1 # 2) <= a * 2 ^ (-53) + 2 ^ (-1075))%Q).
    { pose proof (two_power_pos (-53)) as H53. pose proof (two_power_pos (-1075)) as H1075.
      unfold e. destruct (Z.max_spec (ilog2 a - 52) (-1074)) as [[_ ->] | [_ ->]].
      - assert (Hc : (2 ^ (-1074) * (1 # 2) == 2 ^ (-1075))%Q).
        { replace (-1074) with (-1075 + 1) by lia. rewrite Qpower_plus by discriminate.
          change (2 ^ 1)%Q with 2%Q. field. }
        rewrite Hc.
        assert (0 <= a * 2 ^ (-53))%Q by (apply Qmult_le_0_compat; lra). lra.
      - assert (Hc : (2 ^ (ilog2 a - 52) * (1 # 2) == 2 ^ ilog2 a * 2 ^ (-53))%Q).
        { replace (ilog2 a - 52) with (ilog2 a + (-53) + 1) by lia.
          rewrite !Qpower_plus by discriminate. change (2 ^ 1)%Q with 2%Q. field. }
        rewrite Hc.
        assert (2 ^ ilog2 a * 2 ^ (-53) <= a * 2 ^ (-53))%Q.
        { apply Qmult_le_compat_r; [apply ilog2_le, Ha | lra]. }
        lra. }
    lra.
Qed.

Lemma round64_nonneg (q : Q) : (0 <= q)%Q -> (0 <= round64 q)%Q.
Proof.
  intros Hq. destruct (round64_magnitude q) as (r & Hr & _ & ->).
  destruct (Qeq_bool q 0); [apply Qle_refl|].
  apply Qle_bool_iff in Hq. rewrite Hq. exact Hr.
Qed.

Lemma round64_nonpos (q : Q) : (q <= 0)%Q -> (round64 q <= 0)%Q.
Proof.
  intros Hq. destruct (round64_magnitude q) as (r & Hr & _ & ->).
  destruct (Qeq_bool q 0) eqn:Hzero; [apply Qle_refl|].
  apply Qeq_bool_neq in Hzero.
  destruct (Qle_bool 0 q) eqn:Hsign.
  - apply Qle_bool_iff in Hsign. exfalso. apply Hzero. lra.
  - lra.
Qed.

(** The error of rounding a value that is not negative: at most one part
    in 2^53, or 2^-1075 for the smallest values. *)
Lemma round64_upper (q : Q) :
  (0 <= q)%Q -> (round64 q <= q + q * 2 ^ (-53) + 2 ^ (-1075))%Q.
Proof.
  intros Hq. destruct (round64_magnitude q) as (r & _ & Hr & ->).
  rewrite (Qabs_pos q Hq) in Hr.
  destruct (Qeq_bool q 0).
  - pose proof (two_power_pos (-53)). pose proof (two_power_pos (-1075)).
    assert (0 <= q * 2 ^ (-53))%Q by (apply Qmult_le_0_compat; lra). lra.
  - apply Qle_bool_iff in Hq. rewrite Hq. exact Hr.
Qed.

(** The same with small constants. *)
Lemma round64_upper_coarse (q : Q) :
  (0 <= q)%Q -> (round64 q <= q + q * (1 # 1125899906842624) + (1 # 1152921504606846976))%Q.
Proof.
  intros Hq. pose proof (round64_upper q Hq) as H.
  assert (H53 : (2 ^ (-53) <= 1 # 1125899906842624)%Q) by (vm_compute; discriminate).
  assert (H1075 : (2 ^ (-1075) <= 1 # 1152921504606846976)%Q) by (vm_compute; discriminate).
  assert (q * 2 ^ (-53) <= q * (1 # 1125899906842624))%Q.
  { rewrite !(Qmult_comm q). apply Qmult_le_compat_r; assumption. }
  lra.
Qed.

Lemma number_of_Z_small (z : Z) : Z.abs z <= 2 ^ 53 -> number_of_Z z = z.
Proof.
  intros Hz. unfold number_of_Z. apply Z.leb_le in Hz. rewrite Hz. reflexivity.
Qed.

Lemma number_of_Z_nonneg (z : Z) : 0 <= z -> 0 <= number_of_Z z.
Proof.
  intros Hz. unfold number_of_Z. destruct (_ <=? _); [exact Hz|].
  apply (Qfloor_resp_le 0), round64_nonneg.
  change 0%Q with (inject_Z 0). rewrite <- Zle_Qle. exact Hz.
Qed.

(** A product with a number that is at most 1 - 2^-18. *)
Lemma js_mul_nonneg (d n : Q) : (0 <= d)%Q -> (0 <= n)%Q -> (0 <= js_mul d n)%Q.
Proof.
  intros Hd Hn. unfold js_mul. apply round64_nonneg.
  apply Qmult_le_0_compat; apply round64_nonneg; assumption.
Qed.

Lemma js_mul_nonpos (d n : Q) : (round64 d <= 0)%Q -> (0 <= n)%Q -> (js_mul d n <= 0)%Q.
Proof.
  intros Hd Hn. unfold js_mul. apply round64_nonpos.
  pose proof (round64_nonneg n Hn) as HN.
  rewrite <- (Qmult_0_l (round64 n)). apply Qmult_le_compat_r; assumption.
Qed.

Lemma js_mul_below (d n : Q) :
  (round64 d <= 262143 # 262144)%Q -> (1 <= n)%Q -> (js_mul d n < n)%Q.
Proof.
  intros Hd Hn.
  destruct (Qlt_le_dec 0 (round64 d)) as [Hpos | Hneg];
    [|pose proof (js_mul_nonpos d n Hneg ltac:(lra)); lra].
  assert (HN0 : (0 <= round64 n)%Q) by (apply round64_nonneg; lra).
  pose proof (round64_upper_coarse n ltac:(lra)) as HN.
  set (D := round64 d) in *. set (N := round64 n) in *.
  assert (Hx0 : (0 <= D * N)%Q) by (apply Qmult_le_0_compat; lra).
  assert (Hx : (D * N <= (262143 # 262144) * N)%Q)
    by (apply Qmult_le_compat_r; assumption).
  pose proof (round64_upper_coarse (D * N) Hx0) as Hr.
  unfold js_mul. fold D N.
  set (x := (D * N)%Q) in *. set (r := round64 x) in *.
  clearbody x r N D. lra.
Qed.

Lemma js_mul_below_1 (d m : Q) :
  (round64 d <= 262143 # 262144)%Q -> (0 <= m)%Q -> (m <= 1)%Q -> (js_mul d m < 1)%Q.
Proof.
  intros Hd Hm0 Hm1.
  destruct (Qlt_le_dec 0 (round64 d)) as [Hpos | Hneg];
    [|pose proof (js_mul_nonpos d m Hneg Hm0); lra].
  assert (HM0 : (0 <= round64 m)%Q) by (apply round64_nonneg; lra).
  pose proof (round64_upper_coarse m Hm0) as HM.
  set (D := round64 d) in *. set (M := round64 m) in *.
  assert (Hx0 : (0 <= D * M)%Q) by (apply Qmult_le_0_compat; lra).
  assert (Hx : (D * M <= (262143 # 262144) * M)%Q)
    by (apply Qmult_le_compat_r; assumption).
  pose proof (round64_upper_coarse (D * M) Hx0) as Hr.
  unfold js_mul. fold D M.
  set (x := (D * M)%Q) in *. set (r := round64 x) in *.
  clearbody x r M D. lra.
Qed.

(** ** The checksum and the envelope codec *)

(** The hash loop is the 31-multiplier string hash on 32-bit integers. *)
Example hash_string_pangram :
  MessageUtils.hash_string "The quick brown fox jumps over the lazy dog" = -609428141.
Proof. vm_compute. reflexivity. Qed.

Example stringify_array :
  JSON_stringify (JArray [JInt (-3); JUndefined; JBool true; JNull])
  = Some "[-3,null,true,null]".
Proof. vm_compute. reflexivity. Qed.

Example checksum_null : MessageUtils.calculateChecksum JNull = Ok "33c587".
Proof. vm_compute. reflexivity. Qed.

Example checksum_string : MessageUtils.calculateChecksum (JString "a") = Ok "8b83".
Proof. vm_compute. reflexivity. Qed.

Example checksum_negative :
  MessageUtils.calculateChecksum
    (JObject [("x", JInt (-3)); ("tags", JArray [JString "ab"; JBool true])])
  = Ok "-615b62ea".
Proof. vm_compute. reflexivity. Qed.

Section Codec.

Implicit Types (sequenceCounters : gmap string Z) (s : string).

Lemma getSequenceCounter_insert sequenceCounters s s' (n : Z) :
  MessageUtils.getSequenceCounter (<[s' := n]> sequenceCounters) s
  = if bool_decide (s' = s) then n else MessageUtils.getSequenceCounter sequenceCounters s.
Proof.
  unfold MessageUtils.getSequenceCounter. case_bool_decide as Heq.
  - subst s'. rewrite lookup_insert_eq. reflexivity.
  - rewrite lookup_insert_ne by exact Heq. reflexivity.
Qed.

Lemma getSequenceCounter_reset sequenceCounters s s' :
  s' <> s ->
  MessageUtils.getSequenceCounter (MessageUtils.resetSequenceCounter sequenceCounters s') s
  = MessageUtils.getSequenceCounter sequenceCounters s.
Proof.
  intros Hne. unfold MessageUtils.getSequenceCounter, MessageUtils.resetSequenceCounter.
  rewrite lookup_delete_ne by exact Hne. reflexivity.
Qed.

(** [createMessage] always advances the counter of its source node by one;
    it returns an envelope carrying the new value exactly when the payload
    serialises to a string. *)
Lemma createMessage_counter sequenceCounters uuid now s messageType payload destinationNode :
  snd (MessageUtils.createMessage sequenceCounters uuid now s messageType payload
         destinationNode)
  = <[s := MessageUtils.getSequenceCounter sequenceCounters s + 1]> sequenceCounters.
Proof.
  unfold MessageUtils.createMessage.
  destruct (MessageUtils.calculateChecksum payload); reflexivity.
Qed.

Lemma createMessage_returns sequenceCounters uuid now s messageType payload destinationNode :
  JSON_stringify payload <> None ->
  exists envelope,
    fst (MessageUtils.createMessage sequenceCounters uuid now s messageType payload
           destinationNode) = Ok envelope
    /\ sequenceNumber envelope = Some (MessageUtils.getSequenceCounter sequenceCounters s + 1)
    /\ sourceNode envelope = Some s
    /\ messageId envelope = Some uuid.
Proof.
  intros Hser. unfold MessageUtils.createMessage, MessageUtils.calculateChecksum.
  destruct (JSON_stringify payload) as [payloadStr|]; [|congruence].
  eexists. split; [reflexivity|]. repeat split.
Qed.

Lemma createMessage_source sequenceCounters uuid now s messageType payload destinationNode
    (envelope : MessageEnvelope) :
  fst (MessageUtils.createMessage sequenceCounters uuid now s messageType payload
         destinationNode) = Ok envelope ->
  sourceNode envelope = Some s.
Proof.
  unfold MessageUtils.createMessage.
  destruct (MessageUtils.calculateChecksum payload); simpl; [|discriminate].
  intros [= <-]. reflexivity.
Qed.

Lemma envelopes_from_cons s (r : Result MessageEnvelope) (rs : list (Result MessageEnvelope)) :
  MessageUtils.envelopes_from s (r :: rs)
  = match r with
    | Ok envelope =>
        if bool_decide (sourceNode envelope = Some s)
        then envelope :: MessageUtils.envelopes_from s rs
        else MessageUtils.envelopes_from s rs
    | Throw _ => MessageUtils.envelopes_from s rs
    end.
Proof.
  destruct r as [envelope|e]; [|reflexivity].
  unfold MessageUtils.envelopes_from. simpl. case_bool_decide; reflexivity.
Qed.

(** C4, amended: take any sequence of [createMessage] and
    [resetSequenceCounter] calls in which the counter of source node [s] is
    not reset and the payload of every [createMessage] for [s] serialises
    ([JSON.stringify] gives a string, so the call returns).  The envelopes
    created for [s] carry, in order, the sequence numbers [c+1, ..., c+N],
    where [c] is the counter of [s] before the calls and [N] the number of
    [createMessage] calls for [s]; calls for other nodes make no difference.
    From a counter that is unset (a node's first message, or after a reset)
    the numbers are exactly 1, ..., N. *)
Theorem sequence_numbers_consecutive (calls : list MessageUtils.Call) sequenceCounters s :
  Forall (fun c => c <> MessageUtils.Reset s) calls ->
  Forall (fun c => match c with
                   | MessageUtils.Create _ _ sourceNode _ payload _ =>
                       sourceNode = s -> JSON_stringify payload <> None
                   | MessageUtils.Reset _ => True
                   end) calls ->
  let N := length (filter (fun c => MessageUtils.is_create_for s c = true) calls) in
  let c := MessageUtils.getSequenceCounter sequenceCounters s in
  let numbers :=
    map sequenceNumber (MessageUtils.envelopes_from s (MessageUtils.run calls sequenceCounters)) in
  numbers = map (fun k => Some (c + Z.of_nat k)) (seq 1 N)
  /\ (sequenceCounters !! s = None -> numbers = map (fun k => Some (Z.of_nat k)) (seq 1 N)).
Proof.
  intros Hreset Hser N c numbers.
  assert (Hgen : numbers = map (fun k => Some (c + Z.of_nat k)) (seq 1 N)).
  { subst N c numbers. revert sequenceCounters.
    induction calls as [|call calls IH]; intros sequenceCounters; [reflexivity|].
    apply Forall_cons in Hreset as [Hcall Hreset].
    apply Forall_cons in Hser as [Hpay Hser].
    specialize (IH Hreset Hser).
    destruct call as [uuid now s' messageType payload destinationNode | s'].
    - simpl MessageUtils.run. rewrite createMessage_counter, envelopes_from_cons.
      rewrite filter_cons. simpl MessageUtils.is_create_for.
      destruct (decide (s' = s)) as [->|Hne].
      + rewrite bool_decide_eq_true_2 by reflexivity.
        rewrite decide_True by reflexivity.
        destruct (createMessage_returns sequenceCounters uuid now s messageType payload
                    destinationNode (Hpay eq_refl)) as (envelope & -> & Hseq & Hsrc & _).
        rewrite bool_decide_eq_true_2 by exact Hsrc.
        simpl. rewrite Hseq, IH, getSequenceCounter_insert.
        rewrite bool_decide_eq_true_2 by reflexivity.
        f_equal.
        rewrite <- (seq_shift _ 1), map_map. apply map_ext. intros k. f_equal. lia.
      + rewrite bool_decide_eq_false_2 by exact Hne.
        rewrite decide_False by discriminate.
        assert (Hrest : map sequenceNumber
                          (MessageUtils.envelopes_from s
                             (MessageUtils.run calls
                                (<[s' := MessageUtils.getSequenceCounter sequenceCounters s' + 1]>
                                   sequenceCounters)))
                        = map (fun k => Some (MessageUtils.getSequenceCounter sequenceCounters s
                                              + Z.of_nat k))
                            (seq 1 (length (filter (fun c => MessageUtils.is_create_for s c = true)
                                              calls)))).
        { rewrite IH, getSequenceCounter_insert.
          rewrite bool_decide_eq_false_2 by exact Hne. reflexivity. }
        destruct (fst (MessageUtils.createMessage _ _ _ _ _ _ _)) as [envelope|e] eqn:Hres;
          [|exact Hrest].
        apply createMessage_source in Hres.
        rewrite bool_decide_eq_false_2 by congruence. exact Hrest.
    - simpl MessageUtils.run. rewrite IH, getSequenceCounter_reset by congruence.
      rewrite filter_cons. simpl. reflexivity. }
  split; [exact Hgen|].
  intros Hfresh. rewrite Hgen. subst c. unfold MessageUtils.getSequenceCounter.
  rewrite Hfresh. reflexivity.
Qed.

End Codec.

Lemma sequence_numbers_consecutive_witness :
  let calls := [MessageUtils.Create "id-1" 0 "sat-1" TELEMETRY JNull None;
                MessageUtils.Create "id-2" 1 "ground" COMMAND JUndefined (Some "sat-1");
                MessageUtils.Reset "ground";
                MessageUtils.Create "id-3" 2 "sat-1" HEARTBEAT (JBool true) None;
                MessageUtils.Create "id-4" 3 "sat-1" TELEMETRY (JString "ok") None] in
  (Forall (fun c => c <> MessageUtils.Reset "sat-1") calls
   /\ Forall (fun c => match c with
                       | MessageUtils.Create _ _ sourceNode _ payload _ =>
                           sourceNode = "sat-1" -> JSON_stringify payload <> None
                       | MessageUtils.Reset _ => True
                       end) calls)
  /\ map sequenceNumber (MessageUtils.envelopes_from "sat-1" (MessageUtils.run calls ∅))
     = [Some 1; Some 2; Some 3].
Proof.
  intros calls.
  assert (Hreset : Forall (fun c => c <> MessageUtils.Reset "sat-1") calls).
  { repeat constructor; discriminate. }
  assert (Hser : Forall (fun c => match c with
                                  | MessageUtils.Create _ _ sourceNode _ payload _ =>
                                      sourceNode = "sat-1" -> JSON_stringify payload <> None
                                  | MessageUtils.Reset _ => True
                                  end) calls).
  { repeat constructor; discriminate. }
  split; [split; assumption|].
  exact (proj2 (sequence_numbers_consecutive calls ∅ "sat-1" Hreset Hser) eq_refl).
Defined.

(** Without the condition on the payloads the numbers are not 1, ..., N.
    Three consecutive [createMessage] calls for sat-1, from an unset counter
    and without a reset; the payload of the second is [undefined].  That
    call raises, in [calculateChecksum], after it has stored the counter, so
    it returns no envelope and has taken the number 2 all the same: the two
    envelopes carry 1 and 3. *)
Example raising_createMessage_takes_a_number :
  let calls := [MessageUtils.Create "id-1" 0 "sat-1" TELEMETRY JNull None;
                MessageUtils.Create "id-2" 1 "sat-1" HEARTBEAT JUndefined None;
                MessageUtils.Create "id-3" 2 "sat-1" TELEMETRY (JString "ok") None] in
  let results := MessageUtils.run calls ∅ in
  let numbers := map sequenceNumber (MessageUtils.envelopes_from "sat-1" results) in
  Forall (fun c => MessageUtils.is_create_for "sat-1" c = true) calls
  /\ map (fun r => match r with Ok _ => true | Throw _ => false end) results
     = [true; false; true]
  /\ numbers = [Some 1; Some 3]
  /\ numbers <> map (fun k => Some (Z.of_nat k)) (seq 1 (length calls)).
Proof.
  split; [repeat constructor|]. split; [vm_compute; reflexivity|].
  split; [vm_compute; reflexivity|]. vm_compute. discriminate.
Qed.

(** *** Validation *)

(** A created envelope validates, for a node and an id that are not
    empty. *)
Lemma validate_created sequenceCounters uuid now s messageType payload destinationNode
    (envelope : MessageEnvelope) :
  uuid <> "" -> s <> "" ->
  fst (MessageUtils.createMessage sequenceCounters uuid now s messageType payload
         destinationNode) = Ok envelope ->
  0 <= MessageUtils.getSequenceCounter sequenceCounters s ->
  MessageUtils.validateMessage envelope = Ok true.
Proof.
  intros Huuid Hs Hcreate Hcount. unfold MessageUtils.createMessage in Hcreate.
  destruct (MessageUtils.calculateChecksum payload) as [sum|e] eqn:Hsum; simpl in Hcreate;
    [|discriminate].
  injection Hcreate as <-. unfold MessageUtils.validateMessage. simpl.
  rewrite (proj2 (String.eqb_neq uuid "") Huuid), (proj2 (String.eqb_neq s "") Hs).
  replace (String.eqb (MessageType_value messageType) "") with false
    by (destruct messageType; reflexivity).
  simpl. replace (_ <=? 0) with false by (symmetry; apply Z.leb_gt; lia).
  rewrite Hsum, String.eqb_refl. reflexivity.
Qed.

(** X6: When the payload serialises, [validateMessage] returns a boolean, and
    it returns true exactly when messageId, sourceNode and messageType are
    present and not empty, the sequence number is not a number <= 0, and the
    stored checksum is the recomputed one. *)
Lemma validateMessage_total_on_serialisable (envelope : MessageEnvelope) (payloadStr : string) :
  JSON_stringify (payload envelope) = Some payloadStr ->
  exists b : bool,
    MessageUtils.validateMessage envelope = Ok b
    /\ (b = true <->
        falsy (messageId envelope) = false
        /\ falsy (sourceNode envelope) = false
        /\ falsy (messageType envelope) = false
        /\ (forall n, sequenceNumber envelope = Some n -> 0 < n)
        /\ checksum envelope = Some (toString16 (MessageUtils.hash_string payloadStr))).
Proof.
  intros Hser. unfold MessageUtils.validateMessage, MessageUtils.calculateChecksum.
  rewrite Hser.
  destruct (falsy (messageId envelope)); simpl;
    [exists false; split; [reflexivity | split; [discriminate | intros (? & _); discriminate]]|].
  destruct (falsy (sourceNode envelope)); simpl;
    [exists false; split; [reflexivity | split; [discriminate | intros (_ & ? & _); discriminate]]|].
  destruct (falsy (messageType envelope)); simpl;
    [exists false; split; [reflexivity | split; [discriminate | intros (_ & _ & ? & _); discriminate]]|].
  destruct (sequenceNumber envelope) as [n|] eqn:Hseq.
  - destruct (n <=? 0) eqn:Hn.
    + exists false. split; [reflexivity|]. split; [discriminate|].
      intros (_ & _ & _ & Hpos & _). apply Z.leb_le in Hn. specialize (Hpos n eq_refl). lia.
    + apply Z.leb_gt in Hn. unfold strict_ne.
      destruct (checksum envelope) as [sum|].
      * destruct (String.eqb_spec sum (toString16 (MessageUtils.hash_string payloadStr)))
          as [->|Hne]; simpl.
        -- exists true. split; [reflexivity|]. split; [|reflexivity].
           intros _. repeat split. intros m [= <-]. exact Hn.
        -- exists false. split; [reflexivity|]. split; [discriminate|].
           intros (_ & _ & _ & _ & [= Heq]). contradiction.
      * exists false. split; [reflexivity|]. split; [discriminate|].
        intros (_ & _ & _ & _ & ?). discriminate.
  - unfold strict_ne. destruct (checksum envelope) as [sum|].
    + destruct (String.eqb_spec sum (toString16 (MessageUtils.hash_string payloadStr)))
        as [->|Hne]; simpl.
      * exists true. split; [reflexivity|]. split; [|reflexivity].
        intros _. repeat split. intros m ?. discriminate.
      * exists false. split; [reflexivity|]. split; [discriminate|].
        intros (_ & _ & _ & _ & [= Heq]). contradiction.
    + exists false. split; [reflexivity|]. split; [discriminate|].
      intros (_ & _ & _ & _ & ?). discriminate.
Qed.

(** C2: an envelope whose payload is absent, with the three checked
    fields present and a positive sequence number: [JSON.stringify] gives
    [undefined], reading its [length] raises a TypeError, and
    [validateMessage] raises it instead of returning false.
    [calculateChecksum] and [createMessage] raise on the same payload. *)
Theorem validateMessage_raises_on_absent_payload :
  let envelope := {| messageId := Some "id-1"; sequenceNumber := Some 1;
                     sourceNode := Some "sat-1"; destinationNode := None;
                     messageType := Some "TELEMETRY"; timestamp := Some 0;
                     payload := JUndefined; checksum := Some "0" |} in
  MessageUtils.validateMessage envelope = Throw (TypeError "length")
  /\ MessageUtils.calculateChecksum JUndefined = Throw (TypeError "length")
  /\ fst (MessageUtils.createMessage ∅ "id-1" 0 "sat-1" TELEMETRY JUndefined None)
     = Throw (TypeError "length").
Proof. repeat split. Qed.

(** An envelope without a sequence number passes: [undefined <= 0] is
    false. *)
Example validateMessage_accepts_missing_sequenceNumber :
  MessageUtils.validateMessage
    {| messageId := Some "id-1"; sequenceNumber := None; sourceNode := Some "sat-1";
       destinationNode := None; messageType := Some "TELEMETRY"; timestamp := None;
       payload := JNull; checksum := Some "33c587" |} = Ok true.
Proof. vm_compute. reflexivity. Qed.

(** ** Construction and configuration *)

Section Config.

(** C10: a proxy constructed from [{}] has dropRate 0.1, duplicateRate
    0.05, maxDelayMs 1000, reorderWindow 5, seed 12345, enabled true, all
    six counters at 0, an empty reorder buffer and a generator seeded with
    12345; constructed from a partial configuration it has, field by
    field, the supplied value where one is supplied and the default
    elsewhere, and the generator is seeded with the resulting seed. *)
Theorem constructor_defaults :
  new_ChaosProxy Partial.empty =
    {| config := {| dropRate := 1 # 10; duplicateRate := 5 # 100; maxDelayMs := 1000;
                    reorderWindow := 5; seed := 12345; enabled := true |};
       stats := {| sent := 0; received := 0; dropped := 0; duplicated := 0;
                   delayed := 0; reordered := 0 |};
       random := 12345;
       messageBuffer := [] |}
  /\ forall partial : Partial.ChaosConfig,
      let p := new_ChaosProxy partial in
      dropRate (config p) = default (1 # 10)%Q (Partial.dropRate partial)
      /\ duplicateRate (config p) = default (5 # 100)%Q (Partial.duplicateRate partial)
      /\ maxDelayMs (config p) = default 1000%Q (Partial.maxDelayMs partial)
      /\ reorderWindow (config p) = default 5 (Partial.reorderWindow partial)
      /\ seed (config p) = default 12345 (Partial.seed partial)
      /\ enabled (config p) = default true (Partial.enabled partial)
      /\ stats p = zero_stats
      /\ random p = seed (config p)
      /\ messageBuffer p = [].
Proof.
  split; [reflexivity|].
  intros partial p. subst p. unfold new_ChaosProxy, spread. simpl.
  repeat split.
Qed.

(** C9, amended: [updateConfig] copies every property the partial object
    has over the configuration, a property whose value is [undefined]
    included (the field is [undefined] afterwards), and keeps the fields the
    partial object does not have; it leaves the counters and the reorder
    buffer alone; it sets the generator state to the supplied seed when the
    partial object's seed is a number, and keeps the accumulated state
    when the seed is absent or [undefined]. *)
Theorem updateConfig_merge (newConfig : Raw.PartialChaosConfig) (p : Raw.ChaosProxy) :
  let p' := Raw.updateConfig newConfig p in
  let kept_or_copied {A} (field : Raw.ChaosConfig -> option A) (property : Raw.Property A) :=
    (property = Raw.Absent -> field (Raw.config p') = field (Raw.config p))
    /\ (forall value, property = Raw.Present value -> field (Raw.config p') = value) in
  kept_or_copied Raw.dropRate (Raw.partial_dropRate newConfig)
  /\ kept_or_copied Raw.duplicateRate (Raw.partial_duplicateRate newConfig)
  /\ kept_or_copied Raw.maxDelayMs (Raw.partial_maxDelayMs newConfig)
  /\ kept_or_copied Raw.reorderWindow (Raw.partial_reorderWindow newConfig)
  /\ kept_or_copied Raw.seed (Raw.partial_seed newConfig)
  /\ kept_or_copied Raw.enabled (Raw.partial_enabled newConfig)
  /\ Raw.stats p' = Raw.stats p
  /\ Raw.messageBuffer p' = Raw.messageBuffer p
  /\ (forall seed, Raw.partial_seed newConfig = Raw.Present (Some seed) ->
      Raw.random p' = seed)
  /\ (Raw.partial_seed newConfig = Raw.Absent \/ Raw.partial_seed newConfig = Raw.Present None ->
      Raw.random p' = Raw.random p).
Proof.
  intros p' kept_or_copied. subst p' kept_or_copied. unfold Raw.updateConfig.
  assert (Hconfig : forall q,
            Raw.config (match Raw.read (Raw.partial_seed newConfig) with
                        | Some seed =>
                            {| Raw.config := q; Raw.stats := Raw.stats p;
                               Raw.random := createSeededRandom seed;
                               Raw.messageBuffer := Raw.messageBuffer p |}
                        | None =>
                            {| Raw.config := q; Raw.stats := Raw.stats p;
                               Raw.random := Raw.random p;
                               Raw.messageBuffer := Raw.messageBuffer p |}
                        end) = q).
  { intros q. destruct (Raw.read _); reflexivity. }
  cbv zeta. rewrite Hconfig. cbn [Raw.spread Raw.dropRate Raw.duplicateRate Raw.maxDelayMs
                                   Raw.reorderWindow Raw.seed Raw.enabled].
  repeat match goal with
         | |- _ /\ _ => split
         end;
    try (intros H; rewrite H; reflexivity);
    try (intros value H; rewrite H; reflexivity);
    try (destruct (Raw.read _); reflexivity).
  intros [H | H]; rewrite H; reflexivity.
Qed.

(** With [{ seed: undefined }] the seed of the configuration is overwritten
    with [undefined], although no seed value was supplied, and the
    generator keeps its state, although the partial object has the
    property. *)
Lemma updateConfig_undefined_seed :
  let newConfig :=
    {| Raw.partial_dropRate := Raw.Absent; Raw.partial_duplicateRate := Raw.Absent;
       Raw.partial_maxDelayMs := Raw.Absent; Raw.partial_reorderWindow := Raw.Absent;
       Raw.partial_seed := Raw.Present None; Raw.partial_enabled := Raw.Absent |} in
  let p := raw_of_proxy (set_random 96382 (new_ChaosProxy Partial.empty)) in
  let p' := Raw.updateConfig newConfig p in
  Raw.seed (Raw.config p) = Some 12345
  /\ Raw.seed (Raw.config p') = None
  /\ Raw.random p' = 96382.
Proof. repeat split. Qed.

(** With [{ dropRate: 0.5, seed: 7 }] the two fields are replaced, the
    others kept, and the generator starts again from 7. *)
Example updateConfig_reseeds :
  let newConfig :=
    {| Raw.partial_dropRate := Raw.Present (Some (1 # 2));
       Raw.partial_duplicateRate := Raw.Absent;
       Raw.partial_maxDelayMs := Raw.Absent; Raw.partial_reorderWindow := Raw.Absent;
       Raw.partial_seed := Raw.Present (Some 7); Raw.partial_enabled := Raw.Absent |} in
  let p := raw_of_proxy (set_random 96382 (new_ChaosProxy Partial.empty)) in
  Raw.updateConfig newConfig p
  = raw_of_proxy
      {| config := {| dropRate := 1 # 2; duplicateRate := 5 # 100; maxDelayMs := 1000;
                      reorderWindow := 5; seed := 7; enabled := true |};
         stats := zero_stats; random := 7; messageBuffer := [] |}.
Proof. reflexivity. Qed.

(** On objects without [undefined] values this is the [updateConfig] of
    the development. *)
Lemma updateConfig_refines (newConfig : Partial.ChaosConfig) (p : ChaosProxy) :
  Raw.updateConfig (raw_of_partial newConfig) (raw_of_proxy p)
  = raw_of_proxy (updateConfig newConfig p).
Proof.
  destruct newConfig as [[?|] [?|] [?|] [?|] [?|] [?|]]; reflexivity.
Qed.

(** [updateConfig] on objects without [undefined] values replaces exactly
    the fields the partial object has and keeps the others, leaves the
    counters and the reorder buffer alone, and sets the generator state to
    the supplied seed when the partial object has a seed and keeps the
    accumulated state when it has none. *)
Lemma updateConfig_without_undefined (newConfig : Partial.ChaosConfig) (p : ChaosProxy) :
  let p' := updateConfig newConfig p in
  dropRate (config p') = default (dropRate (config p)) (Partial.dropRate newConfig)
  /\ duplicateRate (config p')
     = default (duplicateRate (config p)) (Partial.duplicateRate newConfig)
  /\ maxDelayMs (config p') = default (maxDelayMs (config p)) (Partial.maxDelayMs newConfig)
  /\ reorderWindow (config p')
     = default (reorderWindow (config p)) (Partial.reorderWindow newConfig)
  /\ seed (config p') = default (seed (config p)) (Partial.seed newConfig)
  /\ enabled (config p') = default (enabled (config p)) (Partial.enabled newConfig)
  /\ stats p' = stats p
  /\ messageBuffer p' = messageBuffer p
  /\ random p' = match Partial.seed newConfig with
                 | Some seed => seed
                 | None => random p
                 end.
Proof.
  unfold updateConfig. destruct (Partial.seed newConfig) eqn:E; simpl; rewrite ?E;
    repeat split.
Qed.

End Config.

(** ** The seeded generator *)

Lemma next_state_bounds (state : Z) : -233280 < next_state state < 233280.
Proof.
  unfold next_state, js_rem.
  pose proof (Z.rem_bound_abs
                (number_of_Z (number_of_Z (number_of_Z state * 9301) + 49297))
                233280 ltac:(lia)).
  lia.
Qed.

Lemma next_state_nonneg (state : Z) : 0 <= state -> 0 <= next_state state < 233280.
Proof.
  intros H. unfold next_state, js_rem.
  apply Z.rem_bound_pos; [|lia].
  apply number_of_Z_nonneg.
  pose proof (number_of_Z_nonneg (number_of_Z state * 9301)
                ltac:(pose proof (number_of_Z_nonneg state H); lia)).
  lia.
Qed.

(** Below 2^39 in magnitude no step of the update is rounded. *)
Lemma next_state_exact (state : Z) :
  Z.abs state <= 2 ^ 39 -> next_state state = Z.rem (state * 9301 + 49297) 233280.
Proof.
  intros H. unfold next_state, js_rem.
  change (2 ^ 39) with 549755813888 in H.
  assert (Hsmall : forall z, Z.abs z <= 9007199254740992 -> number_of_Z z = z).
  { intros z Hz. apply number_of_Z_small. change (2 ^ 53) with 9007199254740992. lia. }
  rewrite (Hsmall state) by lia.
  rewrite (Hsmall (state * 9301)) by lia.
  rewrite (Hsmall (state * 9301 + 49297)) by lia.
  reflexivity.
Qed.

(** Above 2^53/9301 the product is rounded: for the state 10^15 the update
    gives 149632, where the integers give 149777. *)
Example next_state_rounds :
  next_state 1000000000000000 = 149632
  /\ Z.rem (1000000000000000 * 9301 + 49297) 233280 = 149777.
Proof. split; vm_compute; reflexivity. Qed.

Lemma next_state_exact_nonneg (state : Z) :
  0 <= state -> state * 9301 + 49297 <= 2 ^ 53 ->
  next_state state = Z.rem (state * 9301 + 49297) 233280.
Proof.
  intros H0 H. unfold next_state, js_rem.
  assert (Hsmall : forall z, 0 <= z <= state * 9301 + 49297 -> number_of_Z z = z).
  { intros z Hz. apply number_of_Z_small. lia. }
  rewrite (Hsmall state) by lia.
  rewrite (Hsmall (state * 9301)) by lia.
  rewrite (Hsmall (state * 9301 + 49297)) by lia.
  reflexivity.
Qed.

Lemma draw_lt_1 (state : Z) : (draw_of (next_state state) < 1)%Q.
Proof.
  pose proof (next_state_bounds state). unfold draw_of, Qlt. simpl. lia.
Qed.

Lemma draw_gt_m1 (state : Z) : (-1 < draw_of (next_state state))%Q.
Proof.
  pose proof (next_state_bounds state). unfold draw_of, Qlt. simpl. lia.
Qed.

Lemma draw_nonneg (state : Z) : 0 <= state -> (0 <= draw_of (next_state state))%Q.
Proof.
  intros H. pose proof (next_state_nonneg state H). unfold draw_of, Qle. simpl. lia.
Qed.

(** The number held for a draw is at most 1 - 2^-18. *)
Lemma draw_number_below (state : Z) :
  state < 233280 -> (round64 (draw_of state) <= 262143 # 262144)%Q.
Proof.
  intros Hb.
  destruct (Qlt_le_dec (draw_of state) 0) as [Hneg | Hpos].
  - pose proof (round64_nonpos _ (Qlt_le_weak _ _ Hneg)). lra.
  - pose proof (round64_upper_coarse _ Hpos) as Hup.
    assert (Hd : (draw_of state <= 233279 # 233280)%Q).
    { unfold draw_of, Qle. simpl. lia. }
    lra.
Qed.

(** The floor of a product with a draw. *)
Lemma Qfloor_lt_inject (x : Q) (n : Z) : (x < inject_Z n)%Q -> Qfloor x < n.
Proof.
  intros Hx. rewrite Zlt_Qlt. eapply Qle_lt_trans; [apply Qfloor_le | exact Hx].
Qed.

Lemma inject_Z_ge_1 (n : Z) : 1 <= n -> (1 <= inject_Z n)%Q.
Proof. intros Hn. change 1%Q with (inject_Z 1). rewrite <- Zle_Qle. exact Hn. Qed.

Section EngineFacts.

Context {T : Type}.
Implicit Types (w : World T) (p : ChaosProxy).

Lemma this_random_eq w :
  this_random w = (Ok (draw_of (next_state (random (this w)))), after_draw w).
Proof. reflexivity. Qed.

(** C7, amended: [calculateDelay] returns 0 without drawing when
    maxDelayMs <= 0.  Otherwise it draws [d]; when [d < 0.3] it draws [d2]
    and returns the floor of the product [d2 * maxDelayMs] as JavaScript
    computes it (the binary64 product of the numbers held for [d2] and for
    maxDelayMs), or 0 if that is negative; when [d >= 0.3] it returns 0
    after that single draw.  It touches nothing but the generator state,
    never raises, and its result is never negative.  The generator state
    and maxDelayMs are taken below 2^1000 in magnitude, where no operation
    overflows, and a positive maxDelayMs is one whose binary64 value is
    positive. *)
Theorem calculateDelay_cases w :
  let maxDelay := maxDelayMs (config (this w)) in
  let d := draw_of (next_state (random (this w))) in
  let d2 := draw_of (next_state (next_state (random (this w)))) in
  Z.abs (random (this w)) < 2 ^ 1000 ->
  (maxDelay < 2 ^ 1000)%Q ->
  ((maxDelay <= 0)%Q -> calculateDelay w = (Ok 0, w))
  /\ ((0 < round64 maxDelay)%Q -> (d < 3 # 10)%Q ->
      calculateDelay w
      = (Ok (Z.max 0 (Qfloor (js_mul d2 maxDelay))), after_draw (after_draw w)))
  /\ ((0 < round64 maxDelay)%Q -> (3 # 10 <= d)%Q ->
      calculateDelay w = (Ok 0, after_draw w))
  /\ (exists delay w', calculateDelay w = (Ok delay, w') /\ 0 <= delay).
Proof.
  intros maxDelay d d2 _ _.
  unfold calculateDelay, bind, get_this. fold maxDelay.
  destruct (Qle_bool maxDelay 0) eqn:Hmax.
  - apply Qle_bool_iff in Hmax. pose proof (round64_nonpos maxDelay Hmax) as Hheld.
    repeat split; try (intros Hpos; exfalso; revert Hpos; apply Qle_not_lt, Hheld).
    exists 0, w. split; [reflexivity | lia].
  - assert (Hpos : (0 < maxDelay)%Q).
    { apply Qnot_le_lt. intros Hle. apply Qle_bool_iff in Hle. congruence. }
    rewrite this_random_eq. fold d.
    destruct (Qltb d (3 # 10)) eqn:Hd.
    + apply Qltb_lt in Hd. rewrite this_random_eq.
      repeat split.
      * intros Hle. exfalso. revert Hpos. apply Qle_not_lt, Hle.
      * intros _ Hge. exfalso. revert Hd. apply Qle_not_lt, Hge.
      * eexists _, _. split; [reflexivity | lia].
    + apply Qltb_ge in Hd.
      repeat split.
      * intros Hle. exfalso. revert Hpos. apply Qle_not_lt, Hle.
      * intros _ Hlt. exfalso. revert Hlt. apply Qle_not_lt, Hd.
      * eexists _, _. split; [reflexivity | lia].
Qed.

End EngineFacts.

(** With maxDelayMs 5832 and seed 2106 the first draw is 41683/233280 < 0.3
    and the second 31520/233280: the cases above give the delay 787. *)
Lemma calculateDelay_cases_witness :
  let w := Sample.world (Sample.config 0 0 5832 0 2106) 0 in
  Z.abs (random (this w)) < 2 ^ 1000
  /\ (maxDelayMs (config (this w)) < 2 ^ 1000)%Q
  /\ (0 < round64 (maxDelayMs (config (this w))))%Q
  /\ (draw_of (next_state (random (this w))) < 3 # 10)%Q
  /\ calculateDelay w = (Ok 787, after_draw (after_draw w)).
Proof.
  intros w.
  assert (H1 : Z.abs (random (this w)) < 2 ^ 1000) by (vm_compute; reflexivity).
  assert (H2 : (maxDelayMs (config (this w)) < 2 ^ 1000)%Q) by (vm_compute; reflexivity).
  assert (H3 : (0 < round64 (maxDelayMs (config (this w))))%Q) by (vm_compute; reflexivity).
  assert (H4 : (draw_of (next_state (random (this w))) < 3 # 10)%Q)
    by (vm_compute; reflexivity).
  repeat (split; [assumption|]).
  destruct (calculateDelay_cases w H1 H2) as (_ & Hdelay & _).
  exact (eq_trans (Hdelay H3 H4) eq_refl).
Defined.

(** The same call against the product of the fractions themselves:
    31520/233280 * 5832 is 788, but the number held for 31520/233280 lies
    below the fraction, the binary64 product below 788, and the code
    returns 787. *)
Lemma calculateDelay_exact_product_fails :
  let w := Sample.world (Sample.config 0 0 5832 0 2106) 0 in
  let maxDelay := maxDelayMs (config (this w)) in
  let d := draw_of (next_state (random (this w))) in
  let d2 := draw_of (next_state (next_state (random (this w)))) in
  (0 < maxDelay)%Q
  /\ (d < 3 # 10)%Q
  /\ Z.max 0 (Qfloor (d2 * maxDelay)) = 788
  /\ fst (calculateDelay w) = Ok 787
  /\ fst (calculateDelay w) <> Ok (Z.max 0 (Qfloor (d2 * maxDelay))).
Proof.
  repeat split; try (vm_compute; reflexivity). vm_compute. discriminate.
Qed.

(** With maxDelayMs 1000 and generator state 82116: the first draw is
    51493/233280 < 0.3, the second 61850/233280, the delay 265 ms. *)
Example calculateDelay_delays :
  let w := Sample.world (Sample.config 0 0 1000 0 12345) 0 in
  let r := calculateDelay (with_this (set_random 82116) w) in
  fst r = Ok 265 /\ random (this (snd r)) = 61850.
Proof. vm_compute. repeat split. Qed.

Example calculateDelay_no_delay :
  let w := Sample.world (Sample.config 0 0 1000 0 12345) 0 in
  fst (calculateDelay w) = Ok 0 /\ random (this (snd (calculateDelay w))) = 96382.
Proof. vm_compute. repeat split. Qed.

(** A negative second draw is clamped to 0. *)
Example calculateDelay_clamps :
  let w := Sample.world (Sample.config 0 0 1000 0 (-6)) 0 in
  (draw_of (next_state (next_state (-6))) < 0)%Q
  /\ fst (calculateDelay w) = Ok 0
  /\ random (this (snd (calculateDelay w))) = next_state (next_state (-6)).
Proof. repeat split; Qcompute. Qed.

(** ** The send wrapper *)

Section SendFacts.

Context {T : Type}.
Implicit Types (w : World T) (sendFn : SendFn T) (tempEnvelope : TempEnvelope).

Lemma processSendMessage_disabled tempEnvelope sendFn w :
  enabled (config (this w)) = false ->
  processSendMessage tempEnvelope sendFn w =
    let w1 := after_send sendFn (with_this (set_stats incr_sent) w) in
    match fst (sendFn (outside w)) with
    | Ok result => (Ok (Some result), w1)
    | Throw e => (Throw e, w1)
    end.
Proof.
  intros Hen. unfold processSendMessage, bind, modify_this, get_this. simpl.
  rewrite Hen. simpl. unfold call_sendFn, after_send, bind, emit, on_outside. simpl.
  destruct (sendFn (outside w)) as [[result|e] t]; reflexivity.
Qed.

Lemma processSendMessage_enabled tempEnvelope sendFn w :
  enabled (config (this w)) = true ->
  processSendMessage tempEnvelope sendFn w =
    let w1 := after_draw (with_this (set_stats incr_sent) w) in
    if Qltb (draw_of (random (this w1))) (dropRate (config (this w))) then
      (Ok None,
       with_event (ConsoleLog (Dropped_message (temp_messageType tempEnvelope)))
         (with_this (set_stats incr_dropped) w1))
    else
      let w2 := after_send sendFn w1 in
      match fst (sendFn (outside w)) with
      | Throw e => (Throw e, w2)
      | Ok result =>
          let w3 := after_draw w2 in
          if Qltb (draw_of (random (this w3))) (duplicateRate (config (this w)))
          then (Ok (Some result), after_duplicate sendFn result w3)
          else (Ok (Some result), w3)
      end.
Proof.
  intros Hen. unfold processSendMessage, bind, modify_this, get_this. simpl.
  rewrite Hen. simpl.
  destruct (Qltb _ (dropRate _)); [reflexivity|].
  unfold call_sendFn, after_send, bind, emit, on_outside. simpl.
  destruct (sendFn (outside w)) as [[result|e] t]; simpl; [|reflexivity].
  destruct (Qltb _ (duplicateRate _)); reflexivity.
Qed.

Lemma run_cons (c : Call T) (calls : list (Call T)) w :
  run (c :: calls) w =
    (fst (run_call c w) :: fst (run calls (snd (run_call c w))),
     snd (run calls (snd (run_call c w)))).
Proof.
  simpl. destruct (run_call c w) as [o w1]. simpl.
  destruct (run calls w1) as [os w2]. reflexivity.
Qed.


(** X12: With chaos enabled, dropRate 0 and a generator state that is not
    negative (a proxy seeded with a non-negative integer): no send is
    dropped and [sendFn] is called once in every call. *)
Theorem drop_rate_zero_never_drops (l : list (TempEnvelope * SendFn T)) w :
  enabled (config (this w)) = true ->
  (dropRate (config (this w)) == 0)%Q ->
  0 <= random (this w) ->
  let w' := snd (run (send_calls l) w) in
  Forall (fun o => o <> Sent None) (fst (run (send_calls l) w))
  /\ dropped (stats (this w')) = dropped (stats (this w))
  /\ length (filter is_send (trace w'))
     = (length (filter is_send (trace w)) + length l)%nat.
Proof.
  revert w. induction l as [|[tempEnvelope sendFn] l IH]; intros w Hen Hrate Hst.
  - simpl. repeat split; [constructor | lia].
  - unfold send_calls. simpl map. rewrite run_cons. fold (send_calls l).
    unfold run_call. rewrite (processSendMessage_enabled _ _ _ Hen). cbv zeta.
    assert (Hd : Qltb (draw_of (random (this (after_draw (with_this (set_stats incr_sent) w)))))
                   (dropRate (config (this w))) = false).
    { apply Qltb_ge. rewrite Hrate. simpl. apply draw_nonneg. exact Hst. }
    rewrite Hd.
    pose proof (next_state_nonneg _ Hst) as Hst1.
    destruct (fst (sendFn (outside w))) as [result|e] eqn:Hsend.
    + destruct (Qltb _ (duplicateRate _)); cbn [fst snd];
        (match goal with |- context [run (send_calls l) ?w1] =>
           destruct (IH w1) as (IH1 & IH2 & IH3);
             [exact Hen | exact Hrate | simpl; apply next_state_nonneg; lia |]
         end);
        cbn zeta in *; rewrite IH2, IH3; simpl;
        rewrite ?filter_app; simpl; rewrite ?length_app; simpl;
        (repeat split; [constructor; [discriminate | exact IH1] | lia]).
    + cbn [fst snd].
      match goal with |- context [run (send_calls l) ?w1] =>
        destruct (IH w1) as (IH1 & IH2 & IH3);
          [exact Hen | exact Hrate | simpl; lia |]
      end.
      cbn zeta in *; rewrite IH2, IH3; simpl.
      rewrite ?filter_app; simpl; rewrite ?length_app; simpl.
      repeat split; [constructor; [discriminate | exact IH1] | lia].
Qed.

Lemma fire_DuplicateSend sendFn (id : option string) w :
  fire (DuplicateSend sendFn id) w =
    (Ok tt,
     with_event
       match fst (sendFn (outside w)) with
       | Ok _ => ConsoleLog (Duplicate_sent id)
       | Throw e => ConsoleError (Failed_to_send_duplicate e)
       end
       (after_send sendFn w)).
Proof.
  unfold fire, try_catch, call_sendFn, after_send, bind, emit, on_outside. simpl.
  destruct (sendFn (outside w)) as [[result|e] t]; reflexivity.
Qed.


End SendFacts.


(** C3: a proxy seeded with -6 and configured with dropRate 0 drops the
    first send: the generator state becomes (-6 * 9301 + 49297) % 233280 =
    -6509, the draw is negative and so below 0.  The call returns null,
    [dropped] is 1 and [sendFn] has not been called. *)
Theorem drop_rate_zero_negative_seed_drops :
  let w := Sample.world (Sample.config 0 0 0 0 (-6)) 0 in
  let r := run (send_calls [(Sample.tempEnvelope, Sample.sendFn)]) w in
  dropRate (config (this w)) = 0%Q
  /\ random (this (snd r)) = -6509
  /\ fst r = [Sent None]
  /\ dropped (stats (this (snd r))) = 1
  /\ filter is_send (trace (snd r)) = [].
Proof. vm_compute. repeat split. Qed.

(** Scenario B of the specification: seed 12345, dropRate 1.0, ten sends. *)
Example scenario_B :
  let w := Sample.world (Sample.config 1 0 0 0 12345) 0 in
  let r := run (send_calls (replicate 10 (Sample.tempEnvelope, Sample.sendFn))) w in
  fst r = replicate 10 (Sent None)
  /\ sent (stats (this (snd r))) = 10
  /\ dropped (stats (this (snd r))) = 10
  /\ filter is_send (trace (snd r)) = []
  /\ outside (snd r) = O.
Proof. vm_compute. repeat split. Qed.

(** Scenario A of the specification: seed 12345, all rates, the delay and
    the window 0; ten sends reach the transport and ten received envelopes
    reach the handler in arrival order. *)
Example scenario_A :
  let w := Sample.world (Sample.config 0 0 0 0 12345) 0 in
  let envelopes := map (fun k => Sample.envelope (pretty k) (Z.of_nat k)) (seq 1 10) in
  let sends := run (send_calls (replicate 10 (Sample.tempEnvelope, Sample.sendFn))) w in
  let receives := run (receive_calls (map (fun e => (e, Sample.handler)) envelopes)) w in
  stats (this (snd sends))
  = {| sent := 10; received := 0; dropped := 0; duplicated := 0; delayed := 0;
       reordered := 0 |}
  /\ length (filter is_send (trace (snd sends))) = 10%nat
  /\ stats (this (snd receives))
     = {| sent := 0; received := 10; dropped := 0; duplicated := 0; delayed := 0;
          reordered := 0 |}
  /\ trace (snd receives) = map (fun e => HandlerCalled (Some e)) envelopes.
Proof. vm_compute. repeat split. Qed.

(** ** The consumer's seen-set *)

Section SeenSet.

Context {T : Type}.
Implicit Types (seen : list (option string)) (id : option string).

Lemma fold_Set_delete (toDelete : list (option string)) seen :
  fold_left (fun seen id => Set_delete id seen) toDelete seen
  = filter (fun y => y ∉ toDelete) seen.
Proof.
  revert seen. induction toDelete as [|x toDelete IH]; intros seen; simpl.
  - induction seen as [|y seen IHs]; [reflexivity|].
    rewrite filter_cons_True by apply not_elem_of_nil. congruence.
  - rewrite IH. unfold Set_delete. rewrite list_filter_filter.
    apply list_filter_iff. intros y. rewrite not_elem_of_cons. tauto.
Qed.

Lemma filter_all seen (P : option string -> Prop) `{!forall y, Decision (P y)} :
  (forall y, y ∈ seen -> P y) -> filter P seen = seen.
Proof.
  induction seen as [|y seen IH]; intros Hall; [reflexivity|].
  rewrite filter_cons_True by (apply Hall; left).
  rewrite IH; [reflexivity|]. intros z Hz. apply Hall. right. exact Hz.
Qed.

Lemma filter_none seen (P : option string -> Prop) `{!forall y, Decision (P y)} :
  (forall y, y ∈ seen -> ~ P y) -> filter P seen = [].
Proof.
  induction seen as [|y seen IH]; intros Hall; [reflexivity|].
  rewrite filter_cons_False by (apply Hall; left).
  apply IH. intros z Hz. apply Hall. right. exact Hz.
Qed.

(** Deleting the first [k] ids of a duplicate-free set leaves the rest,
    in order. *)
Lemma evict_oldest (k : nat) seen :
  NoDup seen ->
  fold_left (fun seen id => Set_delete id seen) (take k seen) seen = drop k seen.
Proof.
  intros Hnd. rewrite fold_Set_delete.
  rewrite <- (take_drop k seen) in Hnd.
  apply NoDup_app in Hnd as (_ & Hdisj & _).
  transitivity (filter (fun y => y ∉ take k seen) (take k seen ++ drop k seen)).
  { rewrite take_drop. reflexivity. }
  rewrite filter_app, filter_none, filter_all; [reflexivity | |].
  - intros y Hy Hin. exact (Hdisj y Hin Hy).
  - intros y Hy Hnot. exact (Hnot Hy).
Qed.

Lemma record_seen_new id seen :
  NoDup seen -> id ∉ seen ->
  KafkaConsumer.record_seen id seen =
    if KafkaConsumer.maxSeenIds <? Z.of_nat (length (seen ++ [id]))
    then drop 1000 (seen ++ [id])
    else seen ++ [id].
Proof.
  intros Hnd Hnew. unfold KafkaConsumer.record_seen, Set_add.
  rewrite bool_decide_eq_false_2 by exact Hnew.
  destruct (_ <? _); [|reflexivity].
  apply evict_oldest. apply NoDup_app. repeat split; [exact Hnd | | apply NoDup_singleton].
  intros y Hy Hin. apply list_elem_of_singleton in Hin. subst y. exact (Hnew Hy).
Qed.

(** What one [handleMessage] call does to the seen-set: nothing, or it
    appends the message id and, when that makes 10001 entries, removes the
    1000 oldest. *)
Lemma handleMessage_seen (value : RecordValue) (c : KafkaConsumer.State T) (t : T) :
  NoDup (KafkaConsumer.seenMessageIds c) ->
  let seen := KafkaConsumer.seenMessageIds c in
  let seen' := KafkaConsumer.seenMessageIds (fst (fst (KafkaConsumer.handleMessage value c t))) in
  seen' = seen
  \/ exists envelope,
       value = Parsed envelope
       /\ MessageUtils.validateMessage envelope = Ok true
       /\ (messageId envelope ∉ seen)
       /\ seen' = if 10000 <? Z.of_nat (length (seen ++ [messageId envelope]))
                  then drop 1000 (seen ++ [messageId envelope])
                  else seen ++ [messageId envelope].
Proof.
  intros Hnd seen seen'. subst seen seen'.
  destruct value as [|error|envelope]; simpl; [left; reflexivity .. |].
  destruct (MessageUtils.validateMessage envelope) as [[|]|error] eqn:Hval;
    [|left; reflexivity ..].
  unfold MessageUtils.isDuplicateMessage. case_bool_decide as Hdup; [left; reflexivity|].
  right. exists envelope. split; [reflexivity|]. split; [exact Hval|].
  split; [exact Hdup|].
  pose proof (record_seen_new _ _ Hnd Hdup) as Hrec.
  unfold KafkaConsumer.maxSeenIds in Hrec. rewrite <- Hrec.
  destruct (messageType envelope ≫= _) as [handler|]; [|reflexivity].
  simpl. destruct (handler (Some envelope) t) as [[[]|error] t']; reflexivity.
Qed.

Lemma handleMessage_seen_ok (value : RecordValue) (c : KafkaConsumer.State T) (t : T) :
  KafkaConsumer.seen_ok (KafkaConsumer.seenMessageIds c) ->
  KafkaConsumer.seen_ok (KafkaConsumer.seenMessageIds (fst (fst (KafkaConsumer.handleMessage value c t)))).
Proof.
  intros [Hnd Hlen].
  destruct (handleMessage_seen value c t Hnd) as [-> | (envelope & _ & _ & Hnew & ->)];
    [split; assumption|].
  assert (Hnd' : NoDup (KafkaConsumer.seenMessageIds c ++ [messageId envelope])).
  { apply NoDup_app. repeat split; [exact Hnd | | apply NoDup_singleton].
    intros y Hy Hin. apply list_elem_of_singleton in Hin. subst y. exact (Hnew Hy). }
  destruct (_ <? _) eqn:Hover.
  - split.
    + rewrite <- (take_drop 1000) in Hnd'. apply NoDup_app in Hnd'. tauto.
    + rewrite length_drop, length_app in *. simpl in *. lia.
  - split; [exact Hnd'|]. apply Z.ltb_ge in Hover. exact Hover.
Qed.

Lemma consume_seen_ok (values : list RecordValue) (c : KafkaConsumer.State T) (t : T) :
  KafkaConsumer.seen_ok (KafkaConsumer.seenMessageIds c) ->
  KafkaConsumer.seen_ok (KafkaConsumer.seenMessageIds (fst (KafkaConsumer.consume values c t))).
Proof.
  revert c t. induction values as [|value values IH]; intros c t Hok; [exact Hok|].
  simpl. pose proof (handleMessage_seen_ok value c t Hok) as Hstep.
  destruct (KafkaConsumer.handleMessage value c t) as [[c' t'] logs]. simpl in Hstep.
  apply IH. exact Hstep.
Qed.

(** A valid envelope with a new id is recorded, whatever its handler
    does. *)
Lemma handleMessage_records (envelope : MessageEnvelope) (c : KafkaConsumer.State T) (t : T) :
  MessageUtils.validateMessage envelope = Ok true ->
  messageId envelope ∉ KafkaConsumer.seenMessageIds c ->
  KafkaConsumer.seenMessageIds (fst (fst (KafkaConsumer.handleMessage (Parsed envelope) c t)))
  = KafkaConsumer.record_seen (messageId envelope) (KafkaConsumer.seenMessageIds c).
Proof.
  intros Hval Hnew. simpl. rewrite Hval. unfold MessageUtils.isDuplicateMessage.
  rewrite bool_decide_eq_false_2 by exact Hnew.
  destruct (messageType envelope ≫= _) as [handler|]; [|reflexivity].
  simpl. destruct (handler (Some envelope) t) as [[[]|error] t']; reflexivity.
Qed.

(** Valid envelopes with new, pairwise distinct ids are recorded in
    arrival order as long as the capacity is not exceeded. *)
Lemma consume_records (es : list MessageEnvelope) (c : KafkaConsumer.State T) (t : T) :
  NoDup (KafkaConsumer.seenMessageIds c ++ map messageId es) ->
  Forall (fun e => MessageUtils.validateMessage e = Ok true) es ->
  Z.of_nat (length (KafkaConsumer.seenMessageIds c ++ map messageId es)) <= 10000 ->
  KafkaConsumer.seenMessageIds (fst (KafkaConsumer.consume (map Parsed es) c t))
  = KafkaConsumer.seenMessageIds c ++ map messageId es.
Proof.
  revert c t. induction es as [|e es IH]; intros c t Hnd Hval Hlen.
  - simpl. rewrite app_nil_r. reflexivity.
  - apply Forall_cons in Hval as [He Hval].
    assert (Hnd1 : NoDup (KafkaConsumer.seenMessageIds c)).
    { apply NoDup_app in Hnd. tauto. }
    assert (Hnew : messageId e ∉ KafkaConsumer.seenMessageIds c).
    { apply NoDup_app in Hnd as (_ & Hdisj & _). intros Hin. apply (Hdisj _ Hin). left. }
    pose proof (handleMessage_records e c t He Hnew) as Hrec.
    rewrite (record_seen_new _ _ Hnd1 Hnew) in Hrec.
    replace (KafkaConsumer.maxSeenIds <? _) with false in Hrec.
    2:{ symmetry. apply Z.ltb_ge. unfold KafkaConsumer.maxSeenIds.
        rewrite !length_app in *. simpl in *. lia. }
    cbn [map KafkaConsumer.consume].
    destruct (KafkaConsumer.handleMessage (Parsed e) c t) as [[c' t'] logs].
    cbn [fst] in Hrec.
    rewrite IH; rewrite ?Hrec, <- ?app_assoc; first [reflexivity | assumption].
Qed.

(** C5: a consumer that starts with an empty seen-set and has handled any
    records whatever holds at most 10000 ids, without repetition, and holds
    at most 10000 ids again after the next record.  If that record is a
    valid envelope with a new id, the id is appended, and when the set held
    10000 ids the 1000 oldest are removed and the rest kept in insertion
    order.  Any other record leaves the seen-set as it is. *)
Theorem seen_set_never_exceeds_capacity
    (nodeId : string) (handlers : gmap string (MessageHandler T))
    (values : list RecordValue) (value : RecordValue) (t : T) :
  let start := {| KafkaConsumer.nodeId := nodeId; KafkaConsumer.messageHandlers := handlers;
                  KafkaConsumer.seenMessageIds := [] |} in
  let c := fst (KafkaConsumer.consume values start t) in
  let t1 := snd (KafkaConsumer.consume values start t) in
  let seen := KafkaConsumer.seenMessageIds c in
  let seen' := KafkaConsumer.seenMessageIds
                 (fst (fst (KafkaConsumer.handleMessage value c t1))) in
  Z.of_nat (length seen) <= 10000
  /\ Z.of_nat (length seen') <= 10000
  /\ NoDup seen
  /\ (forall envelope,
        value = Parsed envelope ->
        MessageUtils.validateMessage envelope = Ok true ->
        messageId envelope ∉ seen ->
        (Z.of_nat (length seen) < 10000 -> seen' = seen ++ [messageId envelope])
        /\ (Z.of_nat (length seen) = 10000 ->
            seen' = drop 1000 seen ++ [messageId envelope]))
  /\ ((forall envelope,
         value = Parsed envelope ->
         MessageUtils.validateMessage envelope = Ok true ->
         messageId envelope ∈ seen) ->
      seen' = seen).
Proof.
  intros start c t1 seen seen'.
  assert (Hok : KafkaConsumer.seen_ok seen).
  { apply consume_seen_ok. split; [apply NoDup_nil_2 | unfold KafkaConsumer.maxSeenIds; simpl; lia]. }
  pose proof (handleMessage_seen_ok value c t1 Hok) as Hok'.
  split; [apply Hok|]. split; [apply Hok'|]. split; [apply Hok|].
  split.
  - intros envelope -> Hval Hnew. subst seen'.
    rewrite (handleMessage_records envelope c t1 Hval Hnew). fold seen.
    rewrite (record_seen_new _ _ (proj1 Hok) Hnew).
    unfold KafkaConsumer.maxSeenIds. rewrite length_app. simpl.
    split; intros Hlen.
    + replace (10000 <? _) with false by (symmetry; apply Z.ltb_ge; lia). reflexivity.
    + replace (10000 <? _) with true by (symmetry; apply Z.ltb_lt; lia).
      apply drop_app_le. lia.
  - intros Hold.
    destruct (handleMessage_seen value c t1 (proj1 Hok))
      as [H | (envelope & Hv & Hval & Hnew & _)]; [exact H|].
    exfalso. apply Hnew. exact (Hold envelope Hv Hval).
Qed.

End SeenSet.

(** A consumer that has handled 10000 valid envelopes with the ids i0, ...,
    i9999 holds these ids; the next valid envelope with a new id makes it
    forget i0, ..., i999. *)
Example seen_set_evicts_at_capacity :
  let id := fun k : nat => "i" +:+ pretty k in
  let values := map (fun k => Parsed (Sample.envelope (id k) 1)) (seq 0 (Z.to_nat 10000)) in
  let c := fst (KafkaConsumer.consume values (KafkaConsumer.new "ground") O) in
  let t1 := snd (KafkaConsumer.consume values (KafkaConsumer.new "ground") O) in
  let new := Sample.envelope "new" 1 in
  KafkaConsumer.seenMessageIds c = map (fun k => Some (id k)) (seq 0 (Z.to_nat 10000))
  /\ KafkaConsumer.seenMessageIds (fst (fst (KafkaConsumer.handleMessage (Parsed new) c t1)))
     = map (fun k => Some (id k)) (seq 1000 (Z.to_nat 9000)) ++ [Some "new"].
Proof.
  intros id values c t1 new.
  assert (Hinj : Inj (=) (=) (fun k => Some (id k))).
  { intros x y [= H]. exact (inj pretty x y H). }
  assert (Hseen : KafkaConsumer.seenMessageIds c
                  = map (fun k => Some (id k)) (seq 0 (Z.to_nat 10000))).
  { subst c values.
    rewrite <- (map_map (fun k => Sample.envelope (id k) 1) Parsed).
    rewrite (consume_records (T := nat)).
    - cbn [KafkaConsumer.seenMessageIds KafkaConsumer.new app]. rewrite map_map. reflexivity.
    - cbn [KafkaConsumer.seenMessageIds KafkaConsumer.new app]. rewrite map_map.
      apply (NoDup_fmap_2 (fun k => Some (id k))); first [exact Hinj | apply NoDup_seq].
    - apply Forall_map, Forall_forall. intros k _. reflexivity.
    - cbn [KafkaConsumer.seenMessageIds KafkaConsumer.new app].
      rewrite !length_map, length_seq. lia. }
  split; [exact Hseen|].
  rewrite (handleMessage_records (T := nat) new c t1).
  - rewrite record_seen_new.
    + rewrite Hseen, length_app, length_map, length_seq. unfold KafkaConsumer.maxSeenIds.
      replace (10000 <? _) with true by (symmetry; apply Z.ltb_lt; cbn [length]; lia).
      rewrite drop_app_le by (rewrite length_map, length_seq; lia).
      replace (Z.to_nat 10000) with (1000 + Z.to_nat 9000)%nat by lia.
      rewrite seq_app, map_app.
      rewrite drop_app_length' by (rewrite length_map, length_seq; reflexivity).
      reflexivity.
    + rewrite Hseen. apply (NoDup_fmap_2 (fun k => Some (id k))); first [exact Hinj | apply NoDup_seq].
    + rewrite Hseen. intros Hin. apply list_elem_of_fmap in Hin as (k & Hk & _). discriminate.
  - vm_compute. reflexivity.
  - rewrite Hseen. intros Hin. apply list_elem_of_fmap in Hin as (k & Hk & _). discriminate.
Qed.

(** ** The reorder buffer *)

Section ReorderFacts.

Context {T : Type}.
Implicit Types (w : World T) (es : list MessageEnvelope) (handler : MessageHandler T).

(** With a generator state that is not negative the shuffle index lies
    in [0, i]. *)
Lemma shuffle_index_range (state : Z) (i : nat) :
  0 <= state < 233280 -> 0 <= shuffle_index (draw_of state) i <= Z.of_nat i.
Proof.
  intros Hst. unfold shuffle_index. split.
  - apply (Qfloor_resp_le 0). apply js_mul_nonneg.
    + unfold draw_of, Qle. simpl. lia.
    + pose proof (inject_Z_ge_1 (Z.of_nat i + 1) ltac:(lia)). lra.
  - apply Z.lt_succ_r. apply Qfloor_lt_inject. rewrite <- Z.add_1_r.
    apply js_mul_below; [apply draw_number_below; lia | apply inject_Z_ge_1; lia].
Qed.

(** Whatever the state, the index the loop computes is at most [i]: the
    shuffle never writes at or beyond the length of the array. *)
Lemma shuffle_index_le (state : Z) (i : nat) :
  shuffle_index (draw_of (next_state state)) i <= Z.of_nat i.
Proof.
  pose proof (next_state_bounds state) as Hst.
  unfold shuffle_index.
  apply Z.lt_succ_r. apply Qfloor_lt_inject. rewrite <- Z.add_1_r.
  apply js_mul_below; [apply draw_number_below; lia | apply inject_Z_ge_1; lia].
Qed.

Lemma exchange_Permutation es (i j : nat) (a b : MessageEnvelope) :
  es !! i = Some a -> es !! j = Some b ->
  <[j := a]> (<[i := b]> es) ≡ₚ es.
Proof.
  intros Hi Hj.
  pose proof (lookup_lt_Some _ _ _ Hi) as Hli.
  pose proof (lookup_lt_Some _ _ _ Hj) as Hlj.
  apply Permutation_inj. split; [rewrite !length_insert; reflexivity|].
  exists (fun k => if decide (k = j) then i else if decide (k = i) then j else k).
  split.
  - intros x y. repeat case_decide; intros; subst; congruence.
  - intros k. repeat case_decide; subst.
    + rewrite list_lookup_insert_eq by (rewrite length_insert; exact Hlj). congruence.
    + rewrite list_lookup_insert_ne by congruence.
      rewrite list_lookup_insert_eq by exact Hli. congruence.
    + rewrite !list_lookup_insert_ne by congruence. reflexivity.
Qed.

Lemma swap_in_range es (i : nat) (j : Z) :
  (i < length es)%nat -> 0 <= j <= Z.of_nat i ->
  exists es', swap (array_of es) i j = array_of es' /\ es' ≡ₚ es.
Proof.
  intros Hi Hj.
  destruct (lookup_lt_is_Some_2 es i Hi) as [a Ha].
  destruct (lookup_lt_is_Some_2 es (Z.to_nat j) ltac:(lia)) as [b Hb].
  exists (<[Z.to_nat j := a]> (<[i := b]> es)).
  split; [|exact (exchange_Permutation es i (Z.to_nat j) a b Ha Hb)].
  unfold swap, array_get, array_set, array_of.
  replace (Z.of_nat i <? 0) with false by (symmetry; apply Z.ltb_ge; lia).
  replace (j <? 0) with false by (symmetry; apply Z.ltb_ge; lia).
  cbn [elements properties].
  rewrite Nat2Z.id, !list_lookup_fmap, Ha, Hb. simpl.
  rewrite !list_fmap_insert. reflexivity.
Qed.

Lemma with_random_same w : with_this (set_random (random (this w))) w = w.
Proof. destruct w as [[c s r b] t m n tr]. reflexivity. Qed.

(** The shuffle loop on a generator state that is not negative: it never
    raises, yields a permutation of the buffered envelopes and changes
    nothing but the generator state. *)
Lemma shuffle_loop_permutes (i : nat) es w :
  (i < length es)%nat -> 0 <= random (this w) ->
  exists es' state,
    shuffle_loop i (array_of es) w = (Ok (array_of es'), with_this (set_random state) w)
    /\ es' ≡ₚ es /\ 0 <= state.
Proof.
  revert es w. induction i as [|i IH]; intros es w Hi Hst.
  - exists es, (random (this w)). rewrite with_random_same. repeat split; [reflexivity | exact Hst].
  - simpl shuffle_loop. unfold bind. rewrite this_random_eq.
    pose proof (next_state_nonneg _ Hst) as Hst1.
    destruct (swap_in_range es (S i) (shuffle_index (draw_of (next_state (random (this w)))) (S i))
                Hi (shuffle_index_range _ _ Hst1)) as (es1 & -> & Hperm1).
    destruct (IH es1 (after_draw w)) as (es' & state & Hrun & Hperm & Hstate).
    { rewrite (Permutation_length Hperm1). lia. }
    { simpl. lia. }
    exists es', state. rewrite Hrun. repeat split; [|exact Hstate].
    etransitivity; eassumption.
Qed.

Lemma some_changed_decides (xs : list MessageEnvelope) (buffer : list MessageEnvelope)
    (idx : nat) :
  exists b : bool,
    some_changed (map Some xs) buffer idx = Ok b
    /\ (b = false <->
        forall k x, xs !! k = Some x -> messageId x = (buffer !! (idx + k)%nat) ≫= messageId).
Proof.
  revert idx. induction xs as [|x xs IH]; intros idx.
  - exists false. split; [reflexivity|]. split; [|reflexivity].
    intros _ k y Hk. rewrite lookup_nil in Hk. discriminate.
  - simpl. case_bool_decide as Hne.
    + exists true. split; [reflexivity|]. split; [discriminate|].
      intros Hall. exfalso. apply Hne. specialize (Hall O x eq_refl).
      rewrite Nat.add_0_r in Hall. exact Hall.
    + destruct (IH (S idx)) as (b & Hb & Hiff). exists b. split; [exact Hb|].
      rewrite Hiff. split.
      * intros Hall [|k] y Hk.
        -- simpl in Hk. injection Hk as <-. rewrite Nat.add_0_r.
           destruct (decide (messageId x = buffer !! idx ≫= messageId)); [assumption | tauto].
        -- rewrite Nat.add_succ_r. apply (Hall k y Hk).
      * intros Hall k y Hk. specialize (Hall (S k) y Hk).
        rewrite Nat.add_succ_r in Hall. exact Hall.
Qed.

Lemma NoDup_fmap_inj_on (f : MessageEnvelope -> option string) es (x y : MessageEnvelope) :
  NoDup (f <$> es) -> x ∈ es -> y ∈ es -> f x = f y -> x = y.
Proof.
  induction es as [|a es IH]; intros Hnd Hx Hy Hf.
  - apply elem_of_nil in Hx. contradiction.
  - rewrite fmap_cons in Hnd. apply NoDup_cons in Hnd as [Ha Hnd].
    apply elem_of_cons in Hx as [-> | Hx]; apply elem_of_cons in Hy as [-> | Hy].
    + reflexivity.
    + exfalso. apply Ha. rewrite Hf. apply list_elem_of_fmap_2. exact Hy.
    + exfalso. apply Ha. rewrite <- Hf. apply list_elem_of_fmap_2. exact Hx.
    + apply IH; assumption.
Qed.

(** For envelopes with pairwise distinct ids, a permutation agrees with the
    arrival order on the ids of all positions only if it is the arrival
    order. *)
Lemma same_ids_same_order es es' :
  es' ≡ₚ es -> NoDup (messageId <$> es) ->
  (forall k x, es' !! k = Some x -> messageId x = (es !! k) ≫= messageId) <-> es' = es.
Proof.
  intros Hperm Hnd. split.
  - intros Hall. apply list_eq. intros k.
    destruct (es' !! k) as [x|] eqn:Hx.
    + pose proof (Hall k x Hx) as Hid.
      assert (Hk : (k < length es)%nat).
      { rewrite <- (Permutation_length Hperm). exact (lookup_lt_Some _ _ _ Hx). }
      destruct (lookup_lt_is_Some_2 es k Hk) as [y Hy]. rewrite Hy in Hid |- *.
      f_equal. apply (NoDup_fmap_inj_on messageId es); [exact Hnd | | | exact Hid].
      * rewrite <- Hperm. apply list_elem_of_lookup. eauto.
      * apply list_elem_of_lookup. eauto.
    + symmetry. apply lookup_ge_None. rewrite <- (Permutation_length Hperm).
      apply lookup_ge_None. exact Hx.
  - intros -> k x Hk. rewrite Hk. reflexivity.
Qed.

Lemma calculateDelay_frame w :
  exists delay state,
    calculateDelay w = (Ok delay, with_this (set_random state) w) /\ 0 <= delay.
Proof.
  unfold calculateDelay, bind, get_this.
  destruct (Qle_bool _ 0).
  - exists 0, (random (this w)). rewrite with_random_same. split; [reflexivity | lia].
  - rewrite this_random_eq. destruct (Qltb _ (3 # 10)).
    + rewrite this_random_eq. eexists _, _. split; [reflexivity | lia].
    + eexists _, _. split; [reflexivity | lia].
Qed.

(** Delivering the shuffled envelopes with a handler that does not raise:
    every envelope is passed on once, in shuffled order, by a call or by a
    timer; the configuration, the buffer and the counters other than
    [delayed] stay as they are. *)
Lemma deliver_each_delivers handler (slots : list Slot) w :
  (forall slot t, fst (handler slot t) = Ok tt) ->
  exists w' evs,
    deliver_each handler slots w = (Ok tt, w')
    /\ trace w' = trace w ++ evs
    /\ omap dispatched evs = slots
    /\ Forall (delivery_by handler) evs
    /\ config (this w') = config (this w)
    /\ messageBuffer (this w') = messageBuffer (this w)
    /\ reordered (stats (this w')) = reordered (stats (this w))
    /\ received (stats (this w')) = received (stats (this w))
    /\ outside w' = handler_calls handler (omap called evs) (outside w).
Proof.
  intros Hok. revert w. induction slots as [|slot slots IH]; intros w.
  - exists w, []. simpl. rewrite app_nil_r. repeat split. constructor.
  - simpl deliver_each. unfold bind at 1.
    destruct (calculateDelay_frame w) as (delay & state & -> & Hdelay).
    unfold bind at 1.
    destruct (0 <? delay) eqn:Hpos.
    + unfold bind at 1. unfold modify_this, emit.
      match goal with |- context [deliver_each handler slots ?w1] =>
        destruct (IH w1) as (w' & evs & -> & Htr & Hdisp & Hby & Hc & Hb & Hr & Hrc & Hout)
      end.
      eexists w', (_ :: evs). split; [reflexivity|].
      split; [rewrite Htr; simpl; rewrite <- app_assoc; reflexivity|].
      split; [simpl; f_equal; exact Hdisp|].
      split; [constructor; [|exact Hby]; simpl; split; [reflexivity|]|].
      { unfold Qle. simpl. lia. }
      rewrite Hc, Hb, Hr, Hrc, Hout. repeat split.
    + unfold call_handler, bind at 1. unfold emit, on_outside. simpl fst. simpl snd.
      rewrite Hok.
      match goal with |- context [deliver_each handler slots ?w1] =>
        destruct (IH w1) as (w' & evs & -> & Htr & Hdisp & Hby & Hc & Hb & Hr & Hrc & Hout)
      end.
      eexists w', (_ :: evs). split; [reflexivity|].
      split; [rewrite Htr; simpl; rewrite <- app_assoc; reflexivity|].
      split; [simpl; f_equal; exact Hdisp|].
      split; [constructor; [exact I | exact Hby]|].
      rewrite Hc, Hb, Hr, Hrc, Hout. repeat split.
Qed.

Lemma receive_buffers (envelope : MessageEnvelope) handler w :
  enabled (config (this w)) = true ->
  Z.of_nat (length (messageBuffer (this w))) + 1 < reorderWindow (config (this w)) ->
  processReceiveMessage envelope handler w = (Ok tt, after_push envelope w).
Proof.
  intros Hen Hwin. unfold processReceiveMessage, bind, modify_this, get_this. simpl.
  rewrite Hen. simpl.
  replace (0 <? reorderWindow (config (this w))) with true
    by (symmetry; apply Z.ltb_lt; lia).
  rewrite length_app. simpl.
  replace (reorderWindow (config (this w)) <=? _) with false
    by (symmetry; apply Z.leb_gt; lia).
  reflexivity.
Qed.

Lemma receive_flushes (envelope : MessageEnvelope) handler w :
  enabled (config (this w)) = true ->
  0 < reorderWindow (config (this w)) ->
  reorderWindow (config (this w)) <= Z.of_nat (length (messageBuffer (this w))) + 1 ->
  processReceiveMessage envelope handler w
  = flushReorderBuffer handler (after_push envelope w).
Proof.
  intros Hen Hpos Hwin. unfold processReceiveMessage, bind, modify_this, get_this. simpl.
  rewrite Hen. simpl.
  replace (0 <? reorderWindow (config (this w))) with true
    by (symmetry; apply Z.ltb_lt; lia).
  rewrite length_app. simpl.
  replace (reorderWindow (config (this w)) <=? _) with true
    by (symmetry; apply Z.leb_le; lia).
  reflexivity.
Qed.

(** While the buffer stays below the window, receive calls only count and
    buffer the envelopes. *)
Lemma receive_calls_buffer (first : list (MessageEnvelope * MessageHandler T)) w :
  enabled (config (this w)) = true ->
  Z.of_nat (length (messageBuffer (this w)) + length first) < reorderWindow (config (this w)) ->
  let w' := snd (run (receive_calls first) w) in
  fst (run (receive_calls first) w) = map (fun _ => Received) first
  /\ trace w' = trace w
  /\ messageBuffer (this w') = messageBuffer (this w) ++ map fst first
  /\ config (this w') = config (this w)
  /\ random (this w') = random (this w)
  /\ received (stats (this w')) = received (stats (this w)) + Z.of_nat (length first)
  /\ reordered (stats (this w')) = reordered (stats (this w))
  /\ outside w' = outside w.
Proof.
  revert w. induction first as [|[envelope handler] first IH]; intros w Hen Hwin.
  - simpl. rewrite app_nil_r. repeat split. lia.
  - unfold receive_calls. simpl map. rewrite run_cons. fold (receive_calls first).
    unfold run_call. rewrite receive_buffers by (simpl in Hwin; first [exact Hen | lia]).
    cbn [fst snd].
    destruct (IH (after_push envelope w)) as (IH1 & IH2 & IH3 & IH4 & IH5 & IH6 & IH7 & IH8).
    { exact Hen. }
    { simpl in *. rewrite length_app. simpl. lia. }
    cbn zeta in *. rewrite IH1, IH2, IH3, IH4, IH5, IH6, IH7, IH8. simpl.
    rewrite <- app_assoc. repeat split. lia.
Qed.

(** A flush of a buffer of envelopes with pairwise distinct ids, on a
    generator state that is not negative and with a handler that does not
    raise. *)
Lemma flush_delivers_all handler w :
  let es := messageBuffer (this w) in
  let n := Z.of_nat (length es) in
  es <> [] ->
  0 <= random (this w) ->
  NoDup (messageId <$> es) ->
  (forall slot t, fst (handler slot t) = Ok tt) ->
  exists es' evs w',
    flushReorderBuffer handler w = (Ok tt, w')
    /\ fst (shuffle_loop (length es - 1) (array_of es) w) = Ok (array_of es')
    /\ es' ≡ₚ es
    /\ trace w' = trace w ++ evs
    /\ omap dispatched evs = map Some es'
    /\ Forall (fun ev => delivery_by handler ev \/ ev = ConsoleLog (Reordering_messages n)) evs
    /\ messageBuffer (this w') = []
    /\ received (stats (this w')) = received (stats (this w))
    /\ (es' = es -> reordered (stats (this w')) = reordered (stats (this w)))
    /\ (es' <> es -> reordered (stats (this w')) = reordered (stats (this w)) + n)
    /\ outside w' = handler_calls handler (omap called evs) (outside w).
Proof.
  intros es n Hne Hst Hnd Hok.
  assert (Hlen : (length es - 1 < length es)%nat).
  { destruct es; [congruence | simpl; lia]. }
  destruct (shuffle_loop_permutes _ es w Hlen Hst) as (es' & state & Hshuffle & Hperm & _).
  destruct (some_changed_decides es' es 0) as (b & Hsome & Hb).
  assert (Hsame : b = false <-> es' = es).
  { rewrite Hb. apply same_ids_same_order; assumption. }
  unfold flushReorderBuffer, bind at 1. unfold get_this. fold es.
  replace (length es =? 0)%nat with false
    by (symmetry; apply Nat.eqb_neq; destruct es; [congruence | discriminate]).
  unfold bind at 1. rewrite Hshuffle. cbn [elements array_of].
  unfold bind at 1. unfold lift_result. rewrite Hsome.
  rewrite length_map, (Permutation_length Hperm). fold n.
  exists es'. destruct b.
  - unfold bind at 1. unfold bind at 1. unfold modify_this at 1. unfold emit.
    match goal with |- context [bind (deliver_each handler _) _ ?w1] =>
      destruct (deliver_each_delivers handler (map Some es') w1 Hok)
        as (w' & evs & Hrun & Htr & Hdisp & Hby & Hc & Hbuf & Hr & Hrc & Hout)
    end.
    exists (ConsoleLog (Reordering_messages n) :: evs). eexists.
    unfold bind. rewrite Hrun. unfold modify_this.
    split; [reflexivity|]. split; [reflexivity|]. split; [exact Hperm|].
    split; [simpl; rewrite Htr; simpl; rewrite <- app_assoc; reflexivity|].
    split; [exact Hdisp|].
    split.
    { constructor; [right; reflexivity|].
      eapply Forall_impl; [exact Hby|]. intros ev Hev. left. exact Hev. }
    split; [reflexivity|].
    split; [simpl; rewrite Hrc; reflexivity|].
    split; [intros Heq; apply Hsame in Heq; discriminate|].
    split; [intros _; simpl; rewrite Hr; reflexivity|].
    simpl. rewrite Hout. reflexivity.
  - unfold bind at 1. unfold ret at 1.
    match goal with |- context [bind (deliver_each handler _) _ ?w1] =>
      destruct (deliver_each_delivers handler (map Some es') w1 Hok)
        as (w' & evs & Hrun & Htr & Hdisp & Hby & Hc & Hbuf & Hr & Hrc & Hout)
    end.
    exists evs. eexists.
    unfold bind. rewrite Hrun. unfold modify_this.
    split; [reflexivity|]. split; [reflexivity|]. split; [exact Hperm|].
    split; [simpl; rewrite Htr; reflexivity|].
    split; [exact Hdisp|].
    split.
    { eapply Forall_impl; [exact Hby|]. intros ev Hev. left. exact Hev. }
    split; [reflexivity|].
    split; [simpl; rewrite Hrc; reflexivity|].
    split; [intros _; simpl; rewrite Hr; reflexivity|].
    split; [intros Hneq; exfalso; apply Hneq; apply Hsame; reflexivity|].
    simpl. rewrite Hout. reflexivity.
Qed.

(** C8, amended: with chaos enabled, an empty buffer, a generator state
    that is not negative, generator state and maxDelayMs below 2^1000, and
    reorderWindow = n > 0, feed n envelopes with pairwise distinct ids,
    the last one with a handler that does not raise.  The first n-1 calls
    only buffer.  The n-th call flushes once: the loop [shuffle_loop]
    yields a permutation of the arrival order, every buffered envelope is
    passed on exactly once, in the shuffled order, by a call at once or by
    a timer of at least 1 ms that calls the handler of the n-th call; the
    calls made at once are calls of that handler, one after the other on
    the state the collaborators had before the n calls; the buffer is
    empty afterwards, and [reordered] grows by n when the shuffled order
    differs from the arrival order and stays as it is otherwise. *)
Theorem flush_at_window_delivers_each_once
    (first : list (MessageEnvelope * MessageHandler T)) (envelope : MessageEnvelope)
    handler w :
  let es := map fst first ++ [envelope] in
  let n := Z.of_nat (length es) in
  enabled (config (this w)) = true ->
  reorderWindow (config (this w)) = n ->
  messageBuffer (this w) = [] ->
  0 <= random (this w) < 2 ^ 1000 ->
  (maxDelayMs (config (this w)) < 2 ^ 1000)%Q ->
  NoDup (messageId <$> es) ->
  (forall slot t, fst (handler slot t) = Ok tt) ->
  let before := run (receive_calls first) w in
  let last := run_call (Receive envelope handler) (snd before) in
  fst before = map (fun _ => Received) first
  /\ trace (snd before) = trace w
  /\ messageBuffer (this (snd before)) = map fst first
  /\ exists es' evs,
       fst last = Received
       /\ fst (shuffle_loop (length es - 1) (array_of es) (after_push envelope (snd before)))
          = Ok (array_of es')
       /\ es' ≡ₚ es
       /\ trace (snd last) = trace w ++ evs
       /\ omap dispatched evs = map Some es'
       /\ Forall (fun ev => delivery_by handler ev
                            \/ ev = ConsoleLog (Reordering_messages n)) evs
       /\ outside (snd last) = handler_calls handler (omap called evs) (outside w)
       /\ messageBuffer (this (snd last)) = []
       /\ received (stats (this (snd last))) = received (stats (this w)) + n
       /\ (es' = es -> reordered (stats (this (snd last))) = reordered (stats (this w)))
       /\ (es' <> es ->
           reordered (stats (this (snd last))) = reordered (stats (this w)) + n).
Proof.
  intros es n Hen Hwin Hempty [Hst _] _ Hnd Hok before last.
  assert (Hn : n = Z.of_nat (length first) + 1).
  { subst n es. rewrite length_app, length_map. simpl. lia. }
  destruct (receive_calls_buffer first w Hen) as (B1 & B2 & B3 & B4 & B5 & B6 & B7 & B8).
  { rewrite Hempty, Hwin. simpl. lia. }
  cbn zeta in *. fold before in B1, B2, B3, B4, B5, B6, B7, B8.
  rewrite Hempty in B3. simpl in B3.
  split; [exact B1|]. split; [exact B2|]. split; [exact B3|].
  assert (Hbuf : messageBuffer (this (after_push envelope (snd before))) = es).
  { simpl. rewrite B3. reflexivity. }
  destruct (flush_delivers_all handler (after_push envelope (snd before)))
    as (es' & evs & w' & Hflush & Hshuffle & Hperm & Htr & Hdisp & Hby & Hb & Hrc
        & Hsame & Hdiff & Hout).
  { rewrite Hbuf. subst es. intros Hnil. apply app_eq_nil in Hnil as [_ ?]. discriminate. }
  { simpl. rewrite B5. exact Hst. }
  { rewrite Hbuf. exact Hnd. }
  { exact Hok. }
  rewrite Hbuf in *. fold n in Hby, Hdiff.
  exists es', evs.
  assert (Hlast : last = (Received, w')).
  { subst last. unfold run_call. rewrite receive_flushes, Hflush; [reflexivity | | |].
    - rewrite B4. exact Hen.
    - rewrite B4, Hwin. lia.
    - rewrite B4, Hwin, B3, length_map. lia. }
  rewrite Hlast. cbn [fst snd].
  split; [reflexivity|]. split; [exact Hshuffle|]. split; [exact Hperm|].
  split; [rewrite Htr; simpl; rewrite B2; reflexivity|].
  split; [exact Hdisp|]. split; [exact Hby|].
  split; [rewrite Hout; simpl; rewrite B8; reflexivity|].
  split; [exact Hb|].
  split; [rewrite Hrc; simpl; rewrite B6; lia|].
  split.
  - intros Heq. rewrite (Hsame Heq). simpl. exact B7.
  - intros Hneq. rewrite (Hdiff Hneq). simpl. rewrite B7. reflexivity.
Qed.

End ReorderFacts.

(** Window 3, seed 12345, maxDelayMs 1000, a handler that counts its
    calls. *)
Lemma flush_at_window_delivers_each_once_witness :
  let w := Sample.world (Sample.config 0 0 1000 3 12345) 0 in
  let a := Sample.envelope "a" 1 in
  let b := Sample.envelope "b" 2 in
  let c := Sample.envelope "c" 3 in
  let first := [(a, Sample.failing_handler); (b, Sample.handler)] in
  let last := run_call (Receive c Sample.handler) (snd (run (receive_calls first) w)) in
  (enabled (config (this w)) = true
   /\ reorderWindow (config (this w)) = 3
   /\ messageBuffer (this w) = []
   /\ 0 <= random (this w) < 2 ^ 1000
   /\ (maxDelayMs (config (this w)) < 2 ^ 1000)%Q
   /\ NoDup (messageId <$> [a; b; c])
   /\ (forall slot t, fst (Sample.handler slot t) = Ok tt))
  /\ exists es' evs,
       es' ≡ₚ [a; b; c]
       /\ trace (snd last) = evs
       /\ omap dispatched evs = map Some es'
       /\ outside (snd last) = handler_calls Sample.handler (omap called evs) O
       /\ messageBuffer (this (snd last)) = [].
Proof.
  intros w a b c first last.
  assert (H1 : enabled (config (this w)) = true) by reflexivity.
  assert (H2 : reorderWindow (config (this w)) = 3) by reflexivity.
  assert (H3 : messageBuffer (this w) = []) by reflexivity.
  assert (H4 : 0 <= random (this w) < 2 ^ 1000) by (vm_compute; split; [discriminate | reflexivity]).
  assert (H5 : (maxDelayMs (config (this w)) < 2 ^ 1000)%Q) by (vm_compute; reflexivity).
  assert (H6 : NoDup (messageId <$> [a; b; c])).
  { apply (bool_decide_unpack _). vm_compute. exact I. }
  assert (H7 : forall slot t, fst (Sample.handler slot t) = Ok tt) by reflexivity.
  split; [repeat split; first [assumption | apply H4]|].
  destruct (flush_at_window_delivers_each_once first c Sample.handler w H1 H2 H3 H4 H5 H6 H7)
    as (_ & _ & _ & es' & evs & _ & _ & Hperm & Htr & Hdisp & _ & Hout & Hbuf & _).
  exists es', evs. repeat split; assumption.
Defined.

(** The statement of C8 without its amendments fails in two ways, both
    with window 2, envelopes with distinct ids and no delays.  (1) A handler
    that raises, seed 12345: the exception ends the flush at the first
    handler call and goes to the caller; one envelope has been handed over
    and both are still in the buffer.  (2) Seed -6 and a handler that does
    not raise (see [flush_raises_on_negative_seed]): the flush raises,
    nothing is handed over and both envelopes are still in the buffer. *)
Lemma flush_unamended_fails :
  let a := Sample.envelope "a" 1 in
  let b := Sample.envelope "b" 2 in
  let seeded_12345 := Sample.world (Sample.config 0 0 0 2 12345) 0 in
  let seeded_m6 := Sample.world (Sample.config 0 0 0 2 (-6)) 0 in
  let r1 := run (receive_calls [(a, Sample.failing_handler); (b, Sample.failing_handler)])
              seeded_12345 in
  let r2 := run (receive_calls [(a, Sample.handler); (b, Sample.handler)]) seeded_m6 in
  NoDup (messageId <$> [a; b])
  /\ (fst r1 = [Received; Rejected (ExternalError "handler failed")]
      /\ omap dispatched (trace (snd r1)) = [Some b]
      /\ messageBuffer (this (snd r1)) = [a; b])
  /\ (fst r2 = [Received; Rejected (TypeError "messageId")]
      /\ omap dispatched (trace (snd r2)) = []
      /\ messageBuffer (this (snd r2)) = [a; b]).
Proof.
  split; [apply (bool_decide_unpack _); vm_compute; exact I|].
  vm_compute. repeat split.
Qed.

(** On a proxy with chaos enabled, reorderWindow 2 and seed -6, fed two
    envelopes with distinct ids and a handler that does not raise: the
    generator state becomes -6509, the draw is negative and the shuffle
    index is -1.  The swap reads the property -1 of the copy, which is
    [undefined], into the last element and stores the envelope under -1,
    where the loops over the elements do not look.  The comparison with the
    arrival order reads [messageId] of the [undefined] element and raises a
    TypeError.  The second call is rejected, no envelope has been handed to
    the handler and both are still in the buffer. *)
Example flush_raises_on_negative_seed :
  let w := Sample.world (Sample.config 0 0 0 2 (-6)) 0 in
  let a := Sample.envelope "a" 1 in
  let b := Sample.envelope "b" 2 in
  let r := run (receive_calls [(a, Sample.handler); (b, Sample.handler)]) w in
  shuffle_index (draw_of (next_state (-6))) 1 = -1
  /\ elements (swap (array_of [a; b]) 1 (-1)) = [Some a; None]
  /\ properties (swap (array_of [a; b]) 1 (-1)) !! (-1) = Some (Some b)
  /\ fst r = [Received; Rejected (TypeError "messageId")]
  /\ omap dispatched (trace (snd r)) = []
  /\ messageBuffer (this (snd r)) = [a; b].
Proof. vm_compute. repeat split. Qed.

(** With reorderWindow 3 and seed -6 both shuffle indices are -1: the
    second swap reads back what the first stored under -1.  The elements
    end as a, c, [undefined]; the comparison stops at the second element,
    so nothing raises inside the proxy: the handler is called with a, with
    c and with [undefined], and b is handed to nobody. *)
Example flush_loses_an_envelope_on_negative_seed :
  let w := Sample.world (Sample.config 0 0 0 3 (-6)) 0 in
  let a := Sample.envelope "a" 1 in
  let b := Sample.envelope "b" 2 in
  let c := Sample.envelope "c" 3 in
  let r := run (receive_calls [(a, Sample.handler); (b, Sample.handler);
                               (c, Sample.handler)]) w in
  shuffle_index (draw_of (next_state (-6))) 2 = -1
  /\ shuffle_index (draw_of (next_state (next_state (-6)))) 1 = -1
  /\ fst r = [Received; Received; Received]
  /\ omap dispatched (trace (snd r)) = [Some a; Some c; None]
  /\ reordered (stats (this (snd r))) = 3
  /\ messageBuffer (this (snd r)) = [].
Proof. vm_compute. repeat split. Qed.

(** ** Determinism *)

Section Determinism.

Context {T : Type}.
Implicit Types (w : World T).

Lemma seeded_part_eq w1 w2 :
  seeded_part w1 = seeded_part w2 <->
  this w1 = this w2 /\ outside w1 = outside w2
  /\ map blank_delay (trace w1) = map blank_delay (trace w2).
Proof.
  split.
  - intros H. repeat split;
      [exact (f_equal this H) | exact (f_equal outside H) | exact (f_equal trace H)].
  - intros (Hthis & Hout & Htr). unfold seeded_part. rewrite Hthis, Hout, Htr. reflexivity.
Qed.

Lemma seeded_part_this w1 w2 : seeded_part w1 = seeded_part w2 -> this w1 = this w2.
Proof. intros H. apply seeded_part_eq in H. tauto. Qed.

Lemma seeded_part_outside w1 w2 : seeded_part w1 = seeded_part w2 -> outside w1 = outside w2.
Proof. intros H. apply seeded_part_eq in H. tauto. Qed.

Lemma seeded_part_with_this (f : ChaosProxy -> ChaosProxy) w1 w2 :
  seeded_part w1 = seeded_part w2 ->
  seeded_part (with_this f w1) = seeded_part (with_this f w2).
Proof.
  intros H. apply seeded_part_eq in H as (Hthis & Hout & Htr).
  apply seeded_part_eq. simpl. rewrite Hthis. repeat split; assumption.
Qed.

Lemma seeded_part_with_outside (t : T) w1 w2 :
  seeded_part w1 = seeded_part w2 ->
  seeded_part (with_outside t w1) = seeded_part (with_outside t w2).
Proof.
  intros H. apply seeded_part_eq in H as (Hthis & Hout & Htr).
  apply seeded_part_eq. simpl. repeat split; assumption.
Qed.

Lemma seeded_part_with_events (ev1 ev2 : Event T) w1 w2 :
  blank_delay ev1 = blank_delay ev2 ->
  seeded_part w1 = seeded_part w2 ->
  seeded_part (with_event ev1 w1) = seeded_part (with_event ev2 w2).
Proof.
  intros Hev H. apply seeded_part_eq in H as (Hthis & Hout & Htr).
  apply seeded_part_eq. simpl. rewrite !map_app, Htr. simpl. rewrite Hev.
  repeat split; assumption.
Qed.

Lemma seeded_part_Math_random_called w : seeded_part (with_Math_random_called w) = seeded_part w.
Proof. reflexivity. Qed.

Lemma seeded_ret {A} (a : A) : seeded (T := T) (ret a).
Proof. intros w1 w2 H. split; [reflexivity | exact H]. Qed.

Lemma seeded_bind {A B} (m : M T A) (k : A -> M T B) :
  seeded m -> (forall a, seeded (k a)) -> seeded (bind m k).
Proof.
  intros Hm Hk w1 w2 H. unfold bind.
  destruct (Hm w1 w2 H) as [Hr Hw].
  destruct (m w1) as [[a1|e1] w1'], (m w2) as [[a2|e2] w2']; simpl in *;
    try discriminate.
  - injection Hr as ->. apply Hk. exact Hw.
  - injection Hr as ->. split; [reflexivity | exact Hw].
Qed.

Lemma seeded_get_this : seeded (T := T) get_this.
Proof.
  intros w1 w2 H. split; [|exact H]. simpl. f_equal. apply seeded_part_this. exact H.
Qed.

Lemma seeded_modify_this (f : ChaosProxy -> ChaosProxy) : seeded (T := T) (modify_this f).
Proof.
  intros w1 w2 H. split; [reflexivity|]. apply seeded_part_with_this. exact H.
Qed.

Lemma seeded_emit (ev : Event T) : seeded (emit ev).
Proof.
  intros w1 w2 H. split; [reflexivity|]. apply seeded_part_with_events; [reflexivity | exact H].
Qed.

Lemma seeded_on_outside {A} (f : T -> Result A * T) : seeded (on_outside f).
Proof.
  intros w1 w2 H. unfold on_outside. simpl.
  rewrite (seeded_part_outside _ _ H). split; [reflexivity|].
  apply seeded_part_with_outside. exact H.
Qed.

Lemma seeded_lift_result {A} (r : Result A) : seeded (T := T) (lift_result r).
Proof. intros w1 w2 H. split; [reflexivity | exact H]. Qed.

Create HintDb seeded.
Local Hint Resolve seeded_ret seeded_get_this seeded_modify_this seeded_emit
  seeded_on_outside seeded_lift_result : seeded.

Ltac seeded_step :=
  first [ apply seeded_bind; [|intros ?]
        | match goal with |- seeded (if ?b then _ else _) => destruct b end
        | solve [auto with seeded] ].

Lemma seeded_this_random : seeded (T := T) this_random.
Proof. unfold this_random. repeat seeded_step. Qed.

Lemma seeded_call_sendFn (sendFn : SendFn T) : seeded (call_sendFn sendFn).
Proof. unfold call_sendFn. repeat seeded_step. Qed.

Lemma seeded_call_handler (handler : MessageHandler T) (envelope : Slot) :
  seeded (call_handler handler envelope).
Proof. unfold call_handler. repeat seeded_step. Qed.

Lemma seeded_calculateDelay : seeded (T := T) calculateDelay.
Proof.
  pose proof seeded_this_random.
  unfold calculateDelay. repeat seeded_step; assumption.
Qed.

(** The one use of [Math.random]: the value goes into the delay of the
    duplicate timer and nowhere else. *)
Lemma seeded_schedule_duplicate (sendFn : SendFn T) (id : option string) (delay : Q -> Q) :
  seeded (bind call_Math_random
            (fun u => emit (SetTimeout (DuplicateSend sendFn id) (delay u)))).
Proof.
  intros w1 w2 H. unfold bind, call_Math_random, emit. simpl. split; [reflexivity|].
  apply seeded_part_with_events; [reflexivity|].
  rewrite !seeded_part_Math_random_called. exact H.
Qed.

Lemma seeded_try_catch {A} (body : M T A) (handler : JsError -> M T A) :
  seeded body -> (forall e, seeded (handler e)) -> seeded (try_catch body handler).
Proof.
  intros Hbody Hhandler w1 w2 H. unfold try_catch.
  destruct (Hbody w1 w2 H) as [Hr Hw].
  destruct (body w1) as [[a1|e1] w1'], (body w2) as [[a2|e2] w2']; simpl in *;
    try discriminate.
  - split; [exact Hr | exact Hw].
  - injection Hr as ->. apply Hhandler. exact Hw.
Qed.

Lemma seeded_fire (callback : Callback T) : seeded (fire callback).
Proof.
  destruct callback as [sendFn id | handler envelope]; simpl.
  - apply seeded_try_catch; [|intros e; apply seeded_emit].
    apply seeded_bind; [apply seeded_call_sendFn | intros _; apply seeded_emit].
  - apply seeded_call_handler.
Qed.

Lemma seeded_processSendMessage (tempEnvelope : TempEnvelope) (sendFn : SendFn T) :
  seeded (processSendMessage tempEnvelope sendFn).
Proof.
  pose proof seeded_this_random. pose proof (seeded_call_sendFn sendFn).
  unfold processSendMessage.
  repeat first [ apply seeded_schedule_duplicate | assumption | seeded_step ].
Qed.

Lemma seeded_shuffle_loop (i : nat) (shuffled : JsArray) :
  seeded (T := T) (shuffle_loop i shuffled).
Proof.
  revert shuffled. induction i as [|i IH]; intros shuffled; simpl.
  - apply seeded_ret.
  - apply seeded_bind; [apply seeded_this_random | intros d; apply IH].
Qed.

Lemma seeded_deliver_each (handler : MessageHandler T) (shuffled : list Slot) :
  seeded (deliver_each handler shuffled).
Proof.
  pose proof seeded_calculateDelay.
  induction shuffled as [|envelope rest IH]; simpl.
  - apply seeded_ret.
  - pose proof (seeded_call_handler handler envelope).
    repeat first [ assumption | seeded_step ].
Qed.

Lemma seeded_flushReorderBuffer (handler : MessageHandler T) :
  seeded (flushReorderBuffer handler).
Proof.
  unfold flushReorderBuffer.
  repeat first [ apply seeded_shuffle_loop | apply seeded_deliver_each | seeded_step ].
Qed.

Lemma seeded_processReceiveMessage (envelope : MessageEnvelope) (handler : MessageHandler T) :
  seeded (processReceiveMessage envelope handler).
Proof.
  pose proof seeded_calculateDelay. pose proof (seeded_flushReorderBuffer handler).
  pose proof (seeded_call_handler handler (Some envelope)).
  unfold processReceiveMessage.
  repeat first [ assumption | seeded_step ].
Qed.

(** X13: Two runs of the same calls, with the same timers firing at the same
    points, by proxies in the same state (same configuration, counters,
    generator state and buffer) against the same collaborators, whatever
    [Math.random] returns in either run: the calls give the same results
    and leave the same proxy state, and the traces
    (sends, handler calls, log lines, timers with their callbacks and, for
    the delayed deliveries, their delays) agree in everything but the delays
    of the duplicate timers. *)
Theorem seeded_decisions_reproducible (calls : list (Call T)) w1 w2 :
  seeded_part w1 = seeded_part w2 ->
  fst (run calls w1) = fst (run calls w2)
  /\ this (snd (run calls w1)) = this (snd (run calls w2))
  /\ outside (snd (run calls w1)) = outside (snd (run calls w2))
  /\ map blank_delay (trace (snd (run calls w1))) = map blank_delay (trace (snd (run calls w2))).
Proof.
  intros H.
  assert (Hrun : fst (run calls w1) = fst (run calls w2)
                 /\ seeded_part (snd (run calls w1)) = seeded_part (snd (run calls w2))).
  { revert w1 w2 H. induction calls as [|c calls IH]; intros w1 w2 H.
    - split; [reflexivity | exact H].
    - rewrite !run_cons. cbn [fst snd].
      assert (Hc : fst (run_call c w1) = fst (run_call c w2)
                   /\ seeded_part (snd (run_call c w1)) = seeded_part (snd (run_call c w2))).
      { destruct c as [tempEnvelope sendFn | envelope handler | callback]; unfold run_call.
        - destruct (seeded_processSendMessage tempEnvelope sendFn w1 w2 H) as [Hr Hw].
          destruct (processSendMessage tempEnvelope sendFn w1) as [[r1|e1] w1'],
                   (processSendMessage tempEnvelope sendFn w2) as [[r2|e2] w2'];
            simpl in *; try discriminate; split; congruence.
        - destruct (seeded_processReceiveMessage envelope handler w1 w2 H) as [Hr Hw].
          destruct (processReceiveMessage envelope handler w1) as [[r1|e1] w1'],
                   (processReceiveMessage envelope handler w2) as [[r2|e2] w2'];
            simpl in *; try discriminate; split; congruence.
        - destruct (seeded_fire callback w1 w2 H) as [Hr Hw].
          destruct (fire callback w1) as [[r1|e1] w1'],
                   (fire callback w2) as [[r2|e2] w2'];
            simpl in *; try discriminate; split; congruence. }
      destruct Hc as [Hc1 Hc2]. destruct (IH _ _ Hc2) as [IH1 IH2].
      rewrite Hc1, IH1. split; [reflexivity | exact IH2]. }
  destruct Hrun as [Hr Hw]. split; [exact Hr|].
  apply seeded_part_eq in Hw. exact Hw.
Qed.

End Determinism.

(** C1: two proxies constructed with seed 12345 and the same configuration
    (dropRate 0, duplicateRate 1) are given the same single send.  Both
    duplicate the message, but the duplicate is scheduled after 50 ms in the
    run where [Math.random()] returns 0 and after 150 ms in the run where it
    returns 0.5: that delay is not drawn from the seeded generator, and the
    two traces differ.  And the draws of a seeded generator need not lie in
    [0, 1): the first draw of a proxy seeded with -6 is -6509/233280. *)
Theorem duplicate_delay_not_reproducible :
  let config := Sample.config 0 1 0 0 12345 in
  let calls := send_calls [(Sample.tempEnvelope, Sample.sendFn)] in
  let run1 := run calls (Sample.world config 0) in
  let run2 := run calls (Sample.world config (1 # 2)) in
  fst run1 = fst run2
  /\ this (snd run1) = this (snd run2)
  /\ duplicate_delays (trace (snd run1)) = [50%Q]
  /\ duplicate_delays (trace (snd run2)) = [150%Q]
  /\ trace (snd run1) <> trace (snd run2)
  /\ draw_of (next_state (-6)) = (-6509 # 233280)%Q.
Proof.
  intros config calls run1 run2.
  assert (H1 : duplicate_delays (trace (snd run1)) = [50%Q]) by (vm_compute; reflexivity).
  assert (H2 : duplicate_delays (trace (snd run2)) = [150%Q]) by (vm_compute; reflexivity).
  repeat split; try assumption; try (vm_compute; reflexivity).
  intros Heq. rewrite Heq, H2 in H1. discriminate.
Qed.

(** * Further properties *)

(** ** The checksum *)

Lemma ToInt32_range (z : Z) : - 2 ^ 31 <= ToInt32 z < 2 ^ 31.
Proof.
  unfold ToInt32. pose proof (Z.mod_pos_bound z (2 ^ 32) ltac:(lia)).
  cbv zeta. destruct (2 ^ 31 <=? z mod 2 ^ 32) eqn:H1;
    [apply Z.leb_le in H1 | apply Z.leb_gt in H1]; lia.
Qed.

Lemma ToInt32_mod (z : Z) : ToInt32 z mod 2 ^ 32 = z mod 2 ^ 32.
Proof.
  unfold ToInt32. cbv zeta. destruct (2 ^ 31 <=? z mod 2 ^ 32).
  - replace (z mod 2 ^ 32 - 2 ^ 32) with (z mod 2 ^ 32 + (-1) * 2 ^ 32) by lia.
    rewrite Z.mod_add by lia. apply Z.mod_mod. lia.
  - apply Z.mod_mod. lia.
Qed.

Lemma ToInt32_congr (a b : Z) : a mod 2 ^ 32 = b mod 2 ^ 32 -> ToInt32 a = ToInt32 b.
Proof. intros H. unfold ToInt32. rewrite H. reflexivity. Qed.

Lemma ToInt32_id (z : Z) : - 2 ^ 31 <= z < 2 ^ 31 -> ToInt32 z = z.
Proof.
  intros H. unfold ToInt32. cbv zeta.
  destruct (Z_lt_le_dec z 0).
  - replace (z mod 2 ^ 32) with (z + 2 ^ 32).
    + replace (2 ^ 31 <=? z + 2 ^ 32) with true by (symmetry; apply Z.leb_le; lia). lia.
    + apply Z.mod_unique with (-1); lia.
  - rewrite Z.mod_small by lia.
    replace (2 ^ 31 <=? z) with false by (symmetry; apply Z.leb_gt; lia). reflexivity.
Qed.

Lemma ToInt32_eq (z : Z) : exists k, ToInt32 z = z + k * 2 ^ 32.
Proof.
  unfold ToInt32. cbv zeta. pose proof (Z.div_mod z (2 ^ 32) ltac:(lia)) as Hdiv.
  destruct (2 ^ 31 <=? z mod 2 ^ 32).
  - exists (- (z / 2 ^ 32) - 1). lia.
  - exists (- (z / 2 ^ 32)). lia.
Qed.

(** One round of the loop is [hash * 31 + char], wrapped to 32 bits. *)
Lemma hash_step_wraps (hash char : Z) :
  MessageUtils.hash_step hash char = ToInt32 (31 * hash + char).
Proof.
  unfold MessageUtils.hash_step, js_and, js_shl. cbv zeta. rewrite Z.land_diag.
  apply ToInt32_congr.
  change (5 mod 32) with 5. rewrite Z.shiftl_mul_pow2 by lia.
  destruct (ToInt32_eq hash) as [k1 E1].
  destruct (ToInt32_eq (ToInt32 hash * 2 ^ 5)) as [k2 E2].
  rewrite E2, E1.
  replace ((hash + k1 * 2 ^ 32) * 2 ^ 5 + k2 * 2 ^ 32 - hash + char)
    with (31 * hash + char + (32 * k1 + k2) * 2 ^ 32) by lia.
  apply Z.mod_add. lia.
Qed.

Lemma fold_hash_step (codes : list Z) (h h' : Z) :
  h mod 2 ^ 32 = h' mod 2 ^ 32 ->
  fold_left MessageUtils.hash_step codes h mod 2 ^ 32
  = fold_left (fun hash char => 31 * hash + char) codes h' mod 2 ^ 32.
Proof.
  revert h h'. induction codes as [|c codes IH]; intros h h' Hh; [exact Hh|].
  simpl. apply IH. rewrite hash_step_wraps, ToInt32_mod.
  rewrite (Z.add_mod (31 * h)), (Z.add_mod (31 * h')) by lia.
  rewrite (Z.mul_mod 31 h), (Z.mul_mod 31 h'), Hh by lia. reflexivity.
Qed.

Lemma fold_hash_step_range (codes : list Z) (h : Z) :
  - 2 ^ 31 <= h < 2 ^ 31 -> - 2 ^ 31 <= fold_left MessageUtils.hash_step codes h < 2 ^ 31.
Proof.
  revert h. induction codes as [|c codes IH]; intros h Hh; [exact Hh|].
  simpl. apply IH. rewrite hash_step_wraps. apply ToInt32_range.
Qed.

(** X1: The hash behind the checksum is the polynomial
    [c1 * 31^(n-1) + ... + cn] of the character codes, wrapped to a signed
    32-bit integer; it always lies in [-2^31, 2^31). *)
Theorem hash_string_is_wrapped_polynomial (payloadStr : string) :
  MessageUtils.hash_string payloadStr
  = ToInt32 (polynomial (MessageUtils.charCodes payloadStr))
  /\ - 2 ^ 31 <= MessageUtils.hash_string payloadStr < 2 ^ 31.
Proof.
  unfold MessageUtils.hash_string, polynomial.
  assert (Hr : - 2 ^ 31 <= fold_left MessageUtils.hash_step (MessageUtils.charCodes payloadStr) 0
               < 2 ^ 31) by (apply fold_hash_step_range; lia).
  split; [|exact Hr].
  rewrite <- (ToInt32_id _ Hr) at 1. apply ToInt32_congr, fold_hash_step. reflexivity.
Qed.

(** ** The sequence allocator *)

Lemma counters_after_app (calls calls' : list MessageUtils.Call) (sequenceCounters : gmap string Z) :
  counters_after (calls ++ calls') sequenceCounters
  = counters_after calls' (counters_after calls sequenceCounters).
Proof.
  revert sequenceCounters. induction calls as [|[uuid now s mt p d | s] calls IH];
    intros sequenceCounters; simpl; [reflexivity | apply IH | apply IH].
Qed.

Lemma counters_after_count (calls : list MessageUtils.Call)
    (sequenceCounters : gmap string Z) (s : string) :
  Forall (fun c => c <> MessageUtils.Reset s) calls ->
  MessageUtils.getSequenceCounter (counters_after calls sequenceCounters) s
  = MessageUtils.getSequenceCounter sequenceCounters s
    + Z.of_nat (length (filter (fun c => MessageUtils.is_create_for s c = true) calls)).
Proof.
  intros Hreset. revert sequenceCounters.
  induction calls as [|call calls IH]; intros sequenceCounters; [simpl; lia|].
  apply Forall_cons in Hreset as [Hcall Hreset]. specialize (IH Hreset).
  destruct call as [uuid now s' messageType payload destinationNode | s']; simpl counters_after.
  - rewrite IH, createMessage_counter, getSequenceCounter_insert, filter_cons.
    simpl MessageUtils.is_create_for. case_bool_decide as Hs.
    + subst s'. rewrite decide_True by reflexivity. simpl length. lia.
    + rewrite decide_False by discriminate. reflexivity.
  - rewrite IH, getSequenceCounter_reset by congruence.
    rewrite filter_cons. simpl. reflexivity.
Qed.

(** X2: [getSequenceCounter] counts the [createMessage] calls made for a node
    since its counter was last unset, whether they returned an envelope or
    raised: after calls that do not reset the counter of [s] it has grown by
    the number of [createMessage] calls for [s]. *)
Theorem getSequenceCounter_counts_calls (calls : list MessageUtils.Call)
    (sequenceCounters : gmap string Z) (s : string) :
  Forall (fun c => c <> MessageUtils.Reset s) calls ->
  MessageUtils.getSequenceCounter (counters_after calls sequenceCounters) s
  = MessageUtils.getSequenceCounter sequenceCounters s
    + Z.of_nat (length (filter (fun c => MessageUtils.is_create_for s c = true) calls)).
Proof. apply counters_after_count. Qed.

Lemma getSequenceCounter_counts_calls_witness :
  let calls := [MessageUtils.Create "id-1" 0 "sat-1" TELEMETRY JNull None;
                MessageUtils.Create "id-2" 1 "sat-1" HEARTBEAT JUndefined None;
                MessageUtils.Reset "ground";
                MessageUtils.Create "id-3" 2 "ground" COMMAND (JInt 1) None;
                MessageUtils.Create "id-4" 3 "sat-1" TELEMETRY (JString "ok") None] in
  Forall (fun c => c <> MessageUtils.Reset "sat-1") calls
  /\ MessageUtils.getSequenceCounter (counters_after calls ∅) "sat-1" = 3.
Proof.
  intros calls.
  assert (Hreset : Forall (fun c => c <> MessageUtils.Reset "sat-1") calls).
  { repeat constructor; discriminate. }
  split; [exact Hreset|].
  rewrite (getSequenceCounter_counts_calls calls ∅ "sat-1" Hreset). reflexivity.
Defined.

(** X3: After [resetSequenceCounter(s)], whatever came before, the next
    envelope of [s] carries sequence number 1 again. *)
Theorem reset_restarts_numbering (calls : list MessageUtils.Call)
    (sequenceCounters : gmap string Z) (uuid : string) (now : Z) (s : string)
    (messageType : MessageType) (payload : Json) (destinationNode : option string) :
  JSON_stringify payload <> None ->
  exists envelope,
    fst (MessageUtils.createMessage
           (counters_after (calls ++ [MessageUtils.Reset s]) sequenceCounters)
           uuid now s messageType payload destinationNode) = Ok envelope
    /\ sequenceNumber envelope = Some 1.
Proof.
  intros Hser.
  destruct (createMessage_returns
              (counters_after (calls ++ [MessageUtils.Reset s]) sequenceCounters)
              uuid now s messageType payload destinationNode Hser)
    as (envelope & Hcreate & Hseq & _).
  exists envelope. split; [exact Hcreate|]. rewrite Hseq. f_equal.
  rewrite counters_after_app. simpl.
  unfold MessageUtils.getSequenceCounter, MessageUtils.resetSequenceCounter.
  rewrite lookup_delete_eq. reflexivity.
Qed.

Lemma reset_restarts_numbering_witness :
  JSON_stringify (JString "again") <> None
  /\ exists envelope,
       fst (MessageUtils.createMessage
              (counters_after
                 ([MessageUtils.Create "id-1" 0 "sat-1" TELEMETRY JNull None;
                   MessageUtils.Create "id-2" 1 "sat-1" TELEMETRY JNull None]
                  ++ [MessageUtils.Reset "sat-1"]) ∅)
              "id-3" 2 "sat-1" TELEMETRY (JString "again") None) = Ok envelope
       /\ sequenceNumber envelope = Some 1.
Proof.
  assert (Hser : JSON_stringify (JString "again") <> None) by discriminate.
  split; [exact Hser|].
  exact (reset_restarts_numbering _ ∅ "id-3" 2 "sat-1" TELEMETRY (JString "again") None Hser).
Defined.

Lemma counters_after_nonneg (calls : list MessageUtils.Call) (sequenceCounters : gmap string Z) :
  (forall s, 0 <= MessageUtils.getSequenceCounter sequenceCounters s) ->
  forall s, 0 <= MessageUtils.getSequenceCounter (counters_after calls sequenceCounters) s.
Proof.
  revert sequenceCounters.
  induction calls as [|[uuid now s' mt p d | s'] calls IH]; intros sequenceCounters Hpos;
    simpl; [exact Hpos | apply IH | apply IH].
  - intros s. rewrite createMessage_counter, getSequenceCounter_insert.
    case_bool_decide; [specialize (Hpos s'); lia | apply Hpos].
  - intros s. unfold MessageUtils.getSequenceCounter, MessageUtils.resetSequenceCounter.
    destruct (decide (s' = s)) as [->|Hne].
    + rewrite lookup_delete_eq. lia.
    + rewrite lookup_delete_ne by exact Hne. apply Hpos.
Qed.

(** X4: Round trip.  Whatever calls the allocator has served since the process
    started, an envelope that [createMessage] returns is accepted by
    [validateMessage] exactly when neither its id nor its source node is the
    empty string; in particular every envelope of a node with a non-empty id
    validates. *)
Theorem created_envelope_validates (calls : list MessageUtils.Call)
    (uuid : string) (now : Z) (s : string) (messageType : MessageType) (payload : Json)
    (destinationNode : option string) (envelope : MessageEnvelope) :
  fst (MessageUtils.createMessage (counters_after calls ∅) uuid now s messageType payload
         destinationNode) = Ok envelope ->
  MessageUtils.validateMessage envelope = Ok (bool_decide (uuid <> "" /\ s <> "")).
Proof.
  intros Hcreate.
  pose proof (counters_after_nonneg calls ∅ (fun _ => Z.le_refl 0) s) as Hcount.
  unfold MessageUtils.createMessage in Hcreate.
  destruct (MessageUtils.calculateChecksum payload) as [sum|e] eqn:Hsum; simpl in Hcreate;
    [|discriminate].
  injection Hcreate as <-. unfold MessageUtils.validateMessage. simpl.
  destruct (String.eqb_spec uuid "") as [->|Huuid]; cbn [orb].
  { rewrite bool_decide_eq_false_2 by tauto. reflexivity. }
  destruct (String.eqb_spec s "") as [->|Hs]; cbn [orb].
  { rewrite bool_decide_eq_false_2 by tauto. reflexivity. }
  replace (String.eqb (MessageType_value messageType) "") with false
    by (destruct messageType; reflexivity).
  cbn [orb]. replace (_ <=? 0) with false by (symmetry; apply Z.leb_gt; lia).
  rewrite Hsum. unfold strict_ne. rewrite String.eqb_refl. cbn [negb].
  rewrite bool_decide_eq_true_2 by tauto. reflexivity.
Qed.

Lemma created_envelope_validates_witness :
  let calls := [MessageUtils.Create "id-1" 0 "sat-1" TELEMETRY JNull None;
                MessageUtils.Reset "sat-1"] in
  let created := fst (MessageUtils.createMessage (counters_after calls ∅) "id-2" 5 "sat-1"
                        COMMAND (JArray [JInt 1; JString "go"]) (Some "ground")) in
  exists envelope,
    created = Ok envelope /\ MessageUtils.validateMessage envelope = Ok true.
Proof.
  intros calls created. eexists. split; [reflexivity|].
  rewrite (created_envelope_validates calls "id-2" 5 "sat-1" COMMAND
             (JArray [JInt 1; JString "go"]) (Some "ground") _ eq_refl).
  reflexivity.
Defined.

(** ** Staleness *)

(** X5: [isStaleMessage] against the counter of the sender: an envelope is
    stale exactly when its node has called [createMessage] more than
    [windowSize] times since (100 when no window is given). *)
Theorem message_goes_stale_after_window (calls : list MessageUtils.Call)
    (sequenceCounters : gmap string Z) (uuid : string) (now : Z) (s : string)
    (messageType : MessageType) (payload : Json) (destinationNode : option string)
    (envelope : MessageEnvelope) (windowSize : option Z) :
  let created := MessageUtils.createMessage sequenceCounters uuid now s messageType payload
                   destinationNode in
  fst created = Ok envelope ->
  Forall (fun c => c <> MessageUtils.Reset s) calls ->
  isStaleMessage envelope
    (MessageUtils.getSequenceCounter (counters_after calls (snd created)) s) windowSize
  = bool_decide
      (default 100 windowSize
       < Z.of_nat (length (filter (fun c => MessageUtils.is_create_for s c = true) calls))).
Proof.
  intros created Hcreate Hreset.
  rewrite counters_after_count by exact Hreset.
  unfold created in *. rewrite createMessage_counter, getSequenceCounter_insert.
  rewrite bool_decide_eq_true_2 by reflexivity.
  unfold MessageUtils.createMessage in Hcreate.
  destruct (MessageUtils.calculateChecksum payload) as [sum|e]; simpl in Hcreate;
    [|discriminate].
  injection Hcreate as <-. unfold isStaleMessage. simpl.
  case_bool_decide; [apply Z.ltb_lt | apply Z.ltb_ge]; lia.
Qed.

Lemma message_goes_stale_after_window_witness :
  let created := MessageUtils.createMessage ∅ "id-1" 0 "sat-1" TELEMETRY JNull None in
  let calls := [MessageUtils.Create "id-2" 1 "sat-1" TELEMETRY JNull None;
                MessageUtils.Create "id-3" 2 "ground" COMMAND JNull None;
                MessageUtils.Create "id-4" 3 "sat-1" TELEMETRY JUndefined None;
                MessageUtils.Create "id-5" 4 "sat-1" TELEMETRY JNull None] in
  exists envelope,
    (fst created = Ok envelope
     /\ Forall (fun c => c <> MessageUtils.Reset "sat-1") calls)
    /\ isStaleMessage envelope
         (MessageUtils.getSequenceCounter (counters_after calls (snd created)) "sat-1")
         (Some 2) = true.
Proof.
  intros created calls. eexists.
  assert (Hreset : Forall (fun c => c <> MessageUtils.Reset "sat-1") calls).
  { repeat constructor; discriminate. }
  split; [split; [reflexivity | exact Hreset]|].
  exact (eq_trans
           (message_goes_stale_after_window calls ∅ "id-1" 0 "sat-1" TELEMETRY JNull None _
              (Some 2) eq_refl Hreset)
           eq_refl).
Defined.

(** ** The consumer: duplicates, eviction and handlers *)

Section ConsumerFacts.

Context {T : Type}.
Implicit Types (c : KafkaConsumer.State T) (t : T) (seen : list (option string)).

Lemma record_seen_remembers (id : option string) seen :
  NoDup seen -> id ∉ seen -> id ∈ KafkaConsumer.record_seen id seen.
Proof.
  intros Hnd Hnew. rewrite (record_seen_new id seen Hnd Hnew).
  destruct (KafkaConsumer.maxSeenIds <? _) eqn:Hover.
  - apply Z.ltb_lt in Hover. rewrite length_app in Hover. simpl in Hover.
    unfold KafkaConsumer.maxSeenIds in Hover.
    rewrite drop_app_le by lia. apply elem_of_app. right. apply list_elem_of_singleton.
    reflexivity.
  - apply elem_of_app. right. apply list_elem_of_singleton. reflexivity.
Qed.

(** What is left of a valid, new record once [handleMessage] is done with
    it: the id is in the seen-set whether a handler was found, returned or
    raised. *)
Lemma handleMessage_marks_seen (envelope : MessageEnvelope) c t :
  NoDup (KafkaConsumer.seenMessageIds c) ->
  MessageUtils.validateMessage envelope = Ok true ->
  messageId envelope ∉ KafkaConsumer.seenMessageIds c ->
  let c' := fst (fst (KafkaConsumer.handleMessage (Parsed envelope) c t)) in
  messageId envelope ∈ KafkaConsumer.seenMessageIds c'
  /\ KafkaConsumer.messageHandlers c' = KafkaConsumer.messageHandlers c
  /\ KafkaConsumer.nodeId c' = KafkaConsumer.nodeId c.
Proof.
  intros Hnd Hval Hnew. simpl. rewrite Hval.
  unfold MessageUtils.isDuplicateMessage. rewrite bool_decide_eq_false_2 by exact Hnew.
  pose proof (record_seen_remembers _ _ Hnd Hnew) as Hin.
  destruct (messageType envelope ≫= _) as [handler|]; [|simpl; repeat split; exact Hin].
  simpl. destruct (handler (Some envelope) t) as [[[]|error] t']; simpl;
    repeat split; exact Hin.
Qed.

Lemma handleMessage_duplicate (envelope : MessageEnvelope) c t :
  MessageUtils.validateMessage envelope = Ok true ->
  messageId envelope ∈ KafkaConsumer.seenMessageIds c ->
  KafkaConsumer.handleMessage (Parsed envelope) c t
  = (c, t, [KafkaConsumer.Duplicate_message (messageId envelope)]).
Proof.
  intros Hval Hin. simpl. rewrite Hval. unfold MessageUtils.isDuplicateMessage.
  rewrite bool_decide_eq_true_2 by exact Hin. reflexivity.
Qed.

(** X7: Handling a record a second time, right after the first, changes
    nothing: the consumer state and the collaborators stay as the first call
    left them and no handler runs; a valid envelope is reported as a
    duplicate.  This holds in every state a consumer can reach from an empty
    seen-set. *)
Theorem redelivery_is_skipped (nodeId : string) (handlers : gmap string (MessageHandler T))
    (values : list RecordValue) (value : RecordValue) (t : T) :
  let start := {| KafkaConsumer.nodeId := nodeId; KafkaConsumer.messageHandlers := handlers;
                  KafkaConsumer.seenMessageIds := [] |} in
  let c := fst (KafkaConsumer.consume values start t) in
  let t0 := snd (KafkaConsumer.consume values start t) in
  let first := KafkaConsumer.handleMessage value c t0 in
  let second := KafkaConsumer.handleMessage value (fst (fst first)) (snd (fst first)) in
  fst second = fst first
  /\ (forall envelope, KafkaConsumer.Received envelope ∉ snd second)
  /\ (forall envelope, value = Parsed envelope ->
      MessageUtils.validateMessage envelope = Ok true ->
      snd second = [KafkaConsumer.Duplicate_message (messageId envelope)]).
Proof.
  intros start c t0 first second.
  assert (Hok : KafkaConsumer.seen_ok (KafkaConsumer.seenMessageIds c)).
  { apply consume_seen_ok. split; [apply NoDup_nil_2 | unfold KafkaConsumer.maxSeenIds; simpl; lia]. }
  destruct Hok as [Hnd _].
  destruct value as [|error|envelope].
  - subst second first. simpl. repeat split; [intros e He; inversion He | discriminate].
  - subst second first. simpl. repeat split; [|discriminate].
    intros e He. apply list_elem_of_singleton in He. discriminate.
  - destruct (MessageUtils.validateMessage envelope) as [[|]|error] eqn:Hval.
    + assert (Hsecond : second = (fst (fst first), snd (fst first),
                                  [KafkaConsumer.Duplicate_message (messageId envelope)])).
      { subst second. apply handleMessage_duplicate; [exact Hval|].
        destruct (decide (messageId envelope ∈ KafkaConsumer.seenMessageIds c)) as [Hin|Hnew].
        - subst first. rewrite (handleMessage_duplicate _ _ _ Hval Hin). exact Hin.
        - apply (handleMessage_marks_seen envelope c t0 Hnd Hval Hnew). }
      rewrite Hsecond. simpl. split; [destruct first as [[? ?] ?]; reflexivity|].
      split; [|intros e [= <-] _; reflexivity].
      intros e He. apply list_elem_of_singleton in He. discriminate.
    + subst second first. simpl. rewrite Hval. simpl. rewrite ?Hval. simpl.
      repeat split; [|intros e [= <-]; congruence].
      intros e He. apply list_elem_of_singleton in He. discriminate.
    + subst second first. simpl. rewrite Hval. simpl. rewrite ?Hval. simpl.
      repeat split; [|intros e [= <-]; congruence].
      intros e He. apply list_elem_of_singleton in He. discriminate.
Qed.

(** X8: A handler only ever acts on an envelope that validates and whose id is
    not in the seen-set: when a [handleMessage] call has changed the state of
    the collaborators, the record was such an envelope and the change is the
    one made by the handler registered for its message type. *)
Theorem only_valid_new_envelopes_are_handled (value : RecordValue) c t :
  snd (fst (KafkaConsumer.handleMessage value c t)) <> t ->
  exists envelope type handler,
    value = Parsed envelope
    /\ MessageUtils.validateMessage envelope = Ok true
    /\ (messageId envelope ∉ KafkaConsumer.seenMessageIds c)
    /\ messageType envelope = Some type
    /\ KafkaConsumer.messageHandlers c !! type = Some handler
    /\ snd (fst (KafkaConsumer.handleMessage value c t)) = snd (handler (Some envelope) t).
Proof.
  destruct value as [|error|envelope]; simpl; try congruence.
  destruct (MessageUtils.validateMessage envelope) as [[|]|error] eqn:Hval; simpl; try congruence.
  unfold MessageUtils.isDuplicateMessage. case_bool_decide as Hdup; simpl; [congruence|].
  destruct (messageType envelope) as [type|] eqn:Htype; simpl; [|congruence].
  destruct (KafkaConsumer.messageHandlers c !! type) as [handler|] eqn:Hh; simpl;
    [|congruence].
  intros Hchanged. exists envelope, type, handler.
  repeat split; try first [reflexivity | assumption].
  destruct (handler (Some envelope) t) as [[[]|error] t']; reflexivity.
Qed.

(** X9: A record is marked as seen before its handler is looked up.  A valid
    envelope that arrives while no handler is registered for its type is
    therefore lost: it is logged, no handler runs, and when it is delivered
    again after [onMessage] has registered a handler it is skipped as a
    duplicate. *)
Theorem envelope_before_registration_is_lost (envelope : MessageEnvelope)
    (type : MessageType) (handler : MessageHandler T) c t :
  NoDup (KafkaConsumer.seenMessageIds c) ->
  MessageUtils.validateMessage envelope = Ok true ->
  messageId envelope ∉ KafkaConsumer.seenMessageIds c ->
  messageType envelope = Some (MessageType_value type) ->
  KafkaConsumer.messageHandlers c !! MessageType_value type = None ->
  let first := KafkaConsumer.handleMessage (Parsed envelope) c t in
  let c' := KafkaConsumer.onMessage type handler (fst (fst first)) in
  snd first = [KafkaConsumer.Received envelope;
               KafkaConsumer.No_handler_for (messageType envelope)]
  /\ snd (fst first) = t
  /\ KafkaConsumer.handleMessage (Parsed envelope) c' t
     = (c', t, [KafkaConsumer.Duplicate_message (messageId envelope)]).
Proof.
  intros Hnd Hval Hnew Htype Hnone first c'.
  destruct (handleMessage_marks_seen envelope c t Hnd Hval Hnew) as (Hin & _).
  fold first in Hin.
  assert (Hfirst : snd first = [KafkaConsumer.Received envelope;
                                KafkaConsumer.No_handler_for (messageType envelope)]
                   /\ snd (fst first) = t).
  { subst first. simpl. rewrite Hval. unfold MessageUtils.isDuplicateMessage.
    rewrite bool_decide_eq_false_2 by exact Hnew. rewrite Htype. simpl.
    match goal with |- context [match ?x with Some _ => _ | None => _ end] =>
      replace x with (@None (MessageHandler T)) by (symmetry; exact Hnone)
    end.
    split; reflexivity. }
  destruct Hfirst as [Hlogs Ht]. split; [exact Hlogs|]. split; [exact Ht|].
  apply handleMessage_duplicate; [exact Hval | exact Hin].
Qed.

(** X10: The price of the bounded seen-set.  When the set holds 10000 ids and a
    new valid envelope arrives, the 1000 oldest ids are forgotten: an
    envelope with one of those ids that is delivered again is received as if
    it were new, while one with any of the other 9000 ids is still skipped. *)
Theorem evicted_ids_are_accepted_again (new old : MessageEnvelope) c t :
  NoDup (KafkaConsumer.seenMessageIds c) ->
  Z.of_nat (length (KafkaConsumer.seenMessageIds c)) = 10000 ->
  MessageUtils.validateMessage new = Ok true ->
  messageId new ∉ KafkaConsumer.seenMessageIds c ->
  MessageUtils.validateMessage old = Ok true ->
  messageId old ∈ KafkaConsumer.seenMessageIds c ->
  let first := KafkaConsumer.handleMessage (Parsed new) c t in
  let second := KafkaConsumer.handleMessage (Parsed old) (fst (fst first)) (snd (fst first)) in
  (messageId old ∈ take 1000 (KafkaConsumer.seenMessageIds c) ->
   exists logs, snd second = KafkaConsumer.Received old :: logs)
  /\ (messageId old ∈ drop 1000 (KafkaConsumer.seenMessageIds c) ->
      snd second = [KafkaConsumer.Duplicate_message (messageId old)]).
Proof.
  intros Hnd Hlen Hnew Hfresh Hold Hin first second.
  assert (Hseen : KafkaConsumer.seenMessageIds (fst (fst first))
                  = drop 1000 (KafkaConsumer.seenMessageIds c) ++ [messageId new]).
  { subst first. simpl. rewrite Hnew. unfold MessageUtils.isDuplicateMessage.
    rewrite bool_decide_eq_false_2 by exact Hfresh.
    assert (Hrec : KafkaConsumer.record_seen (messageId new) (KafkaConsumer.seenMessageIds c)
                   = drop 1000 (KafkaConsumer.seenMessageIds c) ++ [messageId new]).
    { rewrite (record_seen_new _ _ Hnd Hfresh), length_app. simpl.
      unfold KafkaConsumer.maxSeenIds.
      replace (10000 <? _) with true by (symmetry; apply Z.ltb_lt; lia).
      apply drop_app_le. lia. }
    destruct (messageType new ≫= _) as [handler|]; [|simpl; exact Hrec].
    simpl. destruct (handler (Some new) t) as [[[]|error] t']; simpl; exact Hrec. }
  rewrite <- (take_drop 1000 (KafkaConsumer.seenMessageIds c)) in Hnd.
  apply NoDup_app in Hnd as (_ & Hdisj & _).
  split.
  - intros Htake. subst second. simpl. rewrite Hold. unfold MessageUtils.isDuplicateMessage.
    rewrite bool_decide_eq_false_2.
    + destruct (messageType old ≫= _) as [handler|]; [|eexists; reflexivity].
      simpl. destruct (handler (Some old) _) as [[[]|error] t']; eexists; reflexivity.
    + rewrite Hseen. intros Hmem. apply elem_of_app in Hmem as [Hmem|Hmem].
      * exact (Hdisj _ Htake Hmem).
      * apply list_elem_of_singleton in Hmem. apply Hfresh. rewrite <- Hmem. exact Hin.
  - intros Hdrop. subst second. rewrite handleMessage_duplicate; [reflexivity | exact Hold |].
    rewrite Hseen. apply elem_of_app. left. exact Hdrop.
Qed.

End ConsumerFacts.

Lemma only_valid_new_envelopes_are_handled_witness :
  let c := KafkaConsumer.onMessage TELEMETRY Sample.handler (KafkaConsumer.new "ground") in
  let value := Parsed (Sample.envelope "m-1" 1) in
  snd (fst (KafkaConsumer.handleMessage value c O)) <> O
  /\ exists envelope,
       value = Parsed envelope /\ MessageUtils.validateMessage envelope = Ok true.
Proof.
  intros c value.
  assert (H : snd (fst (KafkaConsumer.handleMessage value c O)) <> O)
    by (vm_compute; discriminate).
  split; [exact H|].
  destruct (only_valid_new_envelopes_are_handled value c O H)
    as (envelope & _ & _ & Hv & Hval & _).
  exists envelope. split; assumption.
Defined.

Lemma envelope_before_registration_is_lost_witness :
  let c := KafkaConsumer.new (T := nat) "ground" in
  let envelope := Sample.envelope "m-1" 1 in
  let first := KafkaConsumer.handleMessage (Parsed envelope) c O in
  let c' := KafkaConsumer.onMessage TELEMETRY Sample.handler (fst (fst first)) in
  (NoDup (KafkaConsumer.seenMessageIds c)
   /\ MessageUtils.validateMessage envelope = Ok true
   /\ (messageId envelope ∉ KafkaConsumer.seenMessageIds c)
   /\ messageType envelope = Some (MessageType_value TELEMETRY)
   /\ KafkaConsumer.messageHandlers c !! MessageType_value TELEMETRY = None)
  /\ KafkaConsumer.handleMessage (Parsed envelope) c' O
     = (c', O, [KafkaConsumer.Duplicate_message (Some "m-1")]).
Proof.
  intros c envelope first c'.
  assert (H1 : NoDup (KafkaConsumer.seenMessageIds c)) by apply NoDup_nil_2.
  assert (H2 : MessageUtils.validateMessage envelope = Ok true) by (vm_compute; reflexivity).
  assert (H3 : messageId envelope ∉ KafkaConsumer.seenMessageIds c) by apply not_elem_of_nil.
  assert (H4 : messageType envelope = Some (MessageType_value TELEMETRY)) by reflexivity.
  assert (H5 : KafkaConsumer.messageHandlers c !! MessageType_value TELEMETRY = None)
    by apply lookup_empty.
  split; [repeat split; assumption|].
  exact (proj2 (proj2 (envelope_before_registration_is_lost envelope TELEMETRY Sample.handler
                         c O H1 H2 H3 H4 H5))).
Defined.

Lemma evicted_ids_are_accepted_again_witness :
  let id := fun k : nat => Some ("i" +:+ pretty k) in
  let c := {| KafkaConsumer.nodeId := "ground";
              KafkaConsumer.messageHandlers := (∅ : gmap string (MessageHandler nat));
              KafkaConsumer.seenMessageIds := id <$> seq 0 (Z.to_nat 10000) |} in
  let new := Sample.envelope "new" 1 in
  let old := Sample.envelope "i0" 1 in
  let first := KafkaConsumer.handleMessage (Parsed new) c O in
  let second := KafkaConsumer.handleMessage (Parsed old) (fst (fst first)) (snd (fst first)) in
  (NoDup (KafkaConsumer.seenMessageIds c)
   /\ Z.of_nat (length (KafkaConsumer.seenMessageIds c)) = 10000
   /\ MessageUtils.validateMessage new = Ok true
   /\ (messageId new ∉ KafkaConsumer.seenMessageIds c)
   /\ MessageUtils.validateMessage old = Ok true
   /\ messageId old ∈ KafkaConsumer.seenMessageIds c
   /\ messageId old ∈ take 1000 (KafkaConsumer.seenMessageIds c))
  /\ exists logs, snd second = KafkaConsumer.Received old :: logs.
Proof.
  intros id c new old first second.
  assert (Hinj : Inj (=) (=) id).
  { intros x y [= H]. exact (inj pretty x y H). }
  assert (Hseen : KafkaConsumer.seenMessageIds c = id <$> seq 0 (Z.to_nat 10000))
    by reflexivity.
  assert (Hhead : forall n k, messageId old ∈ take (S k) (id <$> seq 0 (S n))).
  { intros n k. apply list_elem_of_here. }
  assert (H1 : NoDup (KafkaConsumer.seenMessageIds c)).
  { rewrite Hseen. apply NoDup_fmap_2; [exact Hinj | apply NoDup_seq]. }
  assert (H2 : Z.of_nat (length (KafkaConsumer.seenMessageIds c)) = 10000).
  { rewrite Hseen, length_fmap, length_seq. apply Z2Nat.id. lia. }
  assert (H3 : MessageUtils.validateMessage new = Ok true) by (vm_compute; reflexivity).
  assert (H4 : messageId new ∉ KafkaConsumer.seenMessageIds c).
  { rewrite Hseen. intros Hin. apply list_elem_of_fmap in Hin as (k & Hk & _). discriminate. }
  assert (H5 : MessageUtils.validateMessage old = Ok true) by (vm_compute; reflexivity).
  assert (H7 : messageId old ∈ take 1000 (KafkaConsumer.seenMessageIds c)).
  { rewrite Hseen.
    replace (Z.to_nat 10000) with (S (Z.to_nat 9999)) by lia.
    replace 1000%nat with (S 999) by lia.
    apply Hhead. }
  assert (H6 : messageId old ∈ KafkaConsumer.seenMessageIds c).
  { exact (subseteq_take _ _ _ H7). }
  split; [repeat split; assumption|].
  exact (proj1 (evicted_ids_are_accepted_again new old c O H1 H2 H3 H4 H5 H6) H7).
Defined.

(** ** The proxy without chaos *)

Lemma add_stats_zero (s : MessageStats) : add_stats s zero_stats = s.
Proof. destruct s. unfold add_stats, zero_stats. simpl. f_equal; lia. Qed.

Lemma add_stats_assoc (a b c : MessageStats) :
  add_stats (add_stats a b) c = add_stats a (add_stats b c).
Proof. unfold add_stats. simpl. f_equal; lia. Qed.

Lemma add_stats_comm (a b : MessageStats) : add_stats a b = add_stats b a.
Proof. unfold add_stats. f_equal; lia. Qed.

Section Transparency.

Context {T : Type}.

Implicit Types (w : World T) (c : Call T).

Lemma processReceiveMessage_disabled (envelope : MessageEnvelope) (handler : MessageHandler T) w :
  enabled (config (this w)) = false ->
  processReceiveMessage envelope handler w =
    (fst (handler (Some envelope) (outside w)),
     with_outside (snd (handler (Some envelope) (outside w)))
       (with_event (HandlerCalled (Some envelope))
          (with_this (set_stats incr_received) w))).
Proof.
  intros Hoff.
  unfold processReceiveMessage, bind, modify_this, get_this. simpl.
  rewrite Hoff. reflexivity.
Qed.

Lemma calculateDelay_off w :
  (maxDelayMs (config (this w)) <= 0)%Q -> calculateDelay w = (Ok 0, w).
Proof.
  intros Hmax. unfold calculateDelay, bind, get_this.
  apply Qle_bool_iff in Hmax. rewrite Hmax. reflexivity.
Qed.

Lemma processReceiveMessage_direct (envelope : MessageEnvelope) (handler : MessageHandler T) w :
  enabled (config (this w)) = true ->
  reorderWindow (config (this w)) <= 0 ->
  (maxDelayMs (config (this w)) <= 0)%Q ->
  processReceiveMessage envelope handler w =
    (fst (handler (Some envelope) (outside w)),
     with_outside (snd (handler (Some envelope) (outside w)))
       (with_event (HandlerCalled (Some envelope))
          (with_this (set_stats incr_received) w))).
Proof.
  intros Hon Hwin Hmax.
  unfold processReceiveMessage, bind, modify_this, get_this. simpl.
  rewrite Hon. simpl.
  replace (0 <? reorderWindow (config (this w))) with false by (symmetry; apply Z.ltb_ge; lia).
  rewrite calculateDelay_off by exact Hmax.
  reflexivity.
Qed.

(** One call on a chaos-free proxy. *)
Lemma chaos_free_call c w :
  chaos_free (this w) ->
  is_api_call c = true ->
  let r := run_call c w in
  let u := unwrapped c (outside w) in
  fst r = fst (fst u)
  /\ outside (snd r) = snd (fst u)
  /\ trace (snd r) = trace w ++ snd u
  /\ config (this (snd r)) = config (this w)
  /\ messageBuffer (this (snd r)) = messageBuffer (this w)
  /\ stats (this (snd r)) = add_stats (stats (this w)) (entry c)
  /\ Math_random_calls (snd r) = Math_random_calls w
  /\ (enabled (config (this w)) = false -> random (this (snd r)) = random (this w))
  /\ chaos_free (this (snd r)).
Proof.
  intros Hfree Hapi.
  assert (Hsent : forall s, incr_sent s = add_stats s (incr_sent zero_stats)).
  { intros []. unfold incr_sent, add_stats, zero_stats. simpl. f_equal; lia. }
  assert (Hrecv : forall s, incr_received s = add_stats s (incr_received zero_stats)).
  { intros []. unfold incr_received, add_stats, zero_stats. simpl. f_equal; lia. }
  destruct c as [tempEnvelope sendFn | envelope handler | callback]; [| |discriminate Hapi].
  - (* Send *)
    destruct Hfree as [Hoff | (Hon & Hdrop & Hdup & Hmax & Hwin & Hseed)].
    + cbn [run_call unwrapped entry].
      rewrite processSendMessage_disabled by exact Hoff. cbn zeta.
      destruct (fst (sendFn (outside w))) as [result | e]; cbn;
        (repeat split; try reflexivity; try apply Hsent; left; exact Hoff).
    + cbn [run_call unwrapped entry].
      rewrite processSendMessage_enabled by exact Hon. cbn zeta.
      pose proof (next_state_nonneg _ Hseed) as Hs1.
      pose proof (draw_nonneg _ Hseed) as Hd1.
      assert (Hno1 : Qltb (draw_of (random (this (after_draw (with_this (set_stats incr_sent) w)))))
                       (dropRate (config (this w))) = false).
      { apply Qltb_ge. cbn. eapply Qle_trans; [exact Hdrop | exact Hd1]. }
      rewrite Hno1.
      destruct (fst (sendFn (outside w))) as [result | e].
      * assert (Hs2 : 0 <= next_state (next_state (random (this w)))) by (apply next_state_nonneg; lia).
        assert (Hd2 : (0 <= draw_of (next_state (next_state (random (this w)))))%Q)
          by (apply draw_nonneg; lia).
        assert (Hno2 : Qltb (draw_of (random (this (after_draw (after_send sendFn
                           (after_draw (with_this (set_stats incr_sent) w)))))))
                         (duplicateRate (config (this w))) = false).
        { apply Qltb_ge. cbn. eapply Qle_trans; [exact Hdup | exact Hd2]. }
        rewrite Hno2. cbn.
        repeat split; try reflexivity; try apply Hsent.
        -- intros Hoff. congruence.
        -- right. cbn. repeat split; try assumption.
      * cbn. repeat split; try reflexivity; try apply Hsent.
        -- intros Hoff. congruence.
        -- right. cbn. repeat split; try assumption. lia.
  - (* Receive *)
    cbn [run_call unwrapped entry].
    assert (Hdirect : processReceiveMessage envelope handler w =
      (fst (handler (Some envelope) (outside w)),
       with_outside (snd (handler (Some envelope) (outside w)))
         (with_event (HandlerCalled (Some envelope))
            (with_this (set_stats incr_received) w)))).
    { destruct Hfree as [Hoff | (Hon & _ & _ & Hmax & Hwin & _)].
      - apply processReceiveMessage_disabled, Hoff.
      - apply processReceiveMessage_direct; assumption. }
    rewrite Hdirect.
    destruct (fst (handler (Some envelope) (outside w))) as [[] | e]; cbn;
      (repeat split; try reflexivity; try apply Hrecv; exact Hfree).
Qed.

Lemma run_unwrapped_cons c (calls : list (Call T)) (t : T) :
  run_unwrapped (c :: calls) t =
    (fst (fst (unwrapped c t)) :: fst (fst (run_unwrapped calls (snd (fst (unwrapped c t))))),
     snd (fst (run_unwrapped calls (snd (fst (unwrapped c t))))),
     snd (unwrapped c t) ++ snd (run_unwrapped calls (snd (fst (unwrapped c t))))).
Proof.
  cbn [run_unwrapped].
  destruct (unwrapped c t) as [[o t'] evs]. cbn.
  destruct (run_unwrapped calls t') as [[os t''] evs']. reflexivity.
Qed.

Lemma chaos_free_run (calls : list (Call T)) w :
  chaos_free (this w) ->
  Forall (fun c => is_api_call c = true) calls ->
  let r := run calls w in
  let u := run_unwrapped calls (outside w) in
  fst r = fst (fst u)
  /\ outside (snd r) = snd (fst u)
  /\ trace (snd r) = trace w ++ snd u
  /\ config (this (snd r)) = config (this w)
  /\ messageBuffer (this (snd r)) = messageBuffer (this w)
  /\ stats (this (snd r)) = add_stats (stats (this w)) (entries calls)
  /\ Math_random_calls (snd r) = Math_random_calls w
  /\ (enabled (config (this w)) = false -> random (this (snd r)) = random (this w)).
Proof.
  revert w. induction calls as [|c calls IH]; intros w Hfree Hall.
  - cbn. rewrite app_nil_r, add_stats_zero. repeat split; reflexivity.
  - inversion Hall as [|? ? Hc Hrest]; subst.
    destruct (chaos_free_call c w Hfree Hc)
      as (Ho & Hout & Htr & Hcfg & Hbuf & Hst & Hmr & Hrnd & Hfree').
    destruct (IH (snd (run_call c w)) Hfree' Hrest)
      as (Ho' & Hout' & Htr' & Hcfg' & Hbuf' & Hst' & Hmr' & Hrnd').
    cbn zeta. rewrite run_cons, run_unwrapped_cons. cbn [fst snd].
    rewrite Hout in Ho', Hout', Htr'.
    repeat split.
    + rewrite Ho, Ho'. reflexivity.
    + exact Hout'.
    + rewrite Htr', Htr, <- app_assoc. reflexivity.
    + congruence.
    + congruence.
    + rewrite Hst', Hst, add_stats_assoc. reflexivity.
    + congruence.
    + intros Hoff. rewrite Hrnd' by congruence. apply Hrnd, Hoff.
Qed.

(** X14: with [enabled = false], a sequence of [processSendMessage] and
    [processReceiveMessage] calls behaves as the same calls made on the send
    functions and the handlers themselves: same results, same effect on the
    collaborators, one call each and at once, no timer and no log line.  The
    generator, the reorder buffer (also one that still holds envelopes) and
    the configuration are not touched, [Math.random] is not called, and
    only [sent] and [received] are counted. *)
Theorem disabled_proxy_is_transparent (calls : list (Call T)) w :
  enabled (config (this w)) = false ->
  Forall (fun c => is_api_call c = true) calls ->
  let r := run calls w in
  let u := run_unwrapped calls (outside w) in
  fst r = fst (fst u)
  /\ outside (snd r) = snd (fst u)
  /\ trace (snd r) = trace w ++ snd u
  /\ config (this (snd r)) = config (this w)
  /\ random (this (snd r)) = random (this w)
  /\ messageBuffer (this (snd r)) = messageBuffer (this w)
  /\ stats (this (snd r)) = add_stats (stats (this w)) (entries calls)
  /\ Math_random_calls (snd r) = Math_random_calls w.
Proof.
  intros Hoff Hall.
  destruct (chaos_free_run calls w (or_introl Hoff) Hall)
    as (Ho & Hout & Htr & Hcfg & Hbuf & Hst & Hmr & Hrnd).
  cbn zeta. repeat split; try assumption. apply Hrnd, Hoff.
Qed.

(** X15: with [enabled = true] and dropRate, duplicateRate, maxDelayMs and
    reorderWindow all at most 0, a proxy whose generator state is not
    negative is transparent in the same way: the draws it makes never fall
    below a rate, nothing is buffered or delayed, [Math.random] is not
    called, and only [sent] and [received] are counted. *)
Theorem zero_chaos_is_transparent (calls : list (Call T)) w :
  enabled (config (this w)) = true ->
  (dropRate (config (this w)) <= 0)%Q ->
  (duplicateRate (config (this w)) <= 0)%Q ->
  (maxDelayMs (config (this w)) <= 0)%Q ->
  reorderWindow (config (this w)) <= 0 ->
  0 <= random (this w) ->
  Forall (fun c => is_api_call c = true) calls ->
  let r := run calls w in
  let u := run_unwrapped calls (outside w) in
  fst r = fst (fst u)
  /\ outside (snd r) = snd (fst u)
  /\ trace (snd r) = trace w ++ snd u
  /\ config (this (snd r)) = config (this w)
  /\ messageBuffer (this (snd r)) = messageBuffer (this w)
  /\ stats (this (snd r)) = add_stats (stats (this w)) (entries calls)
  /\ Math_random_calls (snd r) = Math_random_calls w.
Proof.
  intros Hon Hdrop Hdup Hmax Hwin Hseed Hall.
  assert (Hfree : chaos_free (this w)) by (right; repeat split; assumption).
  destruct (chaos_free_run calls w Hfree Hall)
    as (Ho & Hout & Htr & Hcfg & Hbuf & Hst & Hmr & _).
  cbn zeta. repeat split; assumption.
Qed.

End Transparency.

Lemma disabled_proxy_is_transparent_witness :
  let off := {| Partial.dropRate := Some 1%Q; Partial.duplicateRate := Some 1%Q;
                Partial.maxDelayMs := Some 1000%Q; Partial.reorderWindow := Some 3;
                Partial.seed := Some (-6); Partial.enabled := Some false |} in
  let w := Sample.world off 0 in
  let calls := [Send Sample.tempEnvelope Sample.sendFn;
                Receive (Sample.envelope "a" 1) Sample.handler;
                Send Sample.tempEnvelope Sample.failing_sendFn] in
  (enabled (config (this w)) = false
   /\ Forall (fun c => is_api_call c = true) calls)
  /\ fst (run calls w)
     = [Sent (Some (Sample.envelope "m" 1)); Received;
        Rejected (ExternalError "not connected")]
  /\ trace (snd (run calls w))
     = [SendFnCalled; HandlerCalled (Some (Sample.envelope "a" 1)); SendFnCalled]
  /\ random (this (snd (run calls w))) = -6.
Proof.
  intros off w calls.
  assert (H1 : enabled (config (this w)) = false) by reflexivity.
  assert (H2 : Forall (fun c => is_api_call c = true) calls)
    by (repeat constructor).
  split; [split; assumption|].
  destruct (disabled_proxy_is_transparent calls w H1 H2)
    as (Ho & _ & Htr & _ & Hrnd & _).
  split; [exact Ho|]. split; [exact Htr | exact Hrnd].
Defined.

Lemma zero_chaos_is_transparent_witness :
  let w := Sample.world (Sample.config 0 0 0 0 12345) 0 in
  let calls := [Send Sample.tempEnvelope Sample.sendFn;
                Receive (Sample.envelope "a" 1) Sample.failing_handler;
                Receive (Sample.envelope "b" 2) Sample.handler] in
  (enabled (config (this w)) = true
   /\ (dropRate (config (this w)) <= 0)%Q
   /\ (duplicateRate (config (this w)) <= 0)%Q
   /\ (maxDelayMs (config (this w)) <= 0)%Q
   /\ reorderWindow (config (this w)) <= 0
   /\ 0 <= random (this w)
   /\ Forall (fun c => is_api_call c = true) calls)
  /\ fst (run calls w)
     = [Sent (Some (Sample.envelope "m" 1)); Rejected (ExternalError "handler failed");
        Received]
  /\ trace (snd (run calls w))
     = [SendFnCalled; HandlerCalled (Some (Sample.envelope "a" 1));
        HandlerCalled (Some (Sample.envelope "b" 2))].
Proof.
  intros w calls.
  assert (H1 : enabled (config (this w)) = true) by reflexivity.
  assert (H2 : (dropRate (config (this w)) <= 0)%Q) by (vm_compute; discriminate).
  assert (H3 : (duplicateRate (config (this w)) <= 0)%Q) by (vm_compute; discriminate).
  assert (H4 : (maxDelayMs (config (this w)) <= 0)%Q) by (vm_compute; discriminate).
  assert (H5 : reorderWindow (config (this w)) <= 0) by (vm_compute; discriminate).
  assert (H6 : 0 <= random (this w)) by (vm_compute; discriminate).
  assert (H7 : Forall (fun c => is_api_call c = true) calls) by (repeat constructor).
  split; [repeat split; assumption|].
  destruct (zero_chaos_is_transparent calls w H1 H2 H3 H4 H5 H6 H7)
    as (Ho & _ & Htr & _).
  split; [exact Ho | exact Htr].
Defined.

(** ** The counters and the effects *)

Section Accounting.

Context {T : Type}.

Implicit Types (w : World T).

Lemma tally_app (evs evs' : list (Event T)) :
  tally (evs ++ evs') = add_stats (tally evs) (tally evs').
Proof.
  induction evs as [|ev evs IH]; cbn.
  - rewrite add_stats_comm, add_stats_zero. reflexivity.
  - fold (tally (evs ++ evs')). fold (tally evs). rewrite IH, add_stats_assoc. reflexivity.
Qed.

Lemma accounted_refl w : accounted w w.
Proof.
  exists []. rewrite app_nil_r. cbn. rewrite add_stats_zero. repeat split; reflexivity.
Qed.

Lemma accounted_trans w1 w2 w3 : accounted w1 w2 -> accounted w2 w3 -> accounted w1 w3.
Proof.
  intros (evs & Htr & Hcfg & Hst) (evs' & Htr' & Hcfg' & Hst').
  exists (evs ++ evs'). repeat split.
  - rewrite Htr', Htr, app_assoc. reflexivity.
  - congruence.
  - rewrite Hst', Hst, tally_app, add_stats_assoc. reflexivity.
Qed.

Lemma tally_quiet (evs : list (Event T)) :
  Forall (fun ev => effect ev = zero_stats) evs -> tally evs = zero_stats.
Proof.
  induction 1 as [|ev evs Hev _ IH]; [reflexivity|].
  cbn. fold (tally evs). rewrite Hev, IH. reflexivity.
Qed.

(** A step that moves neither the configuration nor the counters and adds
    only events that count for nothing. *)
Lemma accounted_quiet w w' (evs : list (Event T)) :
  trace w' = trace w ++ evs ->
  Forall (fun ev => effect ev = zero_stats) evs ->
  config (this w') = config (this w) ->
  stats (this w') = stats (this w) ->
  accounted w w'.
Proof.
  intros Htr Hquiet Hcfg Hst. exists evs. repeat split; try assumption.
  rewrite Hst.
  rewrite (tally_quiet _ Hquiet), add_stats_zero. reflexivity.
Qed.

Lemma accounts_bind {A B} (m : M T A) (k : A -> M T B) :
  accounts m -> (forall a, accounts (k a)) -> accounts (bind m k).
Proof.
  intros Hm Hk w. unfold bind. specialize (Hm w).
  destruct (m w) as [[a | e] w1]; cbn in *.
  - eapply accounted_trans; [exact Hm | apply Hk].
  - exact Hm.
Qed.

Lemma accounts_ret {A} (a : A) : accounts (T := T) (ret a).
Proof. intros w. apply accounted_refl. Qed.

Lemma accounts_get_this : accounts (T := T) get_this.
Proof. intros w. apply accounted_refl. Qed.

Lemma accounts_lift_result {A} (r : Result A) : accounts (T := T) (lift_result r).
Proof. intros w. apply accounted_refl. Qed.

Lemma accounts_on_outside {A} (f : T -> Result A * T) : accounts (on_outside f).
Proof. intros w. apply (accounted_quiet _ _ []); cbn; auto using app_nil_r. Qed.

Lemma accounts_set_random (state : Z) : accounts (T := T) (modify_this (set_random state)).
Proof. intros w. apply (accounted_quiet _ _ []); cbn; auto using app_nil_r. Qed.

Lemma accounts_set_messageBuffer (f : ChaosProxy -> list MessageEnvelope) :
  accounts (T := T) (modify_this (fun p => set_messageBuffer (f p) p)).
Proof. intros w. apply (accounted_quiet _ _ []); cbn; auto using app_nil_r. Qed.

Lemma accounts_emit (ev : Event T) : effect ev = zero_stats -> accounts (emit ev).
Proof.
  intros Hev w. apply (accounted_quiet _ _ [ev]); cbn; auto.
Qed.

Lemma accounts_modify_quiet (g : ChaosProxy -> ChaosProxy) :
  (forall p, config (g p) = config p) -> (forall p, stats (g p) = stats p) ->
  accounts (T := T) (modify_this g).
Proof.
  intros Hcfg Hst w. apply (accounted_quiet _ _ []); cbn; auto using app_nil_r.
Qed.

Lemma accounts_call_Math_random : accounts (T := T) call_Math_random.
Proof. intros w. apply (accounted_quiet _ _ []); cbn; auto using app_nil_r. Qed.

Lemma accounts_try_catch {A} (body : M T A) (handler : JsError -> M T A) :
  accounts body -> (forall e, accounts (handler e)) -> accounts (try_catch body handler).
Proof.
  intros Hbody Hhandler w. unfold try_catch. specialize (Hbody w).
  destruct (body w) as [[a | e] w1]; cbn in *.
  - exact Hbody.
  - eapply accounted_trans; [exact Hbody | apply Hhandler].
Qed.

Create HintDb accounts.
#[local] Hint Resolve accounts_ret accounts_get_this accounts_lift_result accounts_on_outside
  accounts_call_Math_random : accounts.

(** A counter is moved and the event that accounts for it follows, with
    nothing in between that could raise. *)
Ltac counted :=
  let w := fresh "w" in
  intros w; unfold accounted, bind, modify_this, emit, ret, call_Math_random; cbn;
  eexists; split; [rewrite <- ?app_assoc; reflexivity|];
  split; [reflexivity|];
  destruct (stats (this w));
  unfold add_stats, incr_dropped, incr_duplicated, incr_delayed, add_reordered, zero_stats;
  cbn; f_equal; lia.

Ltac accounts_step :=
  first [ match goal with
          | |- accounts (bind (modify_this (set_stats _)) _) => counted
          end
        | apply accounts_bind; [|intros ?]
        | match goal with |- accounts (if ?b then _ else _) => destruct b end
        | apply accounts_modify_quiet; intros ?; reflexivity
        | apply accounts_emit; reflexivity
        | solve [auto with accounts] ].

Lemma accounts_this_random : accounts (T := T) this_random.
Proof. unfold this_random. repeat accounts_step. Qed.

Lemma accounts_call_sendFn (sendFn : SendFn T) : accounts (call_sendFn sendFn).
Proof. unfold call_sendFn. repeat accounts_step. Qed.

Lemma accounts_call_handler (handler : MessageHandler T) (envelope : Slot) :
  accounts (call_handler handler envelope).
Proof. unfold call_handler. repeat accounts_step. Qed.

#[local] Hint Resolve accounts_this_random accounts_call_sendFn accounts_call_handler : accounts.

Lemma accounts_calculateDelay : accounts (T := T) calculateDelay.
Proof. unfold calculateDelay. repeat accounts_step. Qed.

#[local] Hint Resolve accounts_calculateDelay : accounts.

Lemma accounts_fire (callback : Callback T) : accounts (fire callback).
Proof.
  destruct callback as [sendFn id | handler envelope]; cbn [fire].
  - apply accounts_try_catch; [|intros e]; repeat accounts_step.
  - auto with accounts.
Qed.

Lemma accounts_shuffle_loop (i : nat) (shuffled : JsArray) :
  accounts (T := T) (shuffle_loop i shuffled).
Proof.
  revert shuffled. induction i as [|i IH]; intros shuffled; cbn [shuffle_loop].
  - auto with accounts.
  - apply accounts_bind; [auto with accounts | intros d; apply IH].
Qed.

Lemma accounts_deliver_each (handler : MessageHandler T) (shuffled : list Slot) :
  accounts (deliver_each handler shuffled).
Proof.
  induction shuffled as [|envelope rest IH]; cbn [deliver_each].
  - auto with accounts.
  - apply accounts_bind; [auto with accounts | intros delay].
    apply accounts_bind; [|intros _; exact IH].
    repeat accounts_step.
Qed.

Lemma accounts_flushReorderBuffer (handler : MessageHandler T) :
  accounts (flushReorderBuffer handler).
Proof.
  unfold flushReorderBuffer.
  apply accounts_bind; [auto with accounts | intros p].
  destruct (length (messageBuffer p) =? 0)%nat; [auto with accounts|].
  apply accounts_bind; [apply accounts_shuffle_loop | intros shuffled].
  apply accounts_bind; [auto with accounts | intros reordered].
  apply accounts_bind; [repeat accounts_step | intros _].
  apply accounts_bind; [apply accounts_deliver_each | intros _].
  accounts_step.
Qed.

Lemma after_modify {A} (f : ChaosProxy -> ChaosProxy) (k : M T A) w :
  bind (modify_this f) (fun _ => k) w = k (with_this f w).
Proof. reflexivity. Qed.

Lemma processSendMessage_accounted (tempEnvelope : TempEnvelope) (sendFn : SendFn T) w :
  accounted (with_this (set_stats incr_sent) w) (snd (processSendMessage tempEnvelope sendFn w)).
Proof.
  unfold processSendMessage. rewrite after_modify.
  match goal with |- accounted ?w1 (snd (?m ?w1)) => cut (accounts m); [intros H; apply H|] end.
  apply accounts_bind; [auto with accounts | intros p].
  destruct (negb (enabled (config p))); [repeat accounts_step|].
  apply accounts_bind; [auto with accounts | intros d1].
  destruct (Qltb d1 (dropRate (config p))); [counted|].
  apply accounts_bind; [auto with accounts | intros result].
  apply accounts_bind; [auto with accounts | intros d2].
  apply accounts_bind; [|intros _; auto with accounts].
  destruct (Qltb d2 (duplicateRate (config p))); [counted | auto with accounts].
Qed.

Lemma processReceiveMessage_accounted (envelope : MessageEnvelope) (handler : MessageHandler T) w :
  accounted (with_this (set_stats incr_received) w)
    (snd (processReceiveMessage envelope handler w)).
Proof.
  unfold processReceiveMessage. rewrite after_modify.
  match goal with |- accounted ?w1 (snd (?m ?w1)) => cut (accounts m); [intros H; apply H|] end.
  apply accounts_bind; [auto with accounts | intros p].
  destruct (negb (enabled (config p))); [auto with accounts|].
  destruct (0 <? reorderWindow (config p)).
  - apply accounts_bind; [accounts_step | intros _].
    apply accounts_bind; [auto with accounts | intros p'].
    destruct (reorderWindow (config p') <=? _);
      [apply accounts_flushReorderBuffer | auto with accounts].
  - apply accounts_bind; [auto with accounts | intros delay].
    destruct (0 <? delay); [counted | auto with accounts].
Qed.

Lemma snd_run_call (c : Call T) w :
  snd (run_call c w)
  = match c with
    | Send tempEnvelope sendFn => snd (processSendMessage tempEnvelope sendFn w)
    | Receive envelope handler => snd (processReceiveMessage envelope handler w)
    | Fire callback => snd (fire callback w)
    end.
Proof.
  destruct c; cbn [run_call];
    match goal with |- snd (match ?x with _ => _ end) = _ => destruct x as [[] ?] end;
    reflexivity.
Qed.

Lemma run_call_accounted (c : Call T) w :
  exists evs,
    trace (snd (run_call c w)) = trace w ++ evs
    /\ config (this (snd (run_call c w))) = config (this w)
    /\ stats (this (snd (run_call c w)))
       = add_stats (stats (this w)) (add_stats (entry c) (tally evs)).
Proof.
  rewrite snd_run_call.
  destruct c as [tempEnvelope sendFn | envelope handler | callback]; cbn [entry].
  - destruct (processSendMessage_accounted tempEnvelope sendFn w) as (evs & Htr & Hcfg & Hst).
    exists evs. repeat split; try assumption.
    rewrite Hst. cbn. destruct (stats (this w)). unfold add_stats, incr_sent, zero_stats.
    cbn. f_equal; lia.
  - destruct (processReceiveMessage_accounted envelope handler w) as (evs & Htr & Hcfg & Hst).
    exists evs. repeat split; try assumption.
    rewrite Hst. cbn. destruct (stats (this w)). unfold add_stats, incr_received, zero_stats.
    cbn. f_equal; lia.
  - destruct (accounts_fire callback w) as (evs & Htr & Hcfg & Hst).
    exists evs. repeat split; try assumption.
Qed.

(** X16: over any run, whatever the configuration and the generator state
    and also when a send function or a handler raises, the counters agree
    with what the proxy did: [sent] and [received] grow by the numbers of
    [processSendMessage] and [processReceiveMessage] calls, [dropped] by the
    number of drop log lines, [duplicated] by the number of duplicate timers,
    [delayed] by the number of delivery timers and [reordered] by the counts
    of the reordering log lines; the configuration does not change. *)
Theorem stats_agree_with_effects (calls : list (Call T)) w :
  let w' := snd (run calls w) in
  exists evs,
    trace w' = trace w ++ evs
    /\ config (this w') = config (this w)
    /\ stats (this w') = add_stats (stats (this w)) (add_stats (entries calls) (tally evs)).
Proof.
  cbn zeta. revert w. induction calls as [|c calls IH]; intros w.
  - exists []. cbn. rewrite app_nil_r, !add_stats_zero. repeat split; reflexivity.
  - rewrite run_cons. cbn [snd].
    destruct (run_call_accounted c w) as (evs & Htr & Hcfg & Hst).
    destruct (IH (snd (run_call c w))) as (evs' & Htr' & Hcfg' & Hst').
    exists (evs ++ evs'). split; [|split].
    + rewrite Htr', Htr, app_assoc. reflexivity.
    + congruence.
    + rewrite Hst', Hst, tally_app. cbn [entries foldr]. fold (entries calls).
      rewrite !add_stats_assoc. f_equal. f_equal.
      rewrite <- !add_stats_assoc. f_equal. apply add_stats_comm.
Qed.

End Accounting.

(** ** Delays *)

Section DelayFacts.

Context {T : Type}.

Implicit Types (w : World T).

(** X17: [calculateDelay] never raises and touches nothing but the
    generator state, which it leaves as it is when maxDelayMs <= 0 and
    advances by one or two draws otherwise; the delay is not negative, is 0
    when maxDelayMs <= 0, and is strictly below maxDelayMs when that is
    positive, for every generator state. *)
Theorem calculateDelay_below_maxDelay w :
  exists delay state,
    calculateDelay w = (Ok delay, with_this (set_random state) w)
    /\ 0 <= delay
    /\ ((maxDelayMs (config (this w)) <= 0)%Q -> delay = 0 /\ state = random (this w))
    /\ ((0 < maxDelayMs (config (this w)))%Q ->
        (inject_Z delay < maxDelayMs (config (this w)))%Q
        /\ (state = next_state (random (this w))
            \/ state = next_state (next_state (random (this w))))).
Proof.
  unfold calculateDelay, bind, get_this.
  destruct (Qle_bool (maxDelayMs (config (this w))) 0) eqn:Hmax.
  - apply Qle_bool_iff in Hmax.
    exists 0, (random (this w)). rewrite with_random_same.
    split; [reflexivity|]. split; [lia|]. split; [intros _; split; reflexivity|].
    intros Hpos. exfalso. revert Hpos. apply Qle_not_lt, Hmax.
  - assert (Hpos : (0 < maxDelayMs (config (this w)))%Q).
    { apply Qnot_le_lt. intros Hle. apply Qle_bool_iff in Hle. congruence. }
    rewrite this_random_eq.
    destruct (Qltb _ (3 # 10)).
    + rewrite this_random_eq.
      eexists _, (next_state (next_state (random (this w)))).
      split; [reflexivity|]. split; [lia|].
      split; [intros Hle; exfalso; revert Hpos; apply Qle_not_lt, Hle|].
      intros _. split; [|right; reflexivity].
      set (d2 := draw_of (next_state (random (this (after_draw w))))).
      set (m := maxDelayMs (config (this w))) in *.
      assert (Hd2 : (round64 d2 <= 262143 # 262144)%Q).
      { apply draw_number_below.
        pose proof (next_state_bounds (random (this (after_draw w)))). lia. }
      destruct (Z.max_spec 0 (Qfloor (js_mul d2 m))) as [[Hfloor ->] | [_ ->]].
      * destruct (Qlt_le_dec m 1) as [Hsmall | Hlarge].
        -- exfalso.
           pose proof (js_mul_below_1 d2 m Hd2 (Qlt_le_weak _ _ Hpos) (Qlt_le_weak _ _ Hsmall))
             as Hprod.
           pose proof (Qfloor_lt_inject (js_mul d2 m) 1 Hprod). lia.
        -- eapply Qle_lt_trans; [apply Qfloor_le | apply js_mul_below; assumption].
      * exact Hpos.
    + eexists _, (next_state (random (this w))).
      split; [reflexivity|]. split; [lia|].
      split; [intros Hle; exfalso; revert Hpos; apply Qle_not_lt, Hle|].
      intros _. split; [exact Hpos | left; reflexivity].
Qed.

End DelayFacts.

(** ** A flush that fails *)

Section FailedFlush.

Context {T : Type}.

Implicit Types (w : World T).



End FailedFlush.


(** ** The generator over a run *)

(** X19: two seeds that are not negative and agree modulo 233280 give the
    same draws, and every draw of such a seed lies in [0, 1).  The bounds
    on the seeds keep the first product [state * 9301 + 49297] within the
    integers that JavaScript numbers represent exactly. *)
Theorem draws_depend_on_seed_modulo_233280 (n : nat) (seed seed' : Z) :
  0 <= seed -> seed * 9301 + 49297 <= 2 ^ 53 ->
  0 <= seed' -> seed' * 9301 + 49297 <= 2 ^ 53 ->
  seed mod 233280 = seed' mod 233280 ->
  draws n seed = draws n seed'
  /\ Forall (fun d => (0 <= d)%Q /\ (d < 1)%Q) (draws n seed).
Proof.
  intros Hs Hle Hs' Hle' Hmod.
  assert (Hnext : next_state seed = next_state seed').
  { rewrite !next_state_exact_nonneg by assumption.
    rewrite !Z.rem_mod_nonneg by lia.
    rewrite (Z.add_mod (seed * 9301)), (Z.add_mod (seed' * 9301)) by lia.
    rewrite (Z.mul_mod seed), (Z.mul_mod seed') by lia.
    rewrite Hmod. reflexivity. }
  split.
  - destruct n as [|n]; [reflexivity|]. cbn [draws]. rewrite Hnext. reflexivity.
  - clear seed' Hs' Hle' Hmod Hnext Hle. revert seed Hs.
    induction n as [|n IH]; intros seed Hs; cbn [draws]; constructor.
    + split; [apply draw_nonneg, Hs | apply draw_lt_1].
    + apply IH. apply next_state_nonneg, Hs.
Qed.

Lemma draws_depend_on_seed_modulo_233280_witness :
  (0 <= 12345 /\ 12345 * 9301 + 49297 <= 2 ^ 53
   /\ 0 <= 245625 /\ 245625 * 9301 + 49297 <= 2 ^ 53
   /\ 12345 mod 233280 = 245625 mod 233280)
  /\ draws 3 12345 = draws 3 245625.
Proof.
  assert (H1 : 0 <= 12345) by lia.
  assert (H2 : 12345 * 9301 + 49297 <= 2 ^ 53) by (vm_compute; discriminate).
  assert (H3 : 0 <= 245625) by lia.
  assert (H4 : 245625 * 9301 + 49297 <= 2 ^ 53) by (vm_compute; discriminate).
  assert (H5 : 12345 mod 233280 = 245625 mod 233280) by reflexivity.
  split; [repeat split; assumption|].
  exact (proj1 (draws_depend_on_seed_modulo_233280 3 12345 245625 H1 H2 H3 H4 H5)).
Defined.

Section Frame.

Context {T : Type}.

Implicit Types (w : World T).

Variable I : ChaosProxy -> Prop.
Hypothesis I_kept : kept_by_chaos I.

Lemma keeps_bind {A B} (m : M T A) (k : A -> M T B) :
  keeps I m -> (forall a, keeps (T := T) I (k a)) -> keeps (T := T) I (bind m k).
Proof.
  intros Hm Hk w HI. unfold bind. specialize (Hm w HI).
  destruct (m w) as [[a | e] w1]; cbn in *.
  - apply Hk, Hm.
  - exact Hm.
Qed.

Lemma keeps_same {A} (m : M T A) : (forall w, this (snd (m w)) = this w) -> keeps I m.
Proof. intros Hsame w HI. rewrite Hsame. exact HI. Qed.

Lemma keeps_set_stats (f : MessageStats -> MessageStats) : keeps (T := T) I (modify_this (set_stats f)).
Proof. intros w HI. cbn. apply I_kept, HI. Qed.

Lemma keeps_set_messageBuffer (g : ChaosProxy -> list MessageEnvelope) :
  keeps (T := T) I (modify_this (fun p => set_messageBuffer (g p) p)).
Proof. intros w HI. cbn. apply I_kept, HI. Qed.

Lemma keeps_clear_messageBuffer : keeps (T := T) I (modify_this (set_messageBuffer [])).
Proof. intros w HI. cbn. apply I_kept, HI. Qed.

Lemma keeps_this_random : keeps (T := T) I this_random.
Proof. intros w HI. rewrite this_random_eq. cbn. apply I_kept, HI. Qed.

Ltac keeps_step :=
  first [ apply keeps_this_random
        | apply keeps_set_stats
        | apply keeps_set_messageBuffer
        | apply keeps_clear_messageBuffer
        | apply keeps_bind; [|intros ?]
        | match goal with |- keeps I (if ?b then _ else _) => destruct b end
        | apply keeps_same; intros ?; reflexivity ].

Lemma keeps_calculateDelay : keeps (T := T) I calculateDelay.
Proof. unfold calculateDelay. repeat keeps_step. Qed.

Lemma keeps_call_sendFn (sendFn : SendFn T) : keeps (T := T) I (call_sendFn sendFn).
Proof. apply keeps_same. intros w. reflexivity. Qed.

Lemma keeps_call_handler (handler : MessageHandler T) (envelope : Slot) :
  keeps (T := T) I (call_handler handler envelope).
Proof. apply keeps_same. intros w. reflexivity. Qed.

Lemma keeps_fire (callback : Callback T) : keeps (T := T) I (fire callback).
Proof.
  destruct callback as [sendFn id | handler envelope].
  - intros w HI. rewrite fire_DuplicateSend. exact HI.
  - cbn [fire]. apply keeps_call_handler.
Qed.

Lemma keeps_processSendMessage (tempEnvelope : TempEnvelope) (sendFn : SendFn T) :
  keeps (T := T) I (processSendMessage tempEnvelope sendFn).
Proof.
  unfold processSendMessage.
  repeat first [ apply keeps_call_sendFn | keeps_step ].
Qed.

Lemma keeps_shuffle_loop (i : nat) (shuffled : JsArray) : keeps (T := T) I (shuffle_loop i shuffled).
Proof.
  revert shuffled. induction i as [|i IH]; intros shuffled; cbn [shuffle_loop].
  - keeps_step.
  - apply keeps_bind; [apply keeps_this_random | intros d; apply IH].
Qed.

Lemma keeps_deliver_each (handler : MessageHandler T) (shuffled : list Slot) :
  keeps (T := T) I (deliver_each handler shuffled).
Proof.
  induction shuffled as [|envelope rest IH]; cbn [deliver_each].
  - keeps_step.
  - apply keeps_bind; [apply keeps_calculateDelay | intros delay].
    apply keeps_bind; [|intros _; exact IH].
    destruct (0 <? delay); [repeat keeps_step | apply keeps_call_handler].
Qed.

Lemma keeps_flushReorderBuffer (handler : MessageHandler T) :
  keeps (T := T) I (flushReorderBuffer handler).
Proof.
  unfold flushReorderBuffer.
  repeat first [ apply keeps_shuffle_loop | apply keeps_deliver_each | keeps_step ].
Qed.

Lemma keeps_processReceiveMessage (envelope : MessageEnvelope) (handler : MessageHandler T) :
  keeps (T := T) I (processReceiveMessage envelope handler).
Proof.
  unfold processReceiveMessage.
  repeat first [ apply keeps_call_handler | apply keeps_flushReorderBuffer
               | apply keeps_calculateDelay | keeps_step ].
Qed.

Lemma keeps_run_call (c : Call T) w : I (this w) -> I (this (snd (run_call c w))).
Proof.
  intros HI. rewrite snd_run_call. destruct c.
  - apply keeps_processSendMessage, HI.
  - apply keeps_processReceiveMessage, HI.
  - apply keeps_fire, HI.
Qed.

End Frame.

(** X20: over any run of calls and timers the proxy object changes only by
    updates of its counters, by replacing [messageBuffer] and by advancing
    the seeded generator one step at a time: a property of the object that
    these three kinds of change keep holds after the run if it held
    before.  (The configuration stays what it was; a generator state in
    [0, 233280) stays there.) *)
Theorem run_only_counts_buffers_and_draws {T} (I : ChaosProxy -> Prop)
    (calls : list (Call T)) (w : World T) :
  kept_by_chaos I -> I (this w) -> I (this (snd (run calls w))).
Proof.
  intros Hkept. revert w. induction calls as [|c calls IH]; intros w HI.
  - exact HI.
  - rewrite run_cons. cbn [snd]. apply IH. apply keeps_run_call; assumption.
Qed.

Lemma run_only_counts_buffers_and_draws_witness :
  let I := fun p : ChaosProxy =>
             0 <= random p < 233280 /\ config p = spread default_config Partial.empty in
  let w := Sample.world Partial.empty (1 # 2) in
  let calls := [Send Sample.tempEnvelope Sample.sendFn;
                Receive (Sample.envelope "a" 1) Sample.handler;
                Fire (Deliver Sample.handler None);
                Send Sample.tempEnvelope Sample.failing_sendFn] in
  (kept_by_chaos I /\ I (this w)) /\ I (this (snd (run calls w))).
Proof.
  intros I w calls.
  assert (H1 : kept_by_chaos I).
  { split; [|split].
    - intros f p Hp. exact Hp.
    - intros b p Hp. exact Hp.
    - intros p [Hr Hc]. split; [|exact Hc]. cbn. apply next_state_nonneg. lia. }
  assert (H2 : I (this w)).
  { split; [|reflexivity]. cbn. lia. }
  split; [split; assumption|].
  exact (run_only_counts_buffers_and_draws I calls w H1 H2).
Defined.

(** ** A stream through the reorder buffer *)

Section Stream.

Context {T : Type}.

Implicit Types (w : World T).




End Stream.

(** ** The producer *)

Section ProducerFacts.

Import KafkaProducer.

Implicit Types (s : State) (a : SendArgs).

Lemma numbers_snoc (records : list ProducerRecord) (record : ProducerRecord) :
  numbers (records ++ [record]) = numbers records ++ map header_sequenceNumber (messages record).
Proof.
  unfold numbers. rewrite map_app, concat_app, map_app. cbn. rewrite app_nil_r. reflexivity.
Qed.

Lemma keys_snoc (records : list ProducerRecord) (record : ProducerRecord) :
  keys (records ++ [record]) = keys records ++ map key (messages record).
Proof.
  unfold keys. rewrite map_app, concat_app, map_app. cbn. rewrite app_nil_r. reflexivity.
Qed.

Lemma createMessage_step (messageType : MessageType) (payload : Json)
    (destinationNode : option string) s :
  JSON_stringify payload <> None ->
  exists envelope s',
    createMessage messageType payload destinationNode s = (Ok envelope, s')
    /\ sequenceNumber envelope = Some (counter s + 1)
    /\ messageId envelope = Some (uuidv4 s (created s))
    /\ isConnected s' = isConnected s /\ nodeId s' = nodeId s
    /\ uuidv4 s' = uuidv4 s /\ broker_send s' = broker_send s
    /\ created s' = S (created s) /\ send_attempts s' = send_attempts s
    /\ accepted s' = accepted s
    /\ counter s' = counter s + 1.
Proof.
  intros Hpayload.
  unfold createMessage, MessageUtils.createMessage, MessageUtils.calculateChecksum.
  destruct (JSON_stringify payload) as [payloadStr|]; [|congruence].
  eexists _, _. cbn. split; [reflexivity|]. cbn.
  repeat split; try reflexivity.
  unfold counter. cbn. unfold MessageUtils.getSequenceCounter at 1.
  rewrite lookup_insert_eq. reflexivity.
Qed.

(** One [sendMessage] on a connected producer. *)
Lemma sendMessage_step a s :
  isConnected s = true ->
  JSON_stringify (arg_payload a) <> None ->
  let r := sendMessage_with a s in
  isConnected (snd r) = true /\ nodeId (snd r) = nodeId s
  /\ uuidv4 (snd r) = uuidv4 s /\ broker_send (snd r) = broker_send s
  /\ created (snd r) = S (created s) /\ send_attempts (snd r) = S (send_attempts s)
  /\ counter (snd r) = counter s + 1
  /\ match broker_send s (send_attempts s) with
     | None =>
         (exists envelope,
            fst r = Ok envelope
            /\ sequenceNumber envelope = Some (counter s + 1)
            /\ messageId envelope = Some (uuidv4 s (created s)))
         /\ numbers (accepted (snd r)) = numbers (accepted s) ++ [pretty (counter s + 1)]
         /\ keys (accepted (snd r)) = keys (accepted s) ++ [Some (uuidv4 s (created s))]
     | Some error => fst r = Throw error /\ accepted (snd r) = accepted s
     end.
Proof.
  intros Hconn Hpayload.
  destruct (createMessage_step (arg_messageType a) (arg_payload a) (arg_destinationNode a) s
              Hpayload)
    as (envelope & s1 & Hcreate & Hseq & Hid & Hc1 & Hn1 & Hu1 & Hb1 & Hcr1 & Ha1 & Hacc1 & Hcnt1).
  cbn zeta. unfold sendMessage_with, sendMessage. rewrite Hconn. cbn [negb].
  rewrite Hcreate. unfold message_of. rewrite Hseq. unfold send.
  rewrite Hb1, Ha1.
  destruct (broker_send s (send_attempts s)) as [error|]; cbn [fst snd isConnected nodeId
    uuidv4 broker_send created send_attempts sequenceCounters accepted].
  - repeat split; try congruence; try assumption.
  - rewrite numbers_snoc, keys_snoc, Hacc1. cbn [messages map header_sequenceNumber key].
    rewrite Hid.
    split; [congruence|]. split; [congruence|]. split; [congruence|]. split; [congruence|].
    split; [congruence|]. split; [congruence|]. split; [exact Hcnt1|].
    split; [|split; reflexivity].
    exists envelope. repeat split; assumption.
Qed.

Lemma sendMessages_cons a (calls : list SendArgs) s :
  sendMessages (a :: calls) s =
    (fst (sendMessage_with a s) :: fst (sendMessages calls (snd (sendMessage_with a s))),
     snd (sendMessages calls (snd (sendMessage_with a s)))).
Proof.
  cbn [sendMessages]. destruct (sendMessage_with a s) as [r s1]. cbn.
  destruct (sendMessages calls s1) as [rs s2]. reflexivity.
Qed.

(** X22: on a connected producer every [sendMessage] with a payload that
    serialises takes the next sequence number of the node, also when the
    broker rejects the send.  The call number j (counted in broker sends)
    returns an envelope with that number when the broker resolves and
    rejects with the broker's error otherwise, and the sequence-number
    headers of the records the broker has are those numbers with the
    rejected ones missing. *)
Theorem rejected_sends_leave_gaps (calls : list SendArgs) s :
  isConnected s = true ->
  Forall (fun a => JSON_stringify (arg_payload a) <> None) calls ->
  let r := sendMessages calls s in
  let first := send_attempts s in
  let number := fun j : nat => counter s + 1 + (Z.of_nat j - Z.of_nat first) in
  counter (snd r) = counter s + Z.of_nat (length calls)
  /\ numbers (accepted (snd r))
     = numbers (accepted s)
       ++ map (fun j => pretty (number j))
            (filter (fun j => broker_send s j = None) (seq first (length calls)))
  /\ Forall2 (fun j result =>
                match broker_send s j with
                | None => exists envelope,
                    result = Ok envelope /\ sequenceNumber envelope = Some (number j)
                | Some error => result = Throw error
                end) (seq first (length calls)) (fst r).
Proof.
  intros Hconn Hall. cbn zeta. revert s Hconn.
  induction Hall as [|a calls Ha Hall IH]; intros s Hconn.
  - cbn. rewrite app_nil_r. split; [lia|]. split; [reflexivity | constructor].
  - rewrite sendMessages_cons. cbn [fst snd length seq].
    destruct (sendMessage_step a s Hconn Ha)
      as (Hconn1 & Hnode1 & Huuid1 & Hbroker1 & Hcreated1 & Hattempts1 & Hcounter1 & Hsend).
    cbn zeta in *.
    destruct (IH (snd (sendMessage_with a s)) Hconn1) as (IHc & IHn & IHr).
    rewrite Hcounter1 in IHc. rewrite Hbroker1, Hattempts1, Hcounter1 in IHn, IHr.
    assert (Hnumber : forall j : nat,
      counter s + 1 + 1 + (Z.of_nat j - Z.of_nat (S (send_attempts s)))
      = counter s + 1 + (Z.of_nat j - Z.of_nat (send_attempts s))) by (intros j; lia).
    split; [rewrite IHc; lia|]. split.
    + rewrite IHn, filter_cons.
      rewrite (map_ext _ _ (fun j => f_equal pretty (Hnumber j))).
      destruct (broker_send s (send_attempts s)) as [error|].
      * destruct Hsend as [_ Hacc]. rewrite Hacc.
        rewrite decide_False by discriminate. reflexivity.
      * destruct Hsend as (_ & Hnum & _). rewrite Hnum.
        rewrite decide_True by reflexivity. cbn [map].
        rewrite <- app_assoc. cbn [app]. do 3 f_equal. lia.
    + constructor.
      * destruct (broker_send s (send_attempts s)) as [error|].
        -- apply Hsend.
        -- destruct Hsend as ((envelope & Hr & Hseq & _) & _).
           exists envelope. split; [exact Hr|]. rewrite Hseq. f_equal. lia.
      * eapply Forall2_impl; [exact IHr|].
        intros j result Hj. cbn beta in Hj.
        destruct (broker_send s j); [exact Hj|].
        destruct Hj as (envelope & Hr & Hseq). exists envelope. split; [exact Hr|].
        rewrite Hseq, Hnumber. reflexivity.
Qed.

End ProducerFacts.

(** ** The producer behind the proxy *)

Section SendOrNot.

Context {T : Type}.

(** A [processSendMessage] call and a duplicate timer call the send
    function once or not at all, and touch the outside in no other way. *)
Lemma send_or_not (c : Call T) (sendFn : SendFn T) (w : World T) :
  (exists tempEnvelope, c = Send tempEnvelope sendFn)
  \/ (exists id, c = Fire (DuplicateSend sendFn id)) ->
  let w' := snd (run_call c w) in
  (outside w' = outside w /\ filter is_send (trace w') = filter is_send (trace w))
  \/ (outside w' = snd (sendFn (outside w))
      /\ filter is_send (trace w') = filter is_send (trace w) ++ [SendFnCalled]).
Proof.
  intros [[tempEnvelope ->] | [id ->]]; cbn zeta; rewrite snd_run_call.
  - destruct (enabled (config (this w))) eqn:Hen.
    + rewrite processSendMessage_enabled by exact Hen. cbn zeta.
      destruct (Qltb _ (dropRate (config (this w)))).
      * left. cbn. rewrite filter_app. cbn. rewrite app_nil_r. split; reflexivity.
      * right. destruct (fst (sendFn (outside w))) as [result | e].
        -- destruct (Qltb _ (duplicateRate (config (this w)))); cbn;
             rewrite ?filter_app; cbn; rewrite ?app_nil_r; split; reflexivity.
        -- cbn. rewrite filter_app. split; reflexivity.
    + rewrite processSendMessage_disabled by exact Hen. cbn zeta. right.
      destruct (fst (sendFn (outside w))); cbn; rewrite filter_app; split; reflexivity.
  - right. rewrite fire_DuplicateSend. cbn.
    rewrite !filter_app.
    destruct (fst (sendFn (outside w))); cbn; rewrite app_nil_r; split; reflexivity.
Qed.

End SendOrNot.

Section ChaoticProducerFacts.

Import KafkaProducer ChaoticProducer.

(** The step [SendMessage] is a call of [ChaoticProducer.sendMessage]. *)
Lemma call_of_SendMessage (a : SendArgs) (w : World State) :
  snd (run_call (call_of (SendMessage a)) w)
  = snd (ChaoticProducer.sendMessage (arg_topic a) (arg_messageType a) (arg_payload a)
           (arg_destinationNode a) w).
Proof. apply (snd_run_call (call_of (SendMessage a)) w). Qed.

Lemma published_in_order_step (a : SendArgs) (s0 s : State) (M : nat) :
  (forall k, broker_send s0 k = None) ->
  JSON_stringify (arg_payload a) <> None ->
  published_in_order s0 s M ->
  published_in_order s0 (snd (sendMessage_with a s)) (S M).
Proof.
  intros Htakes Hpayload (Hconn & Hnode & Huuid & Hbroker & Hcreated & Hcounter & Hnum & Hkeys).
  destruct (sendMessage_step a s Hconn Hpayload)
    as (Hconn1 & Hnode1 & Huuid1 & Hbroker1 & Hcreated1 & Hattempts1 & Hcounter1 & Hsend).
  cbn zeta in *. rewrite Hbroker, Htakes in Hsend.
  destruct Hsend as (_ & Hnum1 & Hkeys1).
  unfold published_in_order.
  split; [exact Hconn1|]. split; [congruence|]. split; [congruence|]. split; [congruence|].
  split; [rewrite Hcreated1, Hcreated; lia|].
  split; [rewrite Hcounter1, Hcounter; lia|].
  split.
  - rewrite Hnum1, Hnum, seq_S, map_app, <- app_assoc. cbn [map].
    replace (counter s + 1) with (counter s0 + Z.of_nat (1 + M)) by (rewrite Hcounter; lia).
    reflexivity.
  - rewrite Hkeys1, Hkeys, seq_S, map_app, <- app_assoc. cbn [map].
    rewrite Huuid, Hcreated. reflexivity.
Qed.

Lemma chaotic_steps (steps : list Step) (s0 : State) (w : World State) (M0 base : nat) :
  (forall k, broker_send s0 k = None) ->
  Forall (fun st => JSON_stringify (arg_payload (args_of st)) <> None) steps ->
  published_in_order s0 (outside w) M0 ->
  length (filter is_send (trace w)) = (base + M0)%nat ->
  let w' := snd (run (map call_of steps) w) in
  exists M,
    published_in_order s0 (outside w') M
    /\ length (filter is_send (trace w')) = (base + M)%nat.
Proof.
  intros Htakes Hall. revert w M0.
  induction Hall as [|st steps Hst Hall IH]; intros w M0 Hinv Htrace.
  - exists M0. split; assumption.
  - cbn zeta. cbn [map]. rewrite run_cons. cbn [snd].
    destruct (send_or_not (call_of st) (sendMessage_with (args_of st)) w)
      as [[Hout Htr] | [Hout Htr]].
    { destruct st as [a | a id]; [left | right]; eexists; reflexivity. }
    + apply (IH _ M0).
      * cbn zeta in Hout. rewrite Hout. exact Hinv.
      * cbn zeta in Htr. rewrite Htr. exact Htrace.
    + apply (IH _ (S M0)).
      * cbn zeta in Hout. rewrite Hout. apply published_in_order_step; assumption.
      * cbn zeta in Htr. rewrite Htr, length_app. cbn. lia.
Qed.

(** X23: a connected producer behind the proxy, with a broker that resolves
    every send and payloads that serialise, for any configuration and
    generator state: over any run of [ChaoticProducer.sendMessage] calls and
    duplicate timers the records at the broker carry consecutive sequence
    numbers, one per call of the send function, so that a dropped message
    leaves no gap, and every record, a duplicate too, has a fresh uuid as
    its key: no two of them are equal when [uuidv4] does not repeat. *)
Theorem chaos_leaves_no_sequence_gaps (steps : list Step) (w : World State) :
  let s := outside w in
  isConnected s = true ->
  (forall k, broker_send s k = None) ->
  Forall (fun st => JSON_stringify (arg_payload (args_of st)) <> None) steps ->
  let w' := snd (run (map call_of steps) w) in
  let s' := outside w' in
  exists M : nat,
    length (filter is_send (trace w')) = (length (filter is_send (trace w)) + M)%nat
    /\ counter s' = counter s + Z.of_nat M
    /\ numbers (accepted s')
       = numbers (accepted s) ++ map (fun k => pretty (counter s + Z.of_nat k)) (seq 1 M)
    /\ keys (accepted s')
       = keys (accepted s) ++ map (fun k => Some (uuidv4 s (created s + k)%nat)) (seq 0 M)
    /\ ((forall i j, uuidv4 s i = uuidv4 s j -> i = j) ->
        NoDup (map (fun k => Some (uuidv4 s (created s + k)%nat)) (seq 0 M))).
Proof.
  intros s Hconn Htakes Hall w' s'.
  destruct (chaotic_steps steps s w 0 (length (filter is_send (trace w))) Htakes Hall)
    as (M & (_ & _ & _ & _ & _ & Hcounter & Hnum & Hkeys) & Htrace).
  - unfold published_in_order. fold s. cbn. rewrite !app_nil_r, Nat.add_0_r, Z.add_0_r.
    repeat split; try reflexivity. exact Hconn.
  - lia.
  - exists M. repeat split; try assumption.
    intros Hinj. apply NoDup_fmap_2_strong; [|apply NoDup_seq].
    intros i j _ _ [= Heq]. apply Hinj in Heq. lia.
Qed.

End ChaoticProducerFacts.

Section BatchFacts.

Import KafkaProducer.

Implicit Types (s : State).

Lemma createMessage_raises (messageType : MessageType) (payload : Json)
    (destinationNode : option string) s :
  JSON_stringify payload = None ->
  exists s',
    createMessage messageType payload destinationNode s = (Throw (TypeError "length"), s')
    /\ counter s' = counter s + 1
    /\ send_attempts s' = send_attempts s
    /\ accepted s' = accepted s.
Proof.
  intros Hpayload.
  unfold createMessage, MessageUtils.createMessage, MessageUtils.calculateChecksum.
  rewrite Hpayload. eexists. cbn. split; [reflexivity|].
  repeat split. unfold counter. cbn. unfold MessageUtils.getSequenceCounter at 1.
  rewrite lookup_insert_eq. reflexivity.
Qed.

Lemma numbered_shift (c : Z) (n : nat) :
  map (fun k => Some (c + 1 + Z.of_nat k)) (seq 1 n)
  = map (fun k => Some (c + Z.of_nat k)) (seq 2 n).
Proof.
  rewrite <- (seq_shift n 1), map_map. apply map_ext. intros k. f_equal. lia.
Qed.

Lemma create_all_numbers (items : list BatchItem) s :
  Forall (fun item => JSON_stringify (item_payload item) <> None) items ->
  exists envelopes s',
    create_all items s = (Ok envelopes, s')
    /\ map sequenceNumber envelopes
       = map (fun k => Some (counter s + Z.of_nat k)) (seq 1 (length items))
    /\ counter s' = counter s + Z.of_nat (length items)
    /\ isConnected s' = isConnected s /\ broker_send s' = broker_send s
    /\ send_attempts s' = send_attempts s /\ accepted s' = accepted s.
Proof.
  intros Hall. revert s. induction Hall as [|item items Hitem Hall IH]; intros s.
  - exists [], s. cbn. rewrite Z.add_0_r. repeat split; reflexivity.
  - destruct (createMessage_step (item_messageType item) (item_payload item)
                (item_destinationNode item) s Hitem)
      as (envelope & s1 & Hcreate & Hseq & _ & Hc1 & _ & _ & Hb1 & _ & Ha1 & Hacc1 & Hcnt1).
    destruct (IH s1) as (envelopes & s2 & Hrest & Hseqs & Hcnt2 & Hc2 & Hb2 & Ha2 & Hacc2).
    exists (envelope :: envelopes), s2.
    cbn [create_all]. rewrite Hcreate, Hrest.
    split; [reflexivity|]. split.
    + cbn [map length seq]. rewrite Hseq, Hseqs, Hcnt1, numbered_shift. reflexivity.
    + split; [rewrite Hcnt2, Hcnt1; cbn [length]; lia|].
      repeat split; congruence.
Qed.

Lemma messages_of_numbers (envelopes : list MessageEnvelope) (ns : list Z) :
  map sequenceNumber envelopes = map Some ns ->
  exists messages,
    messages_of envelopes = Ok messages
    /\ map header_sequenceNumber messages = map pretty ns.
Proof.
  revert ns. induction envelopes as [|envelope envelopes IH]; intros [|n ns] Hseq;
    try discriminate.
  - exists []. split; reflexivity.
  - cbn [map] in Hseq. injection Hseq as Hn Hrest.
    destruct (IH ns Hrest) as (messages & Hmessages & Hheaders).
    eexists. cbn [messages_of]. unfold message_of. rewrite Hn, Hmessages.
    split; [reflexivity|]. cbn. rewrite Hheaders. reflexivity.
Qed.

(** X24: [sendBatch] on a connected producer with payloads that serialise
    takes one sequence number per item, in item order, and makes one broker
    send.  When the broker resolves, one record with a message per item is
    published and the envelopes are returned; when it rejects, the call
    rejects with that error, nothing is published and the numbers stay
    taken. *)
Theorem sendBatch_takes_a_number_per_item (topic : string) (items : list BatchItem) s :
  isConnected s = true ->
  Forall (fun item => JSON_stringify (item_payload item) <> None) items ->
  let r := sendBatch topic items s in
  let ns := map (fun k => counter s + Z.of_nat k) (seq 1 (length items)) in
  counter (snd r) = counter s + Z.of_nat (length items)
  /\ send_attempts (snd r) = S (send_attempts s)
  /\ match broker_send s (send_attempts s) with
     | None =>
         exists envelopes messages,
           fst r = Ok envelopes
           /\ map sequenceNumber envelopes = map Some ns
           /\ accepted (snd r) = accepted s ++ [{| topic := topic; messages := messages |}]
           /\ map header_sequenceNumber messages = map pretty ns
     | Some error => fst r = Throw error /\ accepted (snd r) = accepted s
     end.
Proof.
  intros Hconn Hall r ns.
  destruct (create_all_numbers items s Hall)
    as (envelopes & s1 & Hcreate & Hseqs & Hcnt & Hc1 & Hb1 & Ha1 & Hacc1).
  assert (Hseqs' : map sequenceNumber envelopes = map Some ns).
  { rewrite Hseqs. unfold ns. rewrite map_map. reflexivity. }
  destruct (messages_of_numbers envelopes ns Hseqs') as (messages & Hmessages & Hheaders).
  unfold r, sendBatch. rewrite Hconn. cbn [negb]. rewrite Hcreate, Hmessages.
  unfold send. rewrite Hb1, Ha1.
  destruct (broker_send s (send_attempts s)) as [error|]; cbn.
  - repeat split; assumption.
  - split; [exact Hcnt|]. split; [reflexivity|].
    exists envelopes, messages. rewrite Hacc1. repeat split; assumption.
Qed.

(** X25: when an item of the batch has a payload that does not serialise,
    [sendBatch] raises the TypeError of [calculateChecksum] before any
    broker send: nothing is published, and the sequence numbers of the
    items before it and of the item itself are taken. *)
Theorem sendBatch_stops_at_unserialisable_item
    (topic : string) (before after : list BatchItem) (item : BatchItem) s :
  isConnected s = true ->
  Forall (fun item => JSON_stringify (item_payload item) <> None) before ->
  JSON_stringify (item_payload item) = None ->
  let r := sendBatch topic (before ++ item :: after) s in
  fst r = Throw (TypeError "length")
  /\ counter (snd r) = counter s + Z.of_nat (length before) + 1
  /\ send_attempts (snd r) = send_attempts s
  /\ accepted (snd r) = accepted s.
Proof.
  intros Hconn Hbefore Hitem r.
  assert (Hcreate : exists s',
    create_all (before ++ item :: after) s = (Throw (TypeError "length"), s')
    /\ counter s' = counter s + Z.of_nat (length before) + 1
    /\ send_attempts s' = send_attempts s
    /\ accepted s' = accepted s).
  { clear r Hconn. revert s.
    induction Hbefore as [|first before Hfirst Hbefore IH]; intros s.
    - cbn [app create_all length].
      destruct (createMessage_raises (item_messageType item) (item_payload item)
                  (item_destinationNode item) s Hitem) as (s' & -> & Hcnt & Ha & Hacc).
      exists s'. repeat split; try assumption. rewrite Hcnt. cbn. lia.
    - destruct (createMessage_step (item_messageType first) (item_payload first)
                  (item_destinationNode first) s Hfirst)
        as (envelope & s1 & Hcreate & _ & _ & _ & _ & _ & _ & _ & Ha1 & Hacc1 & Hcnt1).
      destruct (IH s1) as (s' & Hrest & Hcnt & Ha & Hacc).
      exists s'. cbn [app create_all]. rewrite Hcreate, Hrest.
      split; [reflexivity|]. split; [rewrite Hcnt, Hcnt1; cbn [length]; lia|].
      split; congruence. }
  destruct Hcreate as (s' & Hcreate & Hcnt & Ha & Hacc).
  unfold r, sendBatch. rewrite Hconn. cbn [negb]. rewrite Hcreate. cbn.
  repeat split; assumption.
Qed.

(** The producer's state and the counter [dropped] after one step on a
    producer that is not connected, and what the step has put on
    [console.error]. *)
Lemma unconnected_step (st : ChaoticProducer.Step) (w : World State) :
  isConnected (outside w) = false ->
  let o := fst (run_call (ChaoticProducer.call_of st) w) in
  let w' := snd (run_call (ChaoticProducer.call_of st) w) in
  let error := not_connected (outside w) in
  outside w' = outside w
  /\ match st with
     | ChaoticProducer.SendMessage _ =>
         omap swallowed (trace w') = omap swallowed (trace w)
         /\ ((o = Sent None /\ dropped (stats (this w')) = dropped (stats (this w)) + 1)
             \/ (o = Rejected error /\ dropped (stats (this w')) = dropped (stats (this w))))
     | ChaoticProducer.FireDuplicate _ _ =>
         o = Fired
         /\ dropped (stats (this w')) = dropped (stats (this w))
         /\ omap swallowed (trace w') = omap swallowed (trace w) ++ [error]
     end.
Proof.
  intros Hoff. cbn zeta.
  assert (Hsend : forall a, sendMessage_with a (outside w)
                            = (Throw (not_connected (outside w)), outside w)).
  { intros a. unfold sendMessage_with, sendMessage. rewrite Hoff. reflexivity. }
  destruct st as [a | a id]; cbn [ChaoticProducer.call_of run_call].
  - destruct (enabled (config (this w))) eqn:Hen.
    + rewrite processSendMessage_enabled by exact Hen. cbn zeta.
      destruct (Qltb _ (dropRate (config (this w)))).
      * cbn. rewrite omap_app. cbn. rewrite app_nil_r.
        split; [reflexivity|]. split; [reflexivity|]. left. split; reflexivity.
      * unfold after_send. rewrite !Hsend. cbn. rewrite omap_app. cbn. rewrite app_nil_r.
        split; [reflexivity|]. split; [reflexivity|]. right. split; reflexivity.
    + rewrite processSendMessage_disabled by exact Hen. cbn zeta.
      unfold after_send. rewrite !Hsend. cbn. rewrite omap_app. cbn. rewrite app_nil_r.
      split; [reflexivity|]. split; [reflexivity|]. right. split; reflexivity.
  - rewrite fire_DuplicateSend. unfold after_send. rewrite !Hsend. cbn.
    rewrite !omap_app. cbn. rewrite app_nil_r.
    split; [reflexivity|]. split; [reflexivity|]. split; reflexivity.
Qed.

(** X26: while the wrapped producer is not connected, the producer with
    its counters stays exactly as it was.  A [ChaoticProducer.sendMessage]
    is answered with null or rejects with the producer's not-connected
    error, and it is answered with null only when the proxy has dropped it:
    [dropped] counts these answers.  A duplicate timer completes without
    raising, and each has put that error on [console.error]. *)
Theorem unconnected_producer_takes_no_number
    (steps : list ChaoticProducer.Step) (w : World State) :
  isConnected (outside w) = false ->
  let r := run (map ChaoticProducer.call_of steps) w in
  let error := not_connected (outside w) in
  outside (snd r) = outside w
  /\ Forall2 (fun st o => match st with
                          | ChaoticProducer.SendMessage _ =>
                              o = Sent None \/ o = Rejected error
                          | ChaoticProducer.FireDuplicate _ _ => o = Fired
                          end) steps (fst r)
  /\ dropped (stats (this (snd r)))
     = dropped (stats (this w)) + Z.of_nat (length (filter is_dropped (fst r)))
  /\ omap swallowed (trace (snd r))
     = omap swallowed (trace w)
       ++ replicate (length (filter ChaoticProducer.is_timer steps)) error.
Proof.
  intros Hoff. cbn zeta. revert w Hoff.
  induction steps as [|st steps IH]; intros w Hoff.
  - cbn. rewrite app_nil_r. repeat split; [constructor | lia].
  - cbn [map]. rewrite run_cons. cbn [fst snd].
    destruct (unconnected_step st w Hoff) as [Hout Hstep]. cbn zeta in Hout, Hstep.
    destruct (IH (snd (run_call (ChaoticProducer.call_of st) w)))
      as (IHout & IHo & IHdropped & IHtrace).
    { rewrite Hout. exact Hoff. }
    rewrite Hout in IHo, IHtrace.
    split; [congruence|].
    destruct st as [a | a id].
    + destruct Hstep as [Htrace [[Ho Hdropped] | [Ho Hdropped]]].
      * split; [constructor; [left; exact Ho | exact IHo]|].
        rewrite Ho at 1.
        rewrite (filter_cons_True _ (Sent None)) by exact I. cbn [length].
        rewrite (filter_cons_False _ (ChaoticProducer.SendMessage a)) by (intros []).
        split; [rewrite IHdropped, Hdropped; lia|].
        rewrite IHtrace, Htrace. reflexivity.
      * split; [constructor; [right; exact Ho | exact IHo]|].
        rewrite Ho at 1.
        rewrite (filter_cons_False _ (Rejected (not_connected (outside w)))) by (intros []).
        rewrite (filter_cons_False _ (ChaoticProducer.SendMessage a)) by (intros []).
        split; [rewrite IHdropped, Hdropped; lia|].
        rewrite IHtrace, Htrace. reflexivity.
    + destruct Hstep as (Ho & Hdropped & Htrace).
      split; [constructor; [exact Ho | exact IHo]|].
      rewrite Ho at 1.
      rewrite (filter_cons_False _ Fired) by (intros []).
      rewrite (filter_cons_True _ (ChaoticProducer.FireDuplicate a id)) by exact I.
      cbn [length replicate].
      split; [rewrite IHdropped, Hdropped; lia|].
      rewrite IHtrace, Htrace, <- app_assoc. reflexivity.
Qed.

End BatchFacts.

(** ** The telemetry handler of the ground station *)

Section GroundControlFacts.

Import GroundControl.

(** X27: the telemetry handler prints one line per envelope and never the
    gap warning: [lastSequence] is updated before the gap check, so by then
    the sequence number is at most [lastSequence].  The envelope is shown
    as in order exactly when its number is above the [lastSequence] the
    handler found. *)
Theorem gap_warning_is_never_printed (payload : TelemetryPayload) (sequenceNumber : Z)
    (s : State) :
  exists order,
    console (handler payload sequenceNumber s)
    = console s ++ [Telemetry_received order (satelliteId payload)
                      (statusIcon (systemHealth payload)) sequenceNumber
                      (batteryLevel payload)]
    /\ (order = Inbox <-> lastSequence_of (satelliteId payload) s < sequenceNumber)
    /\ sequenceNumber <= lastSequence_of (satelliteId payload) (handler payload sequenceNumber s).
Proof.
  unfold handler, lastSequence_of. cbn [console satelliteStates].
  rewrite lookup_insert_eq.
  destruct (satelliteStates s !! satelliteId payload) as [state|]; cbn;
    repeat match goal with
           | |- context [Z.ltb ?a ?b] => destruct (Z.ltb_spec a b); cbn
           | |- context [Z.leb ?a ?b] => destruct (Z.leb_spec a b); cbn
           end;
    try (exfalso; lia);
    (eexists; split; [reflexivity|]; split;
     [split; [first [discriminate | intros _; lia]
             | first [intros _; reflexivity | intros ?; exfalso; lia]]
     | lia]).
Qed.

Lemma handler_lastSequence (payload : TelemetryPayload) (sequenceNumber : Z) (s : State)
    (id : string) :
  lastSequence_of id (handler payload sequenceNumber s)
  = if bool_decide (satelliteId payload = id)
    then Z.max (lastSequence_of id s) sequenceNumber
    else lastSequence_of id s.
Proof.
  unfold handler, lastSequence_of. cbn [satelliteStates].
  destruct (bool_decide_reflect (satelliteId payload = id)) as [-> | Hne].
  - rewrite lookup_insert_eq.
    destruct (satelliteStates s !! id) as [state|]; cbn;
      repeat match goal with
             | |- context [Z.ltb ?a ?b] => destruct (Z.ltb_spec a b); cbn
             end; lia.
  - rewrite lookup_insert_ne by exact Hne. reflexivity.
Qed.

(** X28: after any list of envelopes, [lastSequence] of a satellite is the
    maximum of what it was before (0 for a satellite not seen yet) and the
    sequence numbers of the envelopes of that satellite, whatever the order
    of arrival and whichever of them were taken as stale. *)
Theorem lastSequence_is_highest_seen (envelopes : list (TelemetryPayload * Z)) (s : State)
    (id : string) :
  lastSequence_of id (handle_all envelopes s)
  = fold_left Z.max
      (map snd (filter (fun e => satelliteId (fst e) = id) envelopes))
      (lastSequence_of id s).
Proof.
  revert s. induction envelopes as [|[payload sequenceNumber] envelopes IH]; intros s.
  - reflexivity.
  - cbn [handle_all fold_left]. fold (handle_all envelopes (handler payload sequenceNumber s)).
    rewrite IH, handler_lastSequence, filter_cons. cbn [fst snd].
    destruct (bool_decide_reflect (satelliteId payload = id)) as [Heq | Hne].
    + rewrite decide_True by exact Heq. reflexivity.
    + rewrite decide_False by exact Hne. reflexivity.
Qed.

End GroundControlFacts.


Lemma rejected_sends_leave_gaps_witness :
  let broker := fun k : nat => if (k =? 1)%nat then Some (ExternalError "broker down")
                               else None in
  let s := SampleProducer.state true broker in
  let calls := [SampleProducer.telemetry 98; SampleProducer.telemetry 96;
                SampleProducer.telemetry 94] in
  (KafkaProducer.isConnected s = true
   /\ Forall (fun a => JSON_stringify (KafkaProducer.arg_payload a) <> None) calls)
  /\ KafkaProducer.counter (snd (KafkaProducer.sendMessages calls s)) = 3
  /\ KafkaProducer.numbers (KafkaProducer.accepted (snd (KafkaProducer.sendMessages calls s)))
     = ["1"; "3"].
Proof.
  intros broker s calls.
  assert (H1 : KafkaProducer.isConnected s = true) by reflexivity.
  assert (H2 : Forall (fun a => JSON_stringify (KafkaProducer.arg_payload a) <> None) calls).
  { repeat constructor; discriminate. }
  split; [split; assumption|].
  destruct (rejected_sends_leave_gaps calls s H1 H2) as (Hcounter & Hnumbers & _).
  split; [exact Hcounter | exact Hnumbers].
Defined.

Lemma chaos_leaves_no_sequence_gaps_witness :
  let s := SampleProducer.state true (fun _ => None) in
  let w := SampleProducer.world (Sample.config (1 # 2) 1 0 0 12345) s in
  let steps := [ChaoticProducer.SendMessage (SampleProducer.telemetry 98);
                ChaoticProducer.SendMessage (SampleProducer.telemetry 96);
                ChaoticProducer.FireDuplicate (SampleProducer.telemetry 98) (Some "uuid-0");
                ChaoticProducer.SendMessage (SampleProducer.telemetry 94)] in
  (KafkaProducer.isConnected (outside w) = true
   /\ (forall k, KafkaProducer.broker_send (outside w) k = None)
   /\ Forall (fun st => JSON_stringify (KafkaProducer.arg_payload (ChaoticProducer.args_of st))
                        <> None) steps)
  /\ exists M : nat,
       KafkaProducer.numbers
         (KafkaProducer.accepted (outside (snd (run (map ChaoticProducer.call_of steps) w))))
       = map (fun k => pretty (Z.of_nat k)) (seq 1 M)
       /\ length (filter is_send (trace (snd (run (map ChaoticProducer.call_of steps) w)))) = M.
Proof.
  intros s w steps.
  assert (H1 : KafkaProducer.isConnected (outside w) = true) by reflexivity.
  assert (H2 : forall k, KafkaProducer.broker_send (outside w) k = None) by reflexivity.
  assert (H3 : Forall (fun st => JSON_stringify
                                   (KafkaProducer.arg_payload (ChaoticProducer.args_of st))
                                 <> None) steps).
  { repeat constructor; discriminate. }
  split; [repeat split; assumption|].
  destruct (chaos_leaves_no_sequence_gaps steps w H1 H2 H3)
    as (M & Htrace & _ & Hnumbers & _).
  exists M. split; [exact Hnumbers | exact Htrace].
Defined.

Lemma sendBatch_takes_a_number_per_item_witness :
  let s := SampleProducer.state true (fun _ => Some (ExternalError "broker down")) in
  let items := [SampleProducer.item JNull; SampleProducer.item (JInt 7)] in
  (KafkaProducer.isConnected s = true
   /\ Forall (fun item => JSON_stringify (KafkaProducer.item_payload item) <> None) items)
  /\ KafkaProducer.counter (snd (KafkaProducer.sendBatch "telemetry" items s)) = 2
  /\ fst (KafkaProducer.sendBatch "telemetry" items s) = Throw (ExternalError "broker down")
  /\ KafkaProducer.accepted (snd (KafkaProducer.sendBatch "telemetry" items s)) = [].
Proof.
  intros s items.
  assert (H1 : KafkaProducer.isConnected s = true) by reflexivity.
  assert (H2 : Forall (fun item => JSON_stringify (KafkaProducer.item_payload item) <> None)
                 items).
  { repeat constructor; discriminate. }
  split; [split; assumption|].
  destruct (sendBatch_takes_a_number_per_item "telemetry" items s H1 H2)
    as (Hcounter & _ & Hthrow & Hacc).
  split; [exact Hcounter|]. split; [exact Hthrow | exact Hacc].
Defined.

Lemma sendBatch_stops_at_unserialisable_item_witness :
  let s := SampleProducer.state true (fun _ => None) in
  let before := [SampleProducer.item JNull; SampleProducer.item (JInt 7)] in
  let item := SampleProducer.item JUndefined in
  let after := [SampleProducer.item (JBool true)] in
  (KafkaProducer.isConnected s = true
   /\ Forall (fun item => JSON_stringify (KafkaProducer.item_payload item) <> None) before
   /\ JSON_stringify (KafkaProducer.item_payload item) = None)
  /\ fst (KafkaProducer.sendBatch "telemetry" (before ++ item :: after) s)
     = Throw (TypeError "length")
  /\ KafkaProducer.counter (snd (KafkaProducer.sendBatch "telemetry" (before ++ item :: after) s))
     = 3.
Proof.
  intros s before item after.
  assert (H1 : KafkaProducer.isConnected s = true) by reflexivity.
  assert (H2 : Forall (fun item => JSON_stringify (KafkaProducer.item_payload item) <> None)
                 before).
  { repeat constructor; discriminate. }
  assert (H3 : JSON_stringify (KafkaProducer.item_payload item) = None) by reflexivity.
  split; [repeat split; assumption|].
  destruct (sendBatch_stops_at_unserialisable_item "telemetry" before after item s H1 H2 H3)
    as (Hthrow & Hcounter & _).
  split; [exact Hthrow | exact Hcounter].
Defined.

Lemma unconnected_producer_takes_no_number_witness :
  let s := SampleProducer.state false (fun _ => None) in
  let w := SampleProducer.world (Sample.config 0 0 0 0 12345) s in
  let steps := [ChaoticProducer.SendMessage (SampleProducer.telemetry 98);
                ChaoticProducer.FireDuplicate (SampleProducer.telemetry 98) None] in
  let r := run (map ChaoticProducer.call_of steps) w in
  KafkaProducer.isConnected (outside w) = false
  /\ outside (snd r) = s
  /\ fst r = [Rejected (KafkaProducer.not_connected s); Fired]
  /\ dropped (stats (this (snd r))) = 0
  /\ omap swallowed (trace (snd r)) = [KafkaProducer.not_connected s].
Proof.
  intros s w steps r.
  assert (H1 : KafkaProducer.isConnected (outside w) = false) by reflexivity.
  split; [exact H1|].
  destruct (unconnected_producer_takes_no_number steps w H1)
    as (Hout & Houtcomes & Hdropped & Htrace).
  split; [exact Hout|].
  split; [vm_compute; reflexivity|].
  split; [exact (eq_trans Hdropped eq_refl) | exact (eq_trans Htrace eq_refl)].
Defined.

Lemma validateMessage_total_on_serialisable_witness :
  let envelope := Sample.envelope "m-1" 1 in
  JSON_stringify (payload envelope) = Some "null"
  /\ exists b : bool, MessageUtils.validateMessage envelope = Ok b.
Proof.
  intros envelope.
  assert (H1 : JSON_stringify (payload envelope) = Some "null") by reflexivity.
  split; [exact H1|].
  destruct (validateMessage_total_on_serialisable envelope "null" H1) as (b & Hb & _).
  exists b. exact Hb.
Defined.


Lemma drop_rate_zero_never_drops_witness :
  let w := Sample.world (Sample.config 0 1 0 0 12345) 0 in
  let l := [(Sample.tempEnvelope, Sample.sendFn); (Sample.tempEnvelope, Sample.failing_sendFn)] in
  (enabled (config (this w)) = true /\ (dropRate (config (this w)) == 0)%Q
   /\ 0 <= random (this w))
  /\ dropped (stats (this (snd (run (send_calls l) w)))) = 0.
Proof.
  intros w l.
  assert (H1 : enabled (config (this w)) = true) by reflexivity.
  assert (H2 : (dropRate (config (this w)) == 0)%Q) by reflexivity.
  assert (H3 : 0 <= random (this w)) by (vm_compute; discriminate).
  split; [repeat split; assumption|].
  exact (proj1 (proj2 (drop_rate_zero_never_drops l w H1 H2 H3))).
Defined.

Lemma seeded_decisions_reproducible_witness :
  let config := Sample.config (1 # 2) 1 1000 2 12345 in
  let w1 := Sample.world config 0 in
  let w2 := Sample.world config (1 # 2) in
  let calls := [Send Sample.tempEnvelope Sample.sendFn;
                Receive (Sample.envelope "a" 1) Sample.handler;
                Send Sample.tempEnvelope Sample.sendFn;
                Receive (Sample.envelope "b" 2) Sample.handler] in
  seeded_part w1 = seeded_part w2
  /\ fst (run calls w1) = fst (run calls w2)
  /\ this (snd (run calls w1)) = this (snd (run calls w2)).
Proof.
  intros config w1 w2 calls.
  assert (H1 : seeded_part w1 = seeded_part w2) by reflexivity.
  split; [exact H1|].
  destruct (seeded_decisions_reproducible calls w1 w2 H1) as (Ho & Hthis & _).
  split; [exact Ho | exact Hthis].
Defined.
